(** * Beachdo real-time chat: the WebSocket relay of [server/routes.ts]

    A shallow embedding of the chat core of the marketplace server:
    the process-wide [connections] map, the per-connection message and
    close handlers registered in [registerRoutes], the storage methods of
    [DatabaseStorage] they call, and [verifyRefreshToken] of
    [server/middleware/auth.ts].

    Handlers are written in a small state-and-exception monad over the
    server's [world].  The message handler is [async]: it runs up to an
    [await], and goes on when the awaited storage call has settled.  In
    between, the server handles whatever else arrives, on the same socket
    too, so a handler that goes on finds the registry, the sockets and its
    own closure variable [userId] as they are by then.  A handler that
    waits is kept in the world with what it holds in its local constants;
    the database running its query and the handler going on are events of
    their own.  What the code cannot decide by itself (clock readings,
    generated ids, rejected storage promises, the driver's rendering of
    non-string parameters) is read from an [Env] supplied with each
    event. *)

From stdpp Require Import gmap strings list fin_maps.
From Stdlib Require Import ZArith.

Open Scope string_scope.
Open Scope Z_scope.
Open Scope list_scope.

(** ** JSON values, as returned by [JSON.parse] *)

#[warnings="-register-all"]
Inductive json :=
| JNull
| JBool (b : bool)
| JNum (n : Z)
| JStr (s : string)
| JArr (items : list json)
| JObj (fields : list (string * json)).

(** A JavaScript value read out of a parsed frame: [None] is [undefined]. *)
Definition jsval := option json.

(** [JSON.parse] keeps the last of several equal keys. *)
Fixpoint obj_lookup (fields : list (string * json)) (key : string) : jsval :=
  match fields with
  | [] => None
  | (k, v) :: rest =>
      match obj_lookup rest key with
      | Some v' => Some v'
      | None => if bool_decide (k = key) then Some v else None
      end
  end.

Inductive error :=
| SyntaxError      (* JSON.parse rejected the text *)
| TypeError        (* property read on null *)
| StorageError.    (* a storage promise rejected *)

Inductive outcome (A : Type) :=
| Ok (a : A)
| Throw (e : error).
Arguments Ok {A} a.
Arguments Throw {A} e.

(** ** The schema ([shared/schema.ts]): the columns the chat core touches *)

Record Chat := mkChat {
  chat_id : string;
  buyerId : string;
  sellerId : string;
  listingId : string;
  lastMessageAt : option Z;
  chat_createdAt : Z
}.

Record Message := mkMessage {
  message_id : string;
  chatId : string;
  senderId : string;
  message : string;
  isRead : bool;
  createdAt : Z
}.

Record User := mkUser {
  user_id : string;
  user_role : string;
  isActive : bool
}.

Record AuthToken := mkAuthToken {
  token_id : string;
  token_userId : string;
  refreshToken : string;
  expiresAt : Z
}.

Record database := mkDatabase {
  chats : list Chat;
  messages : list Message;
  users : list User;
  authTokens : list AuthToken
}.

(** ** Sockets, the registry and the frames pushed to clients *)

Inductive ReadyState := CONNECTING | OPEN | CLOSING | CLOSED.

Global Instance ReadyState_eq_dec : EqDecision ReadyState.
Proof. solve_decision. Defined.

(** [interface ChatConnection { userId: string; ws: WebSocket }]; a socket
    is named by the number of its connection. *)
Record ChatConnection := mkChatConnection {
  conn_userId : string;
  conn_ws : nat
}.

(** Per connection: the closure variable [let userId: string | null] of
    the handlers registered for it, and the socket's [readyState]. *)
Record socket := mkSocket {
  userId : option string;
  readyState : ReadyState
}.

Inductive frame :=
| auth_status (success : bool)                 (* { type: 'auth', status } *)
| new_message (m : Message) (chat : jsval)     (* { type: 'new_message', message, chatId } *)
| message_sent (m : Message)                   (* { type: 'message_sent', message } *)
| error_frame (description : string).          (* { type: 'error', message } *)

(** The observable effects of the handlers, in the order they happen.
    [Sent] records the [readyState] of the target socket when [ws.send]
    was called on it. *)
Inductive effect :=
| Inserted (m : Message)
| Touched (chat : option string) (at_time : Z)
| Sent (to : nat) (rs : ReadyState) (f : frame)
| CloseCalled (c : nat)
| Logged (e : error).

(** ** What the environment decides for one event *)

Inductive storage_op := OpGetChat | OpCreateMessage | OpUpdateChatLastMessage.

Record Env := mkEnv {
  now : Z;                          (* [new Date()] / [Date.now()] in the server process *)
  db_now : Z;                       (* [now()] evaluated by the database for [defaultNow()] *)
  gen_random_uuid : string;         (* the id default of an inserted row *)
  rejects : storage_op → bool;      (* the storage promise rejects *)
  sql_text : json → option string   (* parameter bound for a non-string value; [None] is NULL *)
}.

Record JWTPayload := mkJWTPayload {
  payload_userId : string;
  payload_role : string
}.

(** ** Message handlers that wait

    The [await] a message handler is suspended at, with the constants of
    its scope that the rest of the handler uses: [chat] from the first
    [await] on, [newMessage] from the second, and the arguments the
    pending call was made with ([senderId: userId], read when
    [createMessage] was called; [new Date()], read when
    [updateChatLastMessage] was called).  [answer] is [None] while the
    database has not run the query, and the outcome of the promise
    afterwards, until the handler goes on. *)
Inductive stage :=
| AwaitGetChat (answer : option (outcome (option Chat)))
| AwaitCreateMessage (chat : Chat) (sender : string) (answer : option (outcome Message))
| AwaitUpdateChatLastMessage (chat : Chat) (newMessage : Message) (t : Z)
                             (answer : option (outcome unit))
| Returned.

(** One invocation of the message handler: its socket [ws], through which
    it also reads the closure variable [userId], the frame's environment
    (the driver's rendering of its parameters), [const { chatId, content }
    = message], and where it stands. *)
Record handler := mkHandler {
  h_ws : nat;
  h_env : Env;
  h_chatId : jsval;
  h_content : jsval;
  h_stage : stage
}.

Definition at_stage (h : handler) (s : stage) : handler :=
  mkHandler (h_ws h) (h_env h) (h_chatId h) (h_content h) s.

(** The message row a waiting handler holds in [newMessage]. *)
Definition holds (s : stage) : option Message :=
  match s with
  | AwaitCreateMessage _ _ (Some (Ok m)) => Some m
  | AwaitUpdateChatLastMessage _ m _ _ => Some m
  | _ => None
  end.

Record world := mkWorld {
  connections : gmap string ChatConnection;
  sockets : gmap nat socket;
  db : database;
  trace : list effect;
  handlers : list handler          (* the invocations of the message handler that
                                      have reached an [await], oldest first *)
}.

Definition set_connections (f : gmap string ChatConnection → gmap string ChatConnection)
    (w : world) : world :=
  mkWorld (f (connections w)) (sockets w) (db w) (trace w) (handlers w).

Definition set_sockets (f : gmap nat socket → gmap nat socket) (w : world) : world :=
  mkWorld (connections w) (f (sockets w)) (db w) (trace w) (handlers w).

Definition set_db (f : database → database) (w : world) : world :=
  mkWorld (connections w) (sockets w) (f (db w)) (trace w) (handlers w).

Definition set_handlers (f : list handler → list handler) (w : world) : world :=
  mkWorld (connections w) (sockets w) (db w) (trace w) (f (handlers w)).

Definition log (x : effect) (w : world) : world :=
  mkWorld (connections w) (sockets w) (db w) (trace w ++ [x]) (handlers w).

(** ** The handler monad *)

Definition M (A : Type) : Type := world → outcome A * world.

Global Instance M_ret : MRet M := λ A a w, (Ok a, w).
Global Instance M_bind : MBind M := λ A B f m w,
  match m w with
  | (Ok a, w') => f a w'
  | (Throw e, w') => (Throw e, w')
  end.

Definition throw {A} (e : error) : M A := λ w, (Throw e, w).

(** [try { body } catch (error) { handler }] *)
Definition try_catch {A} (body : M A) (handler : error → M A) : M A := λ w,
  match body w with
  | (Ok a, w') => (Ok a, w')
  | (Throw e, w') => handler e w'
  end.

Definition read {A} (f : world → A) : M A := λ w, (Ok (f w), w).
Definition modify (f : world → world) : M unit := λ w, (Ok tt, f w).
Definition lift_outcome {A} (o : outcome A) : M A := λ w, (o, w).
Definition when (b : bool) (m : M unit) : M unit := if b then m else mret tt.

Definition exec {A} (m : M A) (w : world) : world := snd (m w).
Definition result {A} (m : M A) (w : world) : outcome A := fst (m w).

(** ** Storage: the [DatabaseStorage] methods the chat core calls *)

(** The text bound to a [varchar]/[text] parameter.  A string is bound as
    it is; [undefined] and [null] are bound as NULL; what the driver makes
    of any other value is the environment's. *)
Definition sql_param (e : Env) (v : jsval) : option string :=
  match v with
  | Some (JStr s) => Some s
  | Some JNull | None => None
  | Some j => sql_text e j
  end.

(** [const [chat] = await db.select().from(chats).where(eq(chats.id, id))]:
    the first row whose id equals the parameter; NULL equals nothing. *)
Definition select_chat (id : option string) (rows : list Chat) : option Chat :=
  match id with
  | Some i => List.find (λ row, bool_decide (chat_id row = i)) rows
  | None => None
  end.

Definition getChat (e : Env) (id : jsval) : M (option Chat) :=
  if rejects e OpGetChat then throw StorageError
  else read (λ w, select_chat (sql_param e id) (chats (db w))).

Definition insert_message (row : Message) (d : database) : database :=
  mkDatabase (chats d) (messages d ++ [row]) (users d) (authTokens d).

(** [db.insert(messages).values(messageData).returning()]: [id],
    [isRead] and [createdAt] take their column defaults; [chat_id] and
    [message] are NOT NULL. *)
Definition createMessage (e : Env) (chat_key : jsval) (sender : string)
    (content : jsval) : M Message :=
  if rejects e OpCreateMessage then throw StorageError
  else match sql_param e chat_key, sql_param e content with
       | Some cid, Some body =>
           let row := mkMessage (gen_random_uuid e) cid sender body false (db_now e) in
           modify (λ w, log (Inserted row) (set_db (insert_message row) w));;
           mret row
       | _, _ => throw StorageError
       end.

Definition touch (id : option string) (t : Z) (row : Chat) : Chat :=
  if bool_decide (Some (chat_id row) = id)
  then mkChat (chat_id row) (buyerId row) (sellerId row) (listingId row)
              (Some t) (chat_createdAt row)
  else row.

Definition touch_chats (id : option string) (t : Z) (d : database) : database :=
  mkDatabase (touch id t <$> chats d) (messages d) (users d) (authTokens d).

(** [db.update(chats).set({ lastMessageAt: new Date() }).where(eq(chats.id, chatId))] *)
Definition updateChatLastMessage (e : Env) (chat_key : jsval) : M unit :=
  if rejects e OpUpdateChatLastMessage then throw StorageError
  else modify (λ w, log (Touched (sql_param e chat_key) (now e))
                        (set_db (touch_chats (sql_param e chat_key) (now e)) w)).

(** [db.delete(authTokens).where(eq(authTokens.refreshToken, refreshToken))],
    what [/api/auth/logout] and [/api/auth/refresh] do to revoke a token. *)
Definition deleteAuthToken (token : string) (d : database) : database :=
  mkDatabase (chats d) (messages d) (users d)
             (List.filter (λ row, negb (bool_decide (refreshToken row = token))) (authTokens d)).

Definition getAuthToken (token : string) (d : database) : option AuthToken :=
  List.find (λ row, bool_decide (refreshToken row = token)) (authTokens d).

Definition getUser (id : string) (d : database) : option User :=
  List.find (λ row, bool_decide (user_id row = id)) (users d).

(** ** Primitives of the handlers *)

(** [JSON.parse(data.toString())]: a frame arrives with the outcome of its
    parse, [None] when the text is not JSON. *)
Definition JSON_parse (data : option json) : M json :=
  match data with
  | Some v => mret v
  | None => throw SyntaxError
  end.

(** [msg.key] for the four keys the handler reads ([type], [token],
    [chatId], [content]): a [TypeError] on [null], the field of an object,
    [undefined] on anything else. *)
Definition field (msg : json) (key : string) : outcome jsval :=
  match msg with
  | JNull => Throw TypeError
  | JObj fields => Ok (obj_lookup fields key)
  | _ => Ok None
  end.

Definition prop (msg : json) (key : string) : M jsval := lift_outcome (field msg key).

(** [v === 'literal'] *)
Definition strict_eq (v : jsval) (literal : string) : bool :=
  match v with
  | Some (JStr s) => bool_decide (s = literal)
  | _ => false
  end.

(** Truthiness of [userId: string | null]: [null] and [''] are falsy. *)
Definition truthy (u : option string) : bool :=
  match u with
  | Some s => negb (bool_decide (s = ""))
  | None => false
  end.

Definition ready (w : world) (c : nat) : ReadyState :=
  match sockets w !! c with
  | Some s => readyState s
  | None => CLOSED
  end.

Definition ws_send (c : nat) (f : frame) : M unit :=
  modify (λ w, log (Sent c (ready w c) f) w).

(** [ws.close()] starts the closing handshake: an open socket becomes
    CLOSING, and is CLOSED once its close event has fired. *)
Definition closing (s : socket) : socket :=
  match readyState s with
  | OPEN | CONNECTING => mkSocket (userId s) CLOSING
  | _ => s
  end.

Definition ws_close (c : nat) : M unit :=
  modify (λ w, log (CloseCalled c) (set_sockets (alter closing c) w)).

(** The handler's [userId] for connection [c]. *)
Definition identity (w : world) (c : nat) : option string :=
  match sockets w !! c with
  | Some s => userId s
  | None => None
  end.

Definition get_userId (c : nat) : M (option string) := read (λ w, identity w c).

Definition set_userId (c : nat) (u : string) : M unit :=
  modify (set_sockets (alter (λ s, mkSocket (Some u) (readyState s)) c)).

Definition connections_set (k : string) (v : ChatConnection) : M unit :=
  modify (set_connections (insert k v)).

Definition connections_get (k : string) : M (option ChatConnection) :=
  read (λ w, connections w !! k).

Definition connections_delete (k : string) : M unit :=
  modify (set_connections (delete k)).

Definition console_error (err : error) : M unit := modify (log (Logged err)).

(** [chat.buyerId === userId || chat.sellerId === userId] *)
Definition participant (chat : Chat) (uid : string) : bool :=
  bool_decide (buyerId chat = uid) || bool_decide (sellerId chat = uid).

(** [chat.buyerId === userId ? chat.sellerId : chat.buyerId] *)
Definition otherUserId (chat : Chat) (uid : string) : string :=
  if bool_decide (buyerId chat = uid) then sellerId chat else buyerId chat.

(** The same two expressions on the closure variable [userId: string |
    null]: [null] equals no id. *)
Definition participates (chat : Chat) (u : option string) : bool :=
  match u with
  | Some uid => participant chat uid
  | None => false
  end.

Definition recipient (chat : Chat) (u : option string) : string :=
  match u with
  | Some uid => otherUserId chat uid
  | None => buyerId chat
  end.

(** ** The worlds a handler can leave behind *)

(** The [catch] block ran: the error is logged and an error frame sent. *)
Definition reported (err : error) (c : nat) (w : world) : world :=
  log (Sent c (ready w c) (error_frame "Invalid message format")) (log (Logged err) w).

Definition pushed (to : nat) (f : frame) (w : world) : world :=
  log (Sent to (ready w to) f) w.

Definition stored (m : Message) (w : world) : world :=
  log (Inserted m) (set_db (insert_message m) w).

Definition touched (key : option string) (t : Z) (w : world) : world :=
  log (Touched key t) (set_db (touch_chats key t) w).

Definition bound (c : nat) (u : string) (w : world) : world :=
  pushed c (auth_status true)
    (set_connections (insert u (mkChatConnection u c))
       (set_sockets (alter (λ s, mkSocket (Some u) (readyState s)) c) w)).

Definition refused (c : nat) (w : world) : world :=
  log (CloseCalled c) (set_sockets (alter closing c) (pushed c (auth_status false) w)).

(** The push to the other participant, made only to a registered socket
    whose [readyState] is OPEN. *)
Definition forwarded (other : string) (f : frame) (w : world) : world :=
  match connections w !! other with
  | Some oc =>
      if bool_decide (ready w (conn_ws oc) = OPEN) then pushed (conn_ws oc) f w else w
  | None => w
  end.

(** A message handler reaches its first [await]. *)
Definition spawned (h : handler) (w : world) : world :=
  set_handlers (λ hs, hs ++ [h]) w.

(** Handler [k] moves to another [await], or returns. *)
Definition staged (k : nat) (h : handler) (s : stage) (w : world) : world :=
  set_handlers (<[k := at_stage h s]>) w.

Definition retired (k : nat) (h : handler) (w : world) : world := staged k h Returned w.

(** ** The server: handlers of [wss.on('connection', ...)] *)

Section Server.

(** [jwt.verify(token, secret)] of the jsonwebtoken package, with the
    clock it reads for the expiry check: the payload, or [None] where it
    throws.  [JWT_REFRESH_SECRET_env] is [process.env.JWT_REFRESH_SECRET]. *)
Variable jwt_verify : string → string → Z → option JWTPayload.
Variable JWT_REFRESH_SECRET_env : option string.

(** [process.env.JWT_REFRESH_SECRET || 'your-refresh-secret-key'] *)
Definition JWT_REFRESH_SECRET : string :=
  if truthy JWT_REFRESH_SECRET_env
  then default "" JWT_REFRESH_SECRET_env
  else "your-refresh-secret-key".

(** [try { return jwt.verify(token, JWT_REFRESH_SECRET) } catch { return null }];
    a token that is not a string makes [jwt.verify] throw. *)
Definition verifyRefreshToken (e : Env) (token : jsval) : option JWTPayload :=
  match token with
  | Some (JStr t) => jwt_verify t JWT_REFRESH_SECRET (now e)
  | _ => None
  end.

(** The body of [if (message.type === 'auth')]. *)
Definition authenticate (c : nat) (e : Env) (msg : json) : M unit :=
  token ← prop msg "token";
  match verifyRefreshToken e token with
  | Some payload =>
      set_userId c (payload_userId payload);;
      connections_set (payload_userId payload)
                      (mkChatConnection (payload_userId payload) c);;
      ws_send c (auth_status true)
  | None =>
      ws_send c (auth_status false);;
      ws_close c
  end.

(** The body of [if (message.type === 'chat_message' && userId)] up to
    its first [await]: [storage.getChat(chatId)] is called and the handler
    waits. *)
Definition relay (c : nat) (e : Env) (msg : json) : M unit :=
  chat_key ← prop msg "chatId";
  content ← prop msg "content";
  modify (spawned (mkHandler c e chat_key content (AwaitGetChat None))).

(** [ws.on('message', async (data) => { try { ... } catch (error) { ... } })],
    up to the first [await]. *)
Definition on_message (c : nat) (e : Env) (data : option json) : M unit :=
  try_catch
    (msg ← JSON_parse data;
     ty ← prop msg "type";
     when (strict_eq ty "auth") (authenticate c e msg);;
     ty ← prop msg "type";
     u ← get_userId c;
     when (strict_eq ty "chat_message" && truthy u) (relay c e msg))
    (λ err,
      console_error err;;
      ws_send c (error_frame "Invalid message format")).

(** After [await storage.getChat(chatId)]: [userId] is read again for the
    participant test and for [senderId], and [createMessage] is called. *)
Definition relay_found (k : nat) (h : handler) (found : option Chat) : M unit :=
  u ← get_userId (h_ws h);
  match found with
  | Some chat =>
      if participates chat u
      then modify (staged k h (AwaitCreateMessage chat (default "" u) None))
      else modify (retired k h)
  | None => modify (retired k h)
  end.

(** After [await storage.createMessage(...)]: [updateChatLastMessage] is
    called, which reads the clock for [new Date()]. *)
Definition relay_stored (k : nat) (e : Env) (h : handler) (chat : Chat)
    (newMessage : Message) : M unit :=
  modify (staged k h (AwaitUpdateChatLastMessage chat newMessage (now e) None)).

(** After [await storage.updateChatLastMessage(chatId)]: [userId] is read
    once more for [otherUserId], the registry is looked up, and the two
    frames are sent. *)
Definition relay_touched (k : nat) (h : handler) (chat : Chat) (newMessage : Message) :
    M unit :=
  u ← get_userId (h_ws h);
  otherConnection ← connections_get (recipient chat u);
  match otherConnection with
  | Some other =>
      state ← read (λ w, ready w (conn_ws other));
      when (bool_decide (state = OPEN))
           (ws_send (conn_ws other) (new_message newMessage (h_chatId h)))
  | None => mret tt
  end;;
  ws_send (h_ws h) (message_sent newMessage);;
  modify (retired k h).

(** The handler goes on after the [await] it waits at, once the promise
    has settled: with the value, or into the [catch] block. *)
Definition resume (k : nat) (e : Env) (h : handler) : M unit :=
  try_catch
    (match h_stage h with
     | AwaitGetChat (Some r) =>
         found ← lift_outcome r; relay_found k h found
     | AwaitCreateMessage chat _ (Some r) =>
         newMessage ← lift_outcome r; relay_stored k e h chat newMessage
     | AwaitUpdateChatLastMessage chat newMessage _ (Some r) =>
         lift_outcome r;; relay_touched k h chat newMessage
     | _ => mret tt
     end)
    (λ err,
      modify (retired k h);;
      console_error err;;
      ws_send (h_ws h) (error_frame "Invalid message format")).

(** The environment of a query: what the database decides when it runs
    it ([e]), the rendering of the parameters by the driver of the
    handler's frame, and the clock reading the call was made with. *)
Definition during (e : Env) (h : handler) (t : Z) : Env :=
  mkEnv t (db_now e) (gen_random_uuid e) (rejects e) (sql_text (h_env h)).

(** The database runs a storage call and the handler's promise gets its
    outcome. *)
Definition answered {A} (k : nat) (h : handler) (s : option (outcome A) → stage)
    (call : M A) (w : world) : world :=
  staged k h (s (Some (result call w))) (exec call w).

(** The database runs the query handler [k] waits for. *)
Definition run_query (k : nat) (e : Env) (h : handler) : world → world :=
  match h_stage h with
  | AwaitGetChat None =>
      answered k h AwaitGetChat (getChat (during e h (now e)) (h_chatId h))
  | AwaitCreateMessage chat sender None =>
      answered k h (AwaitCreateMessage chat sender)
               (createMessage (during e h (now e)) (h_chatId h) sender (h_content h))
  | AwaitUpdateChatLastMessage chat newMessage t None =>
      answered k h (AwaitUpdateChatLastMessage chat newMessage t)
               (updateChatLastMessage (during e h t) (h_chatId h))
  | _ => id
  end.

(** [ws.on('close', () => { if (userId) connections.delete(userId) })] *)
Definition on_close (c : nat) : M unit :=
  u ← get_userId c;
  when (truthy u) (connections_delete (default "" u)).

(** ** Events of the WebSocket server

    The ws library emits [connection] once per accepted socket, [message]
    for every text frame received while the socket is OPEN or CLOSING (a
    frame can still arrive between [ws.close()] and the peer's answer),
    and [close] once, when the socket becomes CLOSED.  [Query k e] is the
    database running the storage call that handler [k] waits for, and
    [Resume k e] is that handler going on once its promise has settled;
    both can come at any time after the call was made, with any other
    events before and between them. *)
Inductive event :=
| Connection (c : nat)
| Frame (c : nat) (e : Env) (data : option json)
| Close (c : nat)
| Query (k : nat) (e : Env)
| Resume (k : nat) (e : Env).

Definition receiving (rs : ReadyState) : bool :=
  match rs with
  | OPEN | CLOSING => true
  | _ => false
  end.

Definition step (w : world) (ev : event) : world :=
  match ev with
  | Connection c =>
      match sockets w !! c with
      | None => set_sockets (insert c (mkSocket None OPEN)) w
      | Some _ => w
      end
  | Frame c e data =>
      match sockets w !! c with
      | Some s => if receiving (readyState s) then exec (on_message c e data) w else w
      | None => w
      end
  | Close c =>
      match sockets w !! c with
      | Some s =>
          if receiving (readyState s)
          then exec (on_close c)
                    (set_sockets (insert c (mkSocket (userId s) CLOSED)) w)
          else w
      | None => w
      end
  | Query k e =>
      match handlers w !! k with
      | Some h => run_query k e h w
      | None => w
      end
  | Resume k e =>
      match handlers w !! k with
      | Some h => exec (resume k e h) w
      | None => w
      end
  end.

Definition run (w : world) (evs : list event) : world := foldl step w evs.

(** The server right after [registerRoutes]: no connection, an empty
    registry, no handler waiting, and whatever the database holds. *)
Definition boot (d : database) : world := mkWorld ∅ ∅ d [] [].

(** The checks of [POST /api/auth/refresh] on a refresh token, the sibling
    consumer of [verifyRefreshToken]: signature and expiry, then the token's
    row in [auth_tokens], then the user's row. *)
Definition refresh_accepts (e : Env) (token : string) (d : database) : bool :=
  match verifyRefreshToken e (Some (JStr token)) with
  | None => false
  | Some payload =>
      match getAuthToken token d with
      | None => false
      | Some record =>
          if bool_decide (expiresAt record < now e) then false
          else match getUser (payload_userId payload) d with
               | Some user => isActive user
               | None => false
               end
      end
  end.

(** The event is an [auth] frame on connection [c] whose token verifies. *)
Definition authenticates (c : nat) (ev : event) : bool :=
  match ev with
  | Frame c' e (Some (JObj fields)) =>
      bool_decide (c' = c) && strict_eq (obj_lookup fields "type") "auth"
      && match verifyRefreshToken e (obj_lookup fields "token") with
         | Some _ => true
         | None => false
         end
  | _ => false
  end.

(** An event that is not a step of handler [k]: anything but the database
    running the query of [k] and the resumption of [k]. *)
Definition apart (k : nat) (ev : event) : bool :=
  match ev with
  | Query k' _ | Resume k' _ => negb (bool_decide (k' = k))
  | _ => true
  end.

(** ** The cases of the message handler

    [handles c e w data w'] lists, case by case, the world [w'] in which
    the message handler of connection [c] leaves world [w] when a frame
    [data] arrives, up to its first [await]; [on_message_handles] below
    shows the list complete. *)
Inductive handles (c : nat) (e : Env) (w : world) : option json → world → Prop :=
| h_syntax : handles c e w None (reported SyntaxError c w)
| h_null : handles c e w (Some JNull) (reported TypeError c w)
| h_untyped msg ty :
    field msg "type" = Ok ty →
    strict_eq ty "auth" = false →
    strict_eq ty "chat_message" = false →
    handles c e w (Some msg) w
| h_auth_ok fields p :
    obj_lookup fields "type" = Some (JStr "auth") →
    verifyRefreshToken e (obj_lookup fields "token") = Some p →
    handles c e w (Some (JObj fields)) (bound c (payload_userId p) w)
| h_auth_failed fields :
    obj_lookup fields "type" = Some (JStr "auth") →
    verifyRefreshToken e (obj_lookup fields "token") = None →
    handles c e w (Some (JObj fields)) (refused c w)
| h_chat_unauthenticated fields :
    obj_lookup fields "type" = Some (JStr "chat_message") →
    truthy (identity w c) = false →
    handles c e w (Some (JObj fields)) w
| h_chat_waits fields uid :
    obj_lookup fields "type" = Some (JStr "chat_message") →
    identity w c = Some uid → uid ≠ "" →
    handles c e w (Some (JObj fields))
      (spawned (mkHandler c e (obj_lookup fields "chatId") (obj_lookup fields "content")
                          (AwaitGetChat None)) w).

End Server.

(** ** The cases of a query and of a resumption *)

(** The handler waits for the database to run its query. *)
Definition pending (s : stage) : bool :=
  match s with
  | AwaitGetChat None | AwaitCreateMessage _ _ None
  | AwaitUpdateChatLastMessage _ _ _ None => true
  | _ => false
  end.

(** The promise the handler waits for has rejected with [err]. *)
Definition thrown (s : stage) : option error :=
  match s with
  | AwaitGetChat (Some (Throw err)) | AwaitCreateMessage _ _ (Some (Throw err))
  | AwaitUpdateChatLastMessage _ _ _ (Some (Throw err)) => Some err
  | _ => None
  end.

(** [queried k e h w w']: the world [w'] in which the database leaves [w]
    when it runs the query of handler [k], which is [h] in [w]. *)
Inductive queried (k : nat) (e : Env) (h : handler) (w : world) : world → Prop :=
| q_idle :
    pending (h_stage h) = false →
    queried k e h w w
| q_lookup_rejected :
    h_stage h = AwaitGetChat None →
    rejects e OpGetChat = true →
    queried k e h w (staged k h (AwaitGetChat (Some (Throw StorageError))) w)
| q_lookup :
    h_stage h = AwaitGetChat None →
    rejects e OpGetChat = false →
    queried k e h w
      (staged k h (AwaitGetChat
                     (Some (Ok (select_chat (sql_param (h_env h) (h_chatId h))
                                            (chats (db w)))))) w)
| q_insert_rejected chat sender :
    h_stage h = AwaitCreateMessage chat sender None →
    rejects e OpCreateMessage = true ∨ sql_param (h_env h) (h_chatId h) = None
    ∨ sql_param (h_env h) (h_content h) = None →
    queried k e h w (staged k h (AwaitCreateMessage chat sender (Some (Throw StorageError))) w)
| q_insert chat sender id body :
    h_stage h = AwaitCreateMessage chat sender None →
    rejects e OpCreateMessage = false →
    sql_param (h_env h) (h_chatId h) = Some id →
    sql_param (h_env h) (h_content h) = Some body →
    let m := mkMessage (gen_random_uuid e) id sender body false (db_now e) in
    queried k e h w (staged k h (AwaitCreateMessage chat sender (Some (Ok m))) (stored m w))
| q_touch_rejected chat m t :
    h_stage h = AwaitUpdateChatLastMessage chat m t None →
    rejects e OpUpdateChatLastMessage = true →
    queried k e h w
      (staged k h (AwaitUpdateChatLastMessage chat m t (Some (Throw StorageError))) w)
| q_touch chat m t :
    h_stage h = AwaitUpdateChatLastMessage chat m t None →
    rejects e OpUpdateChatLastMessage = false →
    queried k e h w
      (staged k h (AwaitUpdateChatLastMessage chat m t (Some (Ok tt)))
              (touched (sql_param (h_env h) (h_chatId h)) t w)).

(** [resumed k e h w w']: the world [w'] in which handler [k], which is
    [h] in [w], leaves [w] when it goes on after its [await]. *)
Inductive resumed (k : nat) (e : Env) (h : handler) (w : world) : world → Prop :=
| r_idle :
    pending (h_stage h) = true ∨ h_stage h = Returned →
    resumed k e h w w
| r_rejected err :
    thrown (h_stage h) = Some err →
    resumed k e h w (reported err (h_ws h) (retired k h w))
| r_unknown :
    h_stage h = AwaitGetChat (Some (Ok None)) →
    resumed k e h w (retired k h w)
| r_outsider chat :
    h_stage h = AwaitGetChat (Some (Ok (Some chat))) →
    participates chat (identity w (h_ws h)) = false →
    resumed k e h w (retired k h w)
| r_vetted chat uid :
    h_stage h = AwaitGetChat (Some (Ok (Some chat))) →
    identity w (h_ws h) = Some uid →
    participant chat uid = true →
    resumed k e h w (staged k h (AwaitCreateMessage chat uid None) w)
| r_stored chat sender m :
    h_stage h = AwaitCreateMessage chat sender (Some (Ok m)) →
    resumed k e h w (staged k h (AwaitUpdateChatLastMessage chat m (now e) None) w)
| r_relayed chat m t :
    h_stage h = AwaitUpdateChatLastMessage chat m t (Some (Ok tt)) →
    resumed k e h w
      (retired k h
         (pushed (h_ws h) (message_sent m)
            (forwarded (recipient chat (identity w (h_ws h)))
                       (new_message m (h_chatId h)) w))).



(** [w'] is [w] but for where its handlers stand: the same rows, the same
    effects so far, the same sockets and registry. *)
Definition quiet (w w' : world) : Prop :=
  db w' = db w ∧ trace w' = trace w ∧ sockets w' = sockets w ∧
  connections w' = connections w.

(** ** Reading the trace *)

(** The message row a pushed frame carries. *)
Definition carried (f : frame) : option Message :=
  match f with
  | new_message m _ | message_sent m => Some m
  | _ => None
  end.

(** Every frame that carries a message row was sent after that row was
    inserted. *)
Definition ordered (tr : list effect) : Prop :=
  ∀ pre to rs f post m,
    tr = pre ++ Sent to rs f :: post → carried f = Some m → Inserted m ∈ pre.

(** Every registry entry is filed under its own user id and names a
    socket the server has accepted. *)
Definition registry_wf (w : world) : Prop :=
  ∀ u oc, connections w !! u = Some oc →
          conn_userId oc = u ∧ is_Some (sockets w !! conn_ws oc).

(** [new_message] was only ever pushed to sockets that were OPEN. *)
Definition routed_open (tr : list effect) : Prop :=
  ∀ to rs m k, Sent to rs (new_message m k) ∈ tr → rs = OPEN.

(** What the server has added to [w0] by the time it is in [w]: effects
    [suffix] after the trace of [w0], every pushed row inserted before it
    is pushed and stored in the database of [w], every routed push made to
    an OPEN socket, and every row a waiting handler holds inserted. *)
Definition since (w0 w : world) (suffix : list effect) : Prop :=
  trace w = trace w0 ++ suffix ∧ ordered suffix ∧ routed_open suffix ∧
  (∀ m, Inserted m ∈ suffix → m ∈ messages (db w)) ∧
  (∀ k h m, handlers w !! k = Some h → holds (h_stage h) = Some m → Inserted m ∈ suffix).

(** ** Sample data: two users, one conversation, a toy token verifier *)

Definition alice_payload : JWTPayload := mkJWTPayload "alice" "buyer".
Definition bob_payload : JWTPayload := mkJWTPayload "bob" "seller".
Definition carol_payload : JWTPayload := mkJWTPayload "carol" "buyer".

(** Accepts three tokens signed under the default refresh secret, until
    they expire at time 604800000. *)
Definition sample_verify (token secret : string) (clock : Z) : option JWTPayload :=
  if bool_decide (secret = "your-refresh-secret-key") && bool_decide (clock < 604800000)
  then if bool_decide (token = "token-alice") then Some alice_payload
       else if bool_decide (token = "token-bob") then Some bob_payload
       else if bool_decide (token = "token-carol") then Some carol_payload
       else None
  else None.

Definition sample_db : database :=
  mkDatabase [mkChat "chat-1" "alice" "bob" "listing-1" None 10%Z]
             []
             [mkUser "alice" "buyer" true; mkUser "bob" "seller" true;
              mkUser "carol" "buyer" true]
             [mkAuthToken "t1" "alice" "token-alice" 604800000;
              mkAuthToken "t2" "bob" "token-bob" 604800000].

Definition sample_env : Env :=
  mkEnv 1001 1000 "msg-1" (λ _, false) (λ _, None).

Definition failing_env (op : storage_op) : Env :=
  mkEnv 1001 1000 "msg-1"
        (λ o, match op, o with
              | OpGetChat, OpGetChat
              | OpCreateMessage, OpCreateMessage
              | OpUpdateChatLastMessage, OpUpdateChatLastMessage => true
              | _, _ => false
              end)
        (λ _, None).

Definition auth_fields (token : string) : list (string * json) :=
  [("type", JStr "auth"); ("token", JStr token)].

Definition chat_fields (chat_key content : string) : list (string * json) :=
  [("type", JStr "chat_message"); ("chatId", JStr chat_key); ("content", JStr content)].

Definition auth_frame (token : string) : option json := Some (JObj (auth_fields token)).

Definition chat_frame (chat_key content : string) : option json :=
  Some (JObj (chat_fields chat_key content)).

Definition sample_run (evs : list event) : world :=
  run sample_verify None (boot sample_db) evs.

Definition sample_step : world → event → world := step sample_verify None.

Definition sample_from : world → list event → world := run sample_verify None.

Definition sample_handler (c : nat) (e : Env) (data : option json) : world → world :=
  exec (on_message sample_verify None c e data).

(** Connection 1 has authenticated as alice. *)
Definition alice_online : world :=
  sample_run [Connection 1; Frame 1 sample_env (auth_frame "token-alice")].

(** Connection 1 has authenticated as carol, who is in no conversation. *)
Definition carol_online : world :=
  sample_run [Connection 1; Frame 1 sample_env (auth_frame "token-carol")].

(** Connections 1 and 2 have authenticated as alice and bob. *)
Definition both_online : world :=
  sample_run [Connection 1; Frame 1 sample_env (auth_frame "token-alice");
              Connection 2; Frame 2 sample_env (auth_frame "token-bob")].

Definition sample_chat : Chat := mkChat "chat-1" "alice" "bob" "listing-1" None 10.

Definition sample_message : Message :=
  mkMessage "msg-1" "chat-1" "alice" "hello" false 1000.

(** The three storage calls of handler [k] are run by the database and
    settle, one after the other, with nothing else in between. *)
Definition settles (k : nat) (e : Env) : list event :=
  [Query k e; Resume k e; Query k e; Resume k e; Query k e; Resume k e].

From stdpp Require Import sorting pretty.
From Stdlib Require Import Ascii.

Open Scope string_scope.
Open Scope Z_scope.
Open Scope list_scope.

(** * The rest of the server: what the registry and the tables go through *)

(** ** What the WebSocket server leaves alone *)

(** Two conversation rows that differ in [lastMessageAt] at most. *)
Definition same_conversation (a b : Chat) : Prop :=
  chat_id a = chat_id b ∧ buyerId a = buyerId b ∧ sellerId a = sellerId b ∧
  listingId a = listingId b ∧ chat_createdAt a = chat_createdAt b.

(** [d'] keeps every row of [d]: message rows in place with new ones
    after them, user and token rows untouched, conversations changed in
    [lastMessageAt] at most. *)
Definition grows (d d' : database) : Prop :=
  messages d `prefix_of` messages d' ∧ users d' = users d ∧
  authTokens d' = authTokens d ∧ Forall2 same_conversation (chats d) (chats d').

(** Every message row was sent by the buyer or the seller of a
    conversation with the row's [chatId]. *)
Definition posted_by_participants (d : database) : Prop :=
  ∀ m, m ∈ messages d →
       ∃ chat, chat ∈ chats d ∧ chat_id chat = chatId m ∧
               participant chat (senderId m) = true.

(** What a handler that waits has been through, given the tables [d]: the
    conversation it has in hand is a row of the table, the one its frame
    names, and once it waits for its insert its sender was checked to be
    the buyer or the seller of that conversation. *)
Definition vetted_at (d : database) (h : handler) : Prop :=
  match h_stage h with
  | AwaitGetChat (Some (Ok (Some chat))) =>
      sql_param (h_env h) (h_chatId h) = Some (chat_id chat) ∧
      ∃ row, row ∈ chats d ∧ same_conversation chat row
  | AwaitCreateMessage chat sender None =>
      sql_param (h_env h) (h_chatId h) = Some (chat_id chat) ∧
      participant chat sender = true ∧
      ∃ row, row ∈ chats d ∧ same_conversation chat row
  | _ => True
  end.

(** Every handler that waits in [w] has come to where it stands through
    the handler's own checks; so it is when no handler waits. *)
Definition vetted (w : world) : Prop :=
  ∀ k h, handlers w !! k = Some h → vetted_at (db w) h.

(** At most one conversation for a buyer, a seller and a listing. *)
Definition one_chat_per_triple (rows : list Chat) : Prop :=
  ∀ i j a b,
    rows !! i = Some a → rows !! j = Some b →
    buyerId a = buyerId b → sellerId a = sellerId b → listingId a = listingId b →
    i = j.

Section Identities.

Variable jwt_verify : string → string → Z → option JWTPayload.
Variable JWT_REFRESH_SECRET_env : option string.

(** The event is an [auth] frame, on any connection, whose token verifies
    with user id [u] in its payload. *)
Definition authenticates_as (u : string) (ev : event) : bool :=
  match ev with
  | Frame _ e (Some (JObj fields)) =>
      strict_eq (obj_lookup fields "type") "auth"
      && match verifyRefreshToken jwt_verify JWT_REFRESH_SECRET_env e
                 (obj_lookup fields "token") with
         | Some p => bool_decide (payload_userId p = u)
         | None => false
         end
  | _ => false
  end.

End Identities.

(** * The HTTP side of [server/routes.ts]

    The routes that issue and revoke the tokens the WebSocket handler
    verifies, and the routes that create and read the conversations it
    relays into, with [server/middleware/auth.ts], the storage methods
    they call and [server/services/kycService.ts].

    A route is its chain of middleware and its handler, from the moment
    the rate limiters ([apiLimiter], and [authLimiter] on registration and
    login) have let the request through; it is run to completion, its
    awaited calls in program order, and where a route decides on a read
    what it then writes ([POST /api/chats]) the writes of the requests
    served between the two calls are part of its environment
    ([meanwhile]).  The tables carry the constraints of
    [shared/schema.ts] that the routes can run into: primary keys, NOT
    NULL and UNIQUE columns.  Any other reason for a storage promise to
    reject, a foreign key without its row included, is the environment's
    ([fails]). *)

(** ** Rows of the [users] table *)

Inductive KycStatus := kyc_pending | kyc_verified | kyc_rejected.

Global Instance KycStatus_eq_dec : EqDecision KycStatus.
Proof. solve_decision. Defined.

(** [kycDataSchema], once parsed. *)
Record KycData := mkKycData {
  aadhaarNumber : string;
  kyc_name : string;
  dateOfBirth : string;
  address : string;
  documentUrl : option string
}.

(** A row of [users]: the columns of [User] and the rest. *)
Record Account := mkAccount {
  account_user : User;
  email : string;
  phone : option string;
  password : string;
  firstName : string;
  lastName : string;
  kycStatus : KycStatus;
  kycData : option KycData;
  profileImageUrl : option string;
  account_createdAt : Z;
  updatedAt : Z
}.

Definition account_id (a : Account) : string := user_id (account_user a).
Definition account_role (a : Account) : string := user_role (account_user a).
Definition account_active (a : Account) : bool := isActive (account_user a).

(** The tables the modelled routes read and write. *)
Record store := mkStore {
  accounts : list Account;
  chat_rows : list Chat;
  message_rows : list Message;
  token_rows : list AuthToken
}.

(** The same tables as the WebSocket handler sees them. *)
Definition database_of (s : store) : database :=
  mkDatabase (chat_rows s) (message_rows s) (account_user <$> accounts s) (token_rows s).

Definition set_accounts (f : list Account → list Account) (s : store) : store :=
  mkStore (f (accounts s)) (chat_rows s) (message_rows s) (token_rows s).

Definition set_chat_rows (f : list Chat → list Chat) (s : store) : store :=
  mkStore (accounts s) (f (chat_rows s)) (message_rows s) (token_rows s).

Definition set_message_rows (f : list Message → list Message) (s : store) : store :=
  mkStore (accounts s) (chat_rows s) (f (message_rows s)) (token_rows s).

Definition set_token_rows (f : list AuthToken → list AuthToken) (s : store) : store :=
  mkStore (accounts s) (chat_rows s) (message_rows s) (f (token_rows s)).

(** ** Requests, responses and what the environment decides for a request *)

Inductive query :=
| QGetUser | QGetUserByEmail | QGetUserByPhone | QCreateUser | QUpdateUser
| QGetChat | QGetChats | QGetChatByParticipants | QCreateChat | QGetChatMessages
| QCreateAuthToken | QGetAuthToken | QDeleteAuthToken | QDeleteUserTokens.

Record Ctx := mkCtx {
  clock : nat → Z;                   (* successive readings of the server's clock *)
  database_clock : Z;                (* [now()] of the database, for [defaultNow()] *)
  uuid : nat → string;               (* successive [gen_random_uuid()] defaults *)
  salt : string;                     (* the salt [bcrypt.hash] draws *)
  fails : query → bool;              (* the storage promise rejects *)
  driver_text : json → option string; (* as [sql_text] *)
  pick : nat;                        (* which row a SELECT without ORDER BY returns first *)
  meanwhile : store → store          (* what the requests served while this one waits between
                                        two storage calls do to the tables *)
}.

(** The readings of the clock a request takes, in program order. *)
Definition verify_time (x : Ctx) : Z := clock x 0.   (* inside [jwt.verify] *)
Definition check_time (x : Ctx) : Z := clock x 1.    (* [new Date()] compared with [expiresAt] *)
Definition access_time (x : Ctx) : Z := clock x 2.   (* inside [jwt.sign] of the access token *)
Definition refresh_time (x : Ctx) : Z := clock x 3.  (* inside [jwt.sign] of the refresh token *)
Definition expiry_base (x : Ctx) : Z := clock x 4.   (* [Date.now()] of [expiresAt] *)
Definition update_time (x : Ctx) : Z := clock x 5.   (* [new Date()] of [updatedAt] *)

(** The [Env] of a request at its [jwt.verify]. *)
Definition moment (x : Ctx) : Env :=
  mkEnv (verify_time x) (database_clock x) (uuid x 0) (λ _, false) (driver_text x).

Record request := mkRequest {
  authorization : option string;   (* [req.headers.authorization] *)
  param : string;                  (* [req.params.id], [.userId] *)
  req_body : jsval                 (* [req.body] *)
}.

(** [req.user] as [authenticateToken] sets it. *)
Record AuthUser := mkAuthUser {
  auth_id : string;
  auth_email : string;
  auth_role : string
}.

Inductive exn :=
| ZodError                   (* a schema's [parse] threw *)
| QueryError                 (* a storage promise rejected *)
| BodyError                  (* destructuring an absent body *)
| Failure (message : string) (* [throw new Error(message)] *).

(** The [user] object of the register and login responses. *)
Record UserSummary := mkUserSummary {
  summary_id : string;
  summary_email : string;
  summary_firstName : string;
  summary_lastName : string;
  summary_role : string;
  summary_kycStatus : KycStatus
}.

Inductive reply_body :=
| message_body (text : string)                   (* { message } *)
| caught_body (e : exn) (fallback : string)      (* { message: error.message || fallback } *)
| tokens_body (accessToken refresh : string)     (* { accessToken, refreshToken } *)
| session_body (text : string) (user : UserSummary) (accessToken refresh : string)
| chat_body (chat : Chat)
| chats_body (rows : list Chat)
| messages_body (rows : list Message)
| kyc_body (status : KycStatus) (text : string)  (* { status, message } *)
| kyc_reason_body (status : KycStatus) (reason : jsval) (* { status, message: reason } *)
| kyc_status_body (status : KycStatus) (data : option KycData).

Record response := mkResponse {
  status : nat;
  payload : reply_body
}.

(** ** The monad of a route: continue, reply, or throw *)

Inductive progress (A : Type) :=
| Next (a : A)
| Reply (r : response)
| Raise (e : exn).
Arguments Next {A} a.
Arguments Reply {A} r.
Arguments Raise {A} e.

Definition Route (A : Type) : Type := store → progress A * store.

Global Instance Route_ret : MRet Route := λ A a s, (Next a, s).
Global Instance Route_bind : MBind Route := λ A B f m s,
  match m s with
  | (Next a, s') => f a s'
  | (Reply r, s') => (Reply r, s')
  | (Raise e, s') => (Raise e, s')
  end.

(** [return res.status(code).json(payload)] *)
Definition respond {A} (code : nat) (b : reply_body) : Route A := λ s, (Reply (mkResponse code b), s).
Definition raise {A} (e : exn) : Route A := λ s, (Raise e, s).
Definition look {A} (f : store → A) : Route A := λ s, (Next (f s), s).
Definition change (f : store → store) : Route unit := λ s, (Next tt, f s).

(** [try { block } catch (error) { res.status(code).json({ message: ... }) }] *)
Definition guarded (block : Route unit) (code : nat) (b : exn → reply_body) : Route unit := λ s,
  match block s with
  | (Raise e, s') => (Reply (mkResponse code (b e)), s')
  | other => other
  end.

(** What the client gets: a response, or none because a middleware's
    promise rejected outside any [try]. *)
Inductive answer :=
| Answered (r : response)
| Unanswered (e : exn)
| Unfinished.

Definition serve (route : Route unit) (s : store) : answer * store :=
  match route s with
  | (Reply r, s') => (Answered r, s')
  | (Raise e, s') => (Unanswered e, s')
  | (Next _, s') => (Unfinished, s')
  end.

(** [await storage.method(...)]: rejects when the environment says so. *)
Definition query_of {A} (x : Ctx) (q : query) (m : Route A) : Route A :=
  if fails x q then raise QueryError else m.

(** ** Storage: reads, updates and deletes of [DatabaseStorage] on the tables *)

(** [ORDER BY created_at]: oldest first. *)
Definition earlier (a b : Message) : Prop := createdAt a ≤ createdAt b.

Global Instance earlier_dec a b : Decision (earlier a b).
Proof. unfold earlier. apply _. Defined.

(** [ORDER BY last_message_at DESC]: latest first, and a conversation
    without any message (NULL) before all others, as the database sorts
    NULL in descending order. *)
Definition later (a b : Chat) : Prop :=
  match lastMessageAt a, lastMessageAt b with
  | None, _ => True
  | Some _, None => False
  | Some ta, Some tb => tb ≤ ta
  end.

Global Instance later_dec a b : Decision (later a b).
Proof. unfold later. destruct (lastMessageAt a), (lastMessageAt b); apply _. Defined.

Module Storage.

Definition getUser (id : string) (s : store) : option Account :=
  List.find (λ a, bool_decide (account_id a = id)) (accounts s).

Definition getUserByEmail (address : string) (s : store) : option Account :=
  List.find (λ a, bool_decide (email a = address)) (accounts s).

Definition getUserByPhone (number : string) (s : store) : option Account :=
  List.find (λ a, bool_decide (phone a = Some number)) (accounts s).

Definition getChat (id : option string) (s : store) : option Chat :=
  select_chat id (chat_rows s).

(** [sql`buyer_id = userId OR seller_id = userId`] ordered by
    [desc(lastMessageAt)]. *)
Definition getChats (user : string) (s : store) : list Chat :=
  merge_sort later
    (List.filter (λ row, bool_decide (buyerId row = user) || bool_decide (sellerId row = user))
                 (chat_rows s)).

(** The rows of [where(and(eq(buyerId), eq(sellerId), eq(listingId)))]. *)
Definition chatsByParticipants (buyer seller listing : string) (s : store) : list Chat :=
  List.filter (λ row, bool_decide (buyerId row = buyer) && bool_decide (sellerId row = seller)
                      && bool_decide (listingId row = listing))
              (chat_rows s).

(** [const [chat] = await db.select().from(chats).where(...)]: the first
    row of the result.  The statement has no ORDER BY and the table no
    unique index on the three columns, so when several rows match, which
    of them comes first is the database's choice ([choice]). *)
Definition getChatByParticipants (choice : nat) (buyer : string)
    (seller listing : option string) (s : store) : option Chat :=
  match seller, listing with
  | Some sl, Some l =>
      let rows := chatsByParticipants buyer sl l s in
      rows !! (choice mod length rows)%nat
  | _, _ => None
  end.

(** The rows of the conversation, ordered by [createdAt]. *)
Definition getChatMessages (chat : string) (s : store) : list Message :=
  merge_sort earlier (List.filter (λ m, bool_decide (chatId m = chat)) (message_rows s)).

(** [set({ isRead: true }).where(and(eq(chatId, chatId), eq(senderId, userId)))] *)
Definition markMessagesAsRead (chat user : string) (s : store) : store :=
  set_message_rows
    (fmap (λ m, if bool_decide (chatId m = chat) && bool_decide (senderId m = user)
                then mkMessage (message_id m) (chatId m) (senderId m) (message m) true
                               (createdAt m)
                else m))
    s.

Definition getAuthToken (token : string) (s : store) : option AuthToken :=
  List.find (λ row, bool_decide (refreshToken row = token)) (token_rows s).

Definition deleteAuthToken (token : option string) (s : store) : store :=
  set_token_rows
    (List.filter (λ row, negb (bool_decide (Some (refreshToken row) = token))))
    s.

Definition deleteUserTokens (user : string) (s : store) : store :=
  set_token_rows (List.filter (λ row, negb (bool_decide (token_userId row = user)))) s.

End Storage.

(** ** Text *)

(** [s.split(sep)] for a one-character separator. *)
Fixpoint split_on (sep : ascii) (s : string) : list string :=
  match s with
  | EmptyString => [EmptyString]
  | String a rest =>
      if bool_decide (a = sep) then EmptyString :: split_on sep rest
      else match split_on sep rest with
           | piece :: pieces => String a piece :: pieces
           | [] => [String a EmptyString]
           end
  end.

Fixpoint contains_char (a : ascii) (s : string) : bool :=
  match s with
  | EmptyString => false
  | String b rest => bool_decide (b = a) || contains_char a rest
  end.

(** [/^\d{12}$/] *)
Definition is_digit (a : ascii) : bool :=
  (48 <=? nat_of_ascii a)%nat && (nat_of_ascii a <=? 57)%nat.

Fixpoint all_chars (p : ascii → bool) (s : string) : bool :=
  match s with
  | EmptyString => true
  | String a rest => p a && all_chars p rest
  end.

Definition twelve_digits (s : string) : bool :=
  (String.length s =? 12)%nat && all_chars is_digit s.

(** Truthiness of a value read from a JSON body. *)
Definition js_truthy (v : jsval) : bool :=
  match v with
  | None | Some JNull => false
  | Some (JBool b) => b
  | Some (JNum n) => negb (n =? 0)
  | Some (JStr s) => negb (bool_decide (s = ""))
  | Some (JArr _) | Some (JObj _) => true
  end.

(** [z.string()] on a field. *)
Definition z_string (v : jsval) : option string :=
  match v with
  | Some (JStr s) => Some s
  | _ => None
  end.

(** [const { key } = req.body] *)
Definition body_field (req : request) (key : string) : Route jsval :=
  match req_body req with
  | None => raise BodyError
  | Some v =>
      match field v key with
      | Ok r => mret r
      | Throw _ => raise BodyError
      end
  end.

(** [simulateDigiLockerVerification]: "For MVP, we'll approve all valid
    submissions". *)
Definition simulateDigiLockerVerification (data : KycData) : bool := true.

(** ** Middleware, token issue and the routes *)

Section Routes.

(** [jwt.verify] and [jwt.sign] of jsonwebtoken ([sign] with its payload,
    secret, [expiresIn] and the clock it reads), [bcrypt.hash] with the
    salt it draws and [bcrypt.compare], the length of a text as
    JavaScript counts it, and zod's [email()] and [url()] checks. *)
Variable jwt_verify : string → string → Z → option JWTPayload.
Variable jwt_sign : JWTPayload → string → string → Z → string.
Variable JWT_SECRET_env JWT_REFRESH_SECRET_env : option string.
Variable bcrypt_hash : string → string → string.
Variable bcrypt_compare : string → string → bool.
Variable js_length : string → nat.
Variable is_email is_url : string → bool.

(** [process.env.JWT_SECRET || 'your-secret-key'] *)
Definition JWT_SECRET : string :=
  if truthy JWT_SECRET_env then default "" JWT_SECRET_env else "your-secret-key".

(** [try { return jwt.verify(token, JWT_SECRET) } catch { return null }] *)
Definition verifyToken (x : Ctx) (token : string) : option JWTPayload :=
  jwt_verify token JWT_SECRET (verify_time x).

(** [z.string().min(n)] *)
Definition z_min (n : nat) (s : string) : bool := bool_decide (n ≤ js_length s)%nat.

(** [authHeader && authHeader.split(' ')[1]] *)
Definition bearer (header : option string) : option string :=
  match header with
  | None => None
  | Some h => if bool_decide (h = "") then Some "" else split_on " " h !! 1%nat
  end.

Definition authenticateToken (x : Ctx) (req : request) : Route AuthUser :=
  let token := bearer (authorization req) in
  if negb (truthy token) then respond 401 (message_body "Access token required")
  else match verifyToken x (default "" token) with
       | None => respond 401 (message_body "Invalid or expired token")
       | Some payload =>
           user ← query_of x QGetUser (look (Storage.getUser (payload_userId payload)));
           match user with
           | Some u =>
               if account_active u
               then mret (mkAuthUser (account_id u) (email u) (account_role u))
               else respond 401 (message_body "User not found or inactive")
           | None => respond 401 (message_body "User not found or inactive")
           end
       end.

(** [requireRole(...roles)], after [authenticateToken] has set [req.user]. *)
Definition requireRole (roles : list string) (user : option AuthUser) : Route unit :=
  match user with
  | None => respond 401 (message_body "Authentication required")
  | Some u =>
      if bool_decide (auth_role u ∈ roles) then mret tt
      else respond 403 (message_body "Insufficient permissions")
  end.

(** *** Inserts: primary keys and UNIQUE columns reject duplicates *)

Definition createAuthToken (x : Ctx) (user token : string) (expires : Z) : Route AuthToken :=
  query_of x QCreateAuthToken
    (rows ← look token_rows;
     if existsb (λ row, bool_decide (token_id row = uuid x 1)
                        || bool_decide (refreshToken row = token)) rows
     then raise QueryError
     else let row := mkAuthToken (uuid x 1) user token expires in
          change (set_token_rows (λ rows, rows ++ [row]));;
          mret row).

Definition createChat (x : Ctx) (buyer : string) (seller listing : jsval) : Route Chat :=
  query_of x QCreateChat
    (rows ← look chat_rows;
     match sql_param (moment x) seller, sql_param (moment x) listing with
     | Some sl, Some l =>
         if existsb (λ row, bool_decide (chat_id row = uuid x 0)) rows
         then raise QueryError
         else let row := mkChat (uuid x 0) buyer sl l None (database_clock x) in
              change (set_chat_rows (λ rows, rows ++ [row]));;
              mret row
     | _, _ => raise QueryError
     end).

(** [createUser({ ...data, password: hashedPassword })]: [id],
    [kycStatus], [isActive] and the timestamps take their defaults. *)
Definition createUser (x : Ctx) (address number hashed first last role : string) :
    Route Account :=
  query_of x QCreateUser
    (rows ← look accounts;
     if existsb (λ a, bool_decide (account_id a = uuid x 0)
                      || bool_decide (email a = address)
                      || bool_decide (phone a = Some number)) rows
     then raise QueryError
     else let row := mkAccount (mkUser (uuid x 0) role true) address (Some number) hashed
                               first last kyc_pending None None
                               (database_clock x) (database_clock x) in
          change (set_accounts (λ rows, rows ++ [row]));;
          mret row).

(** [updateUser(id, { kycStatus, kycData? })]: the two calls of the KYC
    service; [updatedAt] is set to [new Date()]. *)
Definition set_kyc (st : KycStatus) (data : option (option KycData)) (t : Z)
    (a : Account) : Account :=
  mkAccount (account_user a) (email a) (phone a) (password a) (firstName a) (lastName a)
            st (default (kycData a) data) (profileImageUrl a) (account_createdAt a) t.

Definition updateUser (x : Ctx) (id : string) (st : KycStatus)
    (data : option (option KycData)) : Route unit :=
  query_of x QUpdateUser
    (change (set_accounts
       (fmap (λ a, if bool_decide (account_id a = id)
                   then set_kyc st data (update_time x) a
                   else a)))).

(** [generateTokens(userId, role)]: the two tokens it signs, the row it
    stores for the refresh token, and the pair it returns. *)
Definition issued_accessToken (x : Ctx) (user role : string) : string :=
  jwt_sign (mkJWTPayload user role) JWT_SECRET "15m" (access_time x).

Definition issued_refreshToken (x : Ctx) (user role : string) : string :=
  jwt_sign (mkJWTPayload user role) (JWT_REFRESH_SECRET JWT_REFRESH_SECRET_env) "7d"
           (refresh_time x).

Definition issued_row (x : Ctx) (user role : string) : AuthToken :=
  mkAuthToken (uuid x 1) user (issued_refreshToken x user role)
              (expiry_base x + 7 * 24 * 60 * 60 * 1000).

Definition generateTokens (x : Ctx) (user role : string) : Route (string * string) :=
  createAuthToken x user (issued_refreshToken x user role)
                  (expiry_base x + 7 * 24 * 60 * 60 * 1000);;
  mret (issued_accessToken x user role, issued_refreshToken x user role).

Definition summary (a : Account) : UserSummary :=
  mkUserSummary (account_id a) (email a) (firstName a) (lastName a) (account_role a)
                (kycStatus a).

(** *** Schemas *)

(** [loginSchema.parse(req.body)]: identifier and password. *)
Definition parse_login (b : jsval) : option (string * string) :=
  match b with
  | Some (JObj fields) =>
      match z_string (obj_lookup fields "identifier"),
            z_string (obj_lookup fields "password") with
      | Some identifier, Some pw =>
          if z_min 1 identifier && z_min 6 pw then Some (identifier, pw) else None
      | _, _ => None
      end
  | _ => None
  end.

(** [z.enum(['seller', 'buyer']).default('buyer')] *)
Definition parse_role (v : jsval) : option string :=
  match v with
  | None => Some "buyer"
  | Some (JStr s) =>
      if bool_decide (s = "seller") || bool_decide (s = "buyer") then Some s else None
  | _ => None
  end.

Record RegisterRequest := mkRegisterRequest {
  reg_email : string;
  reg_phone : string;
  reg_password : string;
  reg_firstName : string;
  reg_lastName : string;
  reg_role : string
}.

(** [registerSchema.parse(req.body)] *)
Definition parse_register (b : jsval) : option RegisterRequest :=
  match b with
  | Some (JObj fields) =>
      match z_string (obj_lookup fields "email"), z_string (obj_lookup fields "phone"),
            z_string (obj_lookup fields "password"),
            z_string (obj_lookup fields "firstName"),
            z_string (obj_lookup fields "lastName"),
            parse_role (obj_lookup fields "role") with
      | Some e, Some ph, Some pw, Some fn, Some ln, Some r =>
          if is_email e && z_min 10 ph && z_min 6 pw && z_min 1 fn && z_min 1 ln
          then Some (mkRegisterRequest e ph pw fn ln r)
          else None
      | _, _, _, _, _, _ => None
      end
  | _ => None
  end.

(** [refreshTokenSchema.parse(req.body)] *)
Definition parse_refresh (b : jsval) : option string :=
  match b with
  | Some (JObj fields) =>
      match z_string (obj_lookup fields "refreshToken") with
      | Some t => if z_min 1 t then Some t else None
      | None => None
      end
  | _ => None
  end.

(** [kycDataSchema.parse(kycData)] *)
Definition parse_kyc (b : jsval) : option KycData :=
  match b with
  | Some (JObj fields) =>
      match z_string (obj_lookup fields "aadhaarNumber"),
            z_string (obj_lookup fields "name"),
            z_string (obj_lookup fields "dateOfBirth"),
            z_string (obj_lookup fields "address") with
      | Some aadhaar, Some nm, Some dob, Some addr =>
          if twelve_digits aadhaar && z_min 1 nm && z_min 1 dob && z_min 1 addr
          then match obj_lookup fields "documentUrl" with
               | None => Some (mkKycData aadhaar nm dob addr None)
               | Some (JStr url) =>
                   if is_url url then Some (mkKycData aadhaar nm dob addr (Some url))
                   else None
               | Some _ => None
               end
          else None
      | _, _, _, _ => None
      end
  | _ => None
  end.

Definition parsed {A} (o : option A) : Route A :=
  match o with
  | Some a => mret a
  | None => raise ZodError
  end.

(** *** [POST /api/auth/register] *)
Definition register (x : Ctx) (req : request) : Route unit :=
  guarded
    (data ← parsed (parse_register (req_body req));
     existingUser ← query_of x QGetUserByEmail (look (Storage.getUserByEmail (reg_email data)));
     match existingUser with
     | Some _ => respond 400 (message_body "User already exists with this email")
     | None =>
         existingPhone ← query_of x QGetUserByPhone
                           (look (Storage.getUserByPhone (reg_phone data)));
         match existingPhone with
         | Some _ => respond 400 (message_body "User already exists with this phone number")
         | None =>
             let hashedPassword := bcrypt_hash (reg_password data) (salt x) in
             user ← createUser x (reg_email data) (reg_phone data) hashedPassword
                               (reg_firstName data) (reg_lastName data) (reg_role data);
             tokens ← generateTokens x (account_id user) (account_role user);
             respond 201 (session_body "User registered successfully" (summary user)
                                       tokens.1 tokens.2)
         end
     end)
    400 (λ e, caught_body e "Registration failed").

(** *** [POST /api/auth/login] *)
Definition login (x : Ctx) (req : request) : Route unit :=
  guarded
    (data ← parsed (parse_login (req_body req));
     byEmail ← query_of x QGetUserByEmail (look (Storage.getUserByEmail data.1));
     user ← match byEmail with
            | Some u => mret (Some u)
            | None => query_of x QGetUserByPhone (look (Storage.getUserByPhone data.1))
            end;
     match user with
     | None => respond 401 (message_body "Invalid credentials")
     | Some u =>
         if negb (account_active u)
         then respond 401 (message_body "Account is deactivated")
         else if negb (bcrypt_compare data.2 (password u))
         then respond 401 (message_body "Invalid credentials")
         else tokens ← generateTokens x (account_id u) (account_role u);
              respond 200 (session_body "Login successful" (summary u) tokens.1 tokens.2)
     end)
    400 (λ e, caught_body e "Login failed").

(** *** [POST /api/auth/refresh] *)
Definition refresh (x : Ctx) (req : request) : Route unit :=
  guarded
    (token ← parsed (parse_refresh (req_body req));
     match verifyRefreshToken jwt_verify JWT_REFRESH_SECRET_env (moment x)
                              (Some (JStr token)) with
     | None => respond 401 (message_body "Invalid refresh token")
     | Some payload =>
         tokenRecord ← query_of x QGetAuthToken (look (Storage.getAuthToken token));
         let stale := match tokenRecord with
                      | Some row => bool_decide (expiresAt row < check_time x)
                      | None => true
                      end in
         if stale
         then query_of x QDeleteAuthToken (change (Storage.deleteAuthToken (Some token)));;
              respond 401 (message_body "Refresh token expired")
         else
           user ← query_of x QGetUser (look (Storage.getUser (payload_userId payload)));
           match user with
           | Some u =>
               if account_active u
               then query_of x QDeleteAuthToken
                             (change (Storage.deleteAuthToken (Some token)));;
                    tokens ← generateTokens x (account_id u) (account_role u);
                    respond 200 (tokens_body tokens.1 tokens.2)
               else respond 401 (message_body "User not found or inactive")
           | None => respond 401 (message_body "User not found or inactive")
           end
     end)
    400 (λ e, caught_body e "Token refresh failed").

(** *** [POST /api/auth/logout] *)
Definition logout (x : Ctx) (req : request) : Route unit :=
  user ← authenticateToken x req;
  guarded
    (refreshToken ← body_field req "refreshToken";
     (if js_truthy refreshToken
      then query_of x QDeleteAuthToken
                    (change (Storage.deleteAuthToken (sql_param (moment x) refreshToken)))
      else query_of x QDeleteUserTokens (change (Storage.deleteUserTokens (auth_id user))));;
     respond 200 (message_body "Logged out successfully"))
    500 (λ _, message_body "Logout failed").

(** *** [GET /api/chats] *)
Definition get_chats (x : Ctx) (req : request) : Route unit :=
  user ← authenticateToken x req;
  guarded
    (rows ← query_of x QGetChats (look (Storage.getChats (auth_id user)));
     respond 200 (chats_body rows))
    500 (λ _, message_body "Failed to get chats").

(** *** [POST /api/chats]

    The lookup and the insert are two statements, awaited one after the
    other outside any transaction: the requests the server handles while
    this one waits for the answer of its lookup have their writes in the
    table ([meanwhile]) by the time the insert runs. *)
Definition post_chats (x : Ctx) (req : request) : Route unit :=
  user ← authenticateToken x req;
  guarded
    (sellerId ← body_field req "sellerId";
     listingId ← body_field req "listingId";
     existingChat ← query_of x QGetChatByParticipants
                      (look (Storage.getChatByParticipants (pick x) (auth_id user)
                               (sql_param (moment x) sellerId)
                               (sql_param (moment x) listingId)));
     match existingChat with
     | Some chat => respond 200 (chat_body chat)
     | None =>
         change (meanwhile x);;
         chat ← createChat x (auth_id user) sellerId listingId;
         respond 201 (chat_body chat)
     end)
    400 (λ e, caught_body e "Failed to create chat").

(** *** [GET /api/chats/:id/messages] *)
Definition get_chat_messages (x : Ctx) (req : request) : Route unit :=
  user ← authenticateToken x req;
  guarded
    (chat ← query_of x QGetChat (look (Storage.getChat (Some (param req))));
     match chat with
     | None => respond 404 (message_body "Chat not found")
     | Some row =>
         if negb (bool_decide (buyerId row = auth_id user))
            && negb (bool_decide (sellerId row = auth_id user))
         then respond 403 (message_body "Not authorized to view this chat")
         else rows ← query_of x QGetChatMessages (look (Storage.getChatMessages (param req)));
              respond 200 (messages_body rows)
     end)
    500 (λ _, message_body "Failed to get messages").

(** *** [KycService] *)

Definition submitKycVerification (x : Ctx) (user : string) (data : jsval) :
    Route (KycStatus * string) :=
  validatedData ← parsed (parse_kyc data);
  if simulateDigiLockerVerification validatedData
  then updateUser x user kyc_verified (Some (Some validatedData));;
       mret (kyc_verified, "KYC verification successful")
  else updateUser x user kyc_rejected (Some (Some validatedData));;
       mret (kyc_rejected, "KYC verification failed").

Definition getKycStatus (x : Ctx) (user : string) : Route (KycStatus * option KycData) :=
  found ← query_of x QGetUser (look (Storage.getUser user));
  match found with
  | None => raise (Failure "User not found")
  | Some a => mret (kycStatus a, kycData a)
  end.

Definition require_admin (x : Ctx) (adminId : string) : Route unit :=
  admin ← query_of x QGetUser (look (Storage.getUser adminId));
  match admin with
  | Some a =>
      if bool_decide (account_role a = "admin") then mret tt
      else raise (Failure "Unauthorized: Admin access required")
  | None => raise (Failure "Unauthorized: Admin access required")
  end.

Definition approveKycManually (x : Ctx) (user adminId : string) : Route (KycStatus * string) :=
  require_admin x adminId;;
  updateUser x user kyc_verified None;;
  mret (kyc_verified, "KYC approved by admin").

Definition rejectKycManually (x : Ctx) (user adminId : string) (reason : jsval) :
    Route (KycStatus * jsval) :=
  require_admin x adminId;;
  updateUser x user kyc_rejected None;;
  mret (kyc_rejected, reason).

(** *** [POST /api/kyc/submit], [GET /api/kyc/status] and the admin's
    [PUT /api/admin/kyc/:userId/approve] and [.../reject] *)
Definition kyc_submit (x : Ctx) (req : request) : Route unit :=
  user ← authenticateToken x req;
  guarded
    (result ← submitKycVerification x (auth_id user) (req_body req);
     respond 200 (kyc_body result.1 result.2))
    400 (λ e, caught_body e "KYC submission failed").

Definition kyc_status (x : Ctx) (req : request) : Route unit :=
  user ← authenticateToken x req;
  guarded
    (result ← getKycStatus x (auth_id user);
     respond 200 (kyc_status_body result.1 result.2))
    500 (λ _, message_body "Failed to get KYC status").

Definition kyc_approve (x : Ctx) (req : request) : Route unit :=
  user ← authenticateToken x req;
  requireRole ["admin"] (Some user);;
  guarded
    (result ← approveKycManually x (param req) (auth_id user);
     respond 200 (kyc_body result.1 result.2))
    400 (λ e, caught_body e "Failed to approve KYC").

Definition kyc_reject (x : Ctx) (req : request) : Route unit :=
  user ← authenticateToken x req;
  requireRole ["admin"] (Some user);;
  guarded
    (reason ← body_field req "reason";
     result ← rejectKycManually x (param req) (auth_id user) reason;
     respond 200 (kyc_reason_body result.1 result.2))
    400 (λ e, caught_body e "Failed to reject KYC").

(** The routes registered behind [authenticateToken]. *)
Definition protected_routes : list (Ctx → request → Route unit) :=
  [logout; get_chats; post_chats; get_chat_messages;
   kyc_submit; kyc_status; kyc_approve; kyc_reject].

End Routes.

(** ** The client: [client/src/lib/authUtils.ts] and [queryClient.ts]

    The browser's [localStorage] is a map from keys to texts.  A response
    carries its status, its status text, the text of its body and what
    [json()] makes of the body ([None] when it rejects).  What the network
    answers to the requests of one call is the environment's: [network n
    rq] is the response to the request [rq] sent as the [n]-th of the
    call, [None] when [fetch] rejects. *)

Module Client.

Record Response := mkClientResponse {
  res_status : nat;
  res_statusText : string;
  res_text : string;
  res_json : option json
}.

(** [res.ok] *)
Definition ok (res : Response) : bool :=
  (200 <=? res_status res)%nat && (res_status res <=? 299)%nat.

Record Fetch := mkFetch {
  fetch_url : string;
  fetch_method : string;
  fetch_headers : list (string * string);
  fetch_body : option json     (* the value that [JSON.stringify] serialises *)
}.

Inductive failure :=
| HttpError (message : string)    (* [new Error(`${res.status}: ${text}`)] *)
| FetchRejected                   (* [fetch] rejected *)
| BodyRejected                    (* [json()] rejected *)
| NullRead.                       (* a property read on [null] *)

Inductive settled (A : Type) :=
| Resolved (a : A)
| Rejected (e : failure).
Arguments Resolved {A} a.
Arguments Rejected {A} e.

Record browser := mkBrowser {
  localStorage : gmap string string;
  sent : list Fetch;              (* the requests handed to [fetch], in order *)
  console : list failure          (* what [console.error] was given *)
}.

Definition getItem (key : string) (b : browser) : option string := localStorage b !! key.

Definition setItem (key value : string) (b : browser) : browser :=
  mkBrowser (<[key := value]> (localStorage b)) (sent b) (console b).

Definition removeItem (key : string) (b : browser) : browser :=
  mkBrowser (delete key (localStorage b)) (sent b) (console b).

Definition send (rq : Fetch) (b : browser) : browser :=
  mkBrowser (localStorage b) (sent b ++ [rq]) (console b).

Definition console_error (e : failure) (b : browser) : browser :=
  mkBrowser (localStorage b) (sent b) (console b ++ [e]).

(** [s.startsWith(p)] *)
Fixpoint starts_with (p s : string) : bool :=
  match p, s with
  | EmptyString, _ => true
  | String a p', String b s' => bool_decide (a = b) && starts_with p' s'
  | String _ _, EmptyString => false
  end.

(** [s.includes(needle)] *)
Fixpoint includes (needle s : string) : bool :=
  starts_with needle s ||
  match s with
  | EmptyString => false
  | String _ rest => includes needle rest
  end.

(** [/^401: .*/.test(error.message) || error.message.includes('Unauthorized')]:
    [.*] also matches the empty text, so the pattern asks for the prefix. *)
Definition isUnauthorizedError (message : string) : bool :=
  starts_with "401: " message || includes "Unauthorized" message.

(** [token ? { Authorization: `Bearer ${token}` } : {}] *)
Definition authorization_of (token : option string) : list (string * string) :=
  if truthy token then [("Authorization", "Bearer " +:+ default "" token)] else [].

Definition getAuthHeaders (b : browser) : list (string * string) :=
  authorization_of (getItem "accessToken" b).

Definition setAuthTokens (access refreshing : string) (b : browser) : browser :=
  setItem "refreshToken" refreshing (setItem "accessToken" access b).

Definition clearAuthTokens (b : browser) : browser :=
  removeItem "refreshToken" (removeItem "accessToken" b).

Definition getRefreshToken (b : browser) : option string := getItem "refreshToken" b.

(** [throwIfResNotOk] *)
Definition throwIfResNotOk (res : Response) : settled unit :=
  if ok res then Resolved tt
  else let text := if bool_decide (res_text res = "") then res_statusText res
                   else res_text res in
       Rejected (HttpError (pretty (res_status res) +:+ ": " +:+ text)).

Section Requests.

(** The network, and the text JavaScript makes of a value that is
    neither a string, [undefined], [null] nor a boolean. *)
Variable network : nat → Fetch → option Response.
Variable text_of : json → string.

(** [String(v)], as [localStorage.setItem] and a template literal apply it. *)
Definition js_String (v : jsval) : string :=
  match v with
  | None => "undefined"
  | Some (JStr s) => s
  | Some JNull => "null"
  | Some (JBool true) => "true"
  | Some (JBool false) => "false"
  | Some j => text_of j
  end.

(** [...(data ? { "Content-Type": "application/json" } : {})] *)
Definition content_type (data : jsval) : list (string * string) :=
  if js_truthy data then [("Content-Type", "application/json")] else [].

(** [body: data ? JSON.stringify(data) : undefined] *)
Definition body_of (data : jsval) : option json := if js_truthy data then data else None.

(** The [try] block of [apiRequest]: [Some] is the value the function
    returns from inside the block, [None] is leaving the block, by its end
    or through its [catch].  The retry is returned without [await], so its
    rejection is not caught. *)
Definition refresh_and_retry (method url : string) (data : jsval) (refreshToken : string)
    (b : browser) : option (settled Response) * browser :=
  let rq := mkFetch "/api/auth/refresh" "POST" [("Content-Type", "application/json")]
                    (Some (JObj [("refreshToken", JStr refreshToken)])) in
  let b := send rq b in
  match network 1 rq with
  | None => (None, console_error FetchRejected b)
  | Some refreshRes =>
      if ok refreshRes
      then match res_json refreshRes with
           | None => (None, console_error BodyRejected b)
           | Some tokens =>
               match field tokens "accessToken", field tokens "refreshToken" with
               | Ok access, Ok refreshing =>
                   let b := setItem "accessToken" (js_String access) b in
                   let b := setItem "refreshToken" (js_String refreshing) b in
                   let retry :=
                     mkFetch url method
                             (content_type data ++
                              [("Authorization", "Bearer " +:+ js_String access)])
                             (body_of data) in
                   (Some (match network 2 retry with
                          | Some res => Resolved res
                          | None => Rejected FetchRejected
                          end),
                    send retry b)
               | _, _ => (None, console_error NullRead b)
               end
           end
      else (None, b)
  end.

Definition apiRequest (method url : string) (data : jsval) (b : browser) :
    settled Response * browser :=
  let token := getItem "accessToken" b in
  let rq := mkFetch url method (content_type data ++ authorization_of token) (body_of data) in
  let b := send rq b in
  match network 0 rq with
  | None => (Rejected FetchRejected, b)
  | Some res =>
      let '(returned, b) :=
        if bool_decide (res_status res = 401%nat) && truthy token
        then let '(returned, b) :=
               let refreshToken := getItem "refreshToken" b in
               if truthy refreshToken
               then refresh_and_retry method url data (default "" refreshToken) b
               else (None, b) in
             match returned with
             | Some r => (Some r, b)
             | None => (None, removeItem "refreshToken" (removeItem "accessToken" b))
             end
        else (None, b) in
      match returned with
      | Some r => (r, b)
      | None =>
          match throwIfResNotOk res with
          | Rejected e => (Rejected e, b)
          | Resolved _ => (Resolved res, b)
          end
      end
  end.

Inductive UnauthorizedBehavior := returnNull | throw.

(** [getQueryFn({ on401 })({ queryKey })]; [null] is [JNull]. *)
Definition getQueryFn (on401 : UnauthorizedBehavior) (queryKey : list string) (b : browser) :
    settled json * browser :=
  let token := getItem "accessToken" b in
  let rq := mkFetch (String.concat "/" queryKey) "GET" (authorization_of token) None in
  let b := send rq b in
  match network 0 rq with
  | None => (Rejected FetchRejected, b)
  | Some res =>
      if match on401 with returnNull => bool_decide (res_status res = 401%nat) | throw => false end
      then (Resolved JNull, b)
      else match throwIfResNotOk res with
           | Rejected e => (Rejected e, b)
           | Resolved _ =>
               match res_json res with
               | Some v => (Resolved v, b)
               | None => (Rejected BodyRejected, b)
               end
           end
  end.

End Requests.

End Client.

(** ** Sample data for the routes and the client *)

(** Signs [access-<user>] under the access secret and [refresh-<user>]
    under any other, with a mark on the tokens signed from time 1000 on and
    another from time 3000 on. *)
Definition demo_sign (p : JWTPayload) (secret expiresIn : string) (t : Z) : string :=
  (if bool_decide (secret = "your-secret-key") then "access-" else "refresh-")
  +:+ payload_userId p
  +:+ (if bool_decide (t < 1000) then "" else if bool_decide (t < 3000) then "-2" else "-3").

(** Accepts the tokens [demo_sign] makes for four users: access tokens
    for fifteen minutes, refresh tokens for seven days. *)
Definition demo_verify (token secret : string) (t : Z) : option JWTPayload :=
  if bool_decide (secret = "your-secret-key") && bool_decide (t < 900000)
  then if bool_decide (token = "access-alice") || bool_decide (token = "access-alice-2")
       then Some (mkJWTPayload "alice" "buyer")
       else if bool_decide (token = "access-bob") then Some (mkJWTPayload "bob" "seller")
       else if bool_decide (token = "access-root") then Some (mkJWTPayload "root" "admin")
       else if bool_decide (token = "access-dave") then Some (mkJWTPayload "dave" "buyer")
       else None
  else if bool_decide (secret = "your-refresh-secret-key") && bool_decide (t < 604800000)
  then if bool_decide (token = "refresh-alice") || bool_decide (token = "refresh-alice-2")
       then Some (mkJWTPayload "alice" "buyer")
       else if bool_decide (token = "refresh-bob") then Some (mkJWTPayload "bob" "seller")
       else None
  else None.

Definition demo_hash (pw salt : string) : string := "hash:" +:+ pw.
Definition demo_compare (pw hashed : string) : bool := bool_decide (hashed = "hash:" +:+ pw).
Definition demo_is_email (s : string) : bool := contains_char "@" s.
Definition demo_is_url (s : string) : bool := Client.starts_with "https://" s.

Definition demo_account (id role : string) (active : bool) (st : KycStatus) : Account :=
  mkAccount (mkUser id role active) (id +:+ "@example.com") (Some ("555000" +:+ id))
            ("hash:secret-" +:+ id) id "Doe" st None None 1 1.

Definition demo_store : store :=
  mkStore [demo_account "alice" "buyer" true kyc_rejected;
           demo_account "bob" "seller" true kyc_pending;
           demo_account "root" "admin" true kyc_verified;
           demo_account "dave" "buyer" false kyc_pending]
          [mkChat "chat-1" "alice" "bob" "listing-1" None 10]
          []
          [mkAuthToken "t1" "alice" "refresh-alice" 604800000].

(** A request at time 2000 whose storage calls all resolve. *)
Definition demo_ctx : Ctx :=
  mkCtx (λ n, 2000 + Z.of_nat n) 2000
        (λ n, match n with O => "new-0" | _ => "new-1" end)
        "salt" (λ _, false) (λ _, None) 0 id.

(** The same, a second later. *)
Definition later_ctx : Ctx :=
  mkCtx (λ n, 3000 + Z.of_nat n) 3000
        (λ n, match n with O => "new-2" | _ => "new-3" end)
        "salt" (λ _, false) (λ _, None) 0 id.

(** The same as [demo_ctx], with the request [between] served at time 3000
    while this one waits between two storage calls. *)
Definition racing_ctx (between : Ctx → Route unit) : Ctx :=
  mkCtx (λ n, 2000 + Z.of_nat n) 2000
        (λ n, match n with O => "new-0" | _ => "new-1" end)
        "salt" (λ _, false) (λ _, None) 0
        (λ s, (serve (between later_ctx) s).2).

(** The same as [demo_ctx], with the database returning the second row of
    an unordered result first. *)
Definition second_row_ctx : Ctx :=
  mkCtx (λ n, 2000 + Z.of_nat n) 2000
        (λ n, match n with O => "new-0" | _ => "new-1" end)
        "salt" (λ _, false) (λ _, None) 1 id.

(** The same as [demo_ctx], with the insert of the token row rejected. *)
Definition token_failing_ctx : Ctx :=
  mkCtx (λ n, 2000 + Z.of_nat n) 2000
        (λ n, match n with O => "new-0" | _ => "new-1" end)
        "salt" (λ q, match q with QCreateAuthToken => true | _ => false end) (λ _, None)
        0 id.

Definition demo_request (token : string) (id : string) (fields : list (string * json)) :
    request :=
  mkRequest (Some ("Bearer " +:+ token)) id (Some (JObj fields)).

Definition demo_authenticateToken := authenticateToken demo_verify None.
Definition demo_login := login demo_sign None None demo_compare String.length.
Definition demo_register :=
  register demo_sign None None demo_hash String.length demo_is_email.
Definition demo_refresh := refresh demo_verify demo_sign None None String.length.
Definition demo_logout := logout demo_verify None.
Definition demo_post_chats := post_chats demo_verify None.
Definition demo_get_chats := get_chats demo_verify None.
Definition demo_kyc_submit := kyc_submit demo_verify None String.length demo_is_url.
Definition demo_kyc_approve := kyc_approve demo_verify None.
Definition demo_kyc_reject := kyc_reject demo_verify None.

Definition demo_registration : list (string * json) :=
  [("email", JStr "erin@example.com"); ("phone", JStr "5550000005");
   ("password", JStr "secret-erin"); ("firstName", JStr "Erin"); ("lastName", JStr "Doe");
   ("role", JStr "seller")].

(** The tables after erin has registered. *)
Definition erin_registered : store :=
  (serve (demo_register demo_ctx (mkRequest None "" (Some (JObj demo_registration))))
         demo_store).2.

Definition demo_kyc : list (string * json) :=
  [("aadhaarNumber", JStr "123456789012"); ("name", JStr "Alice Doe");
   ("dateOfBirth", JStr "1990-01-01"); ("address", JStr "1 Beach Road")].


(** A browser that holds both tokens of alice. *)
Definition demo_browser : Client.browser :=
  Client.mkBrowser {[ "accessToken" := "access-alice"; "refreshToken" := "refresh-alice" ]}
                   [] [].

Definition demo_response (code : nat) (v : option json) : Client.Response :=
  Client.mkClientResponse code "" "" v.

(** A network on which the access token has expired: the request is
    answered 401, the refresh 200 with new tokens, and the retry 403. *)
Definition renewing_network (n : nat) (rq : Client.Fetch) : option Client.Response :=
  match n with
  | 0%nat => Some (demo_response 401 None)
  | 1%nat => Some (demo_response 200
                     (Some (JObj [("accessToken", JStr "access-2");
                                  ("refreshToken", JStr "refresh-2")])))
  | _ => Some (demo_response 403 None)
  end.

(** A network on which the refresh is turned away too. *)
Definition refusing_network (n : nat) (rq : Client.Fetch) : option Client.Response :=
  Some (demo_response 401 None).

Definition demo_text_of (j : json) : string := "[object Object]".
(** * Properties *)

Section Properties.

Variable jwt_verify : string → string → Z → option JWTPayload.
Variable JWT_REFRESH_SECRET_env : option string.

Abbreviation verifyRefreshToken' := (verifyRefreshToken jwt_verify JWT_REFRESH_SECRET_env).
Abbreviation on_message' := (on_message jwt_verify JWT_REFRESH_SECRET_env).
Abbreviation handles' := (handles jwt_verify JWT_REFRESH_SECRET_env).
Abbreviation step' := (step jwt_verify JWT_REFRESH_SECRET_env).
Abbreviation run' := (run jwt_verify JWT_REFRESH_SECRET_env).
Abbreviation authenticates' := (authenticates jwt_verify JWT_REFRESH_SECRET_env).

Ltac unfold_handler :=
  unfold on_message, authenticate, relay, resume, relay_found, relay_stored, relay_touched,
    on_close, try_catch, JSON_parse, prop,
    lift_outcome, getChat, createMessage, updateChatLastMessage, ws_send,
    ws_close, get_userId, set_userId, connections_set, connections_get,
    connections_delete, console_error, when, read, modify, throw, exec, result,
    mbind, M_bind, mret, M_ret.

Lemma bool_decide_str_false (a b : string) : a ≠ b → bool_decide (a = b) = false.
Proof. intros. by apply bool_decide_eq_false_2. Qed.

Lemma truthy_Some (u : string) : u ≠ "" → truthy (Some u) = true.
Proof. intros H. cbn. by rewrite (bool_decide_str_false _ _ H). Qed.

(** The message handler always ends, or waits, in one of the listed cases. *)
Lemma on_message_handles c e data w : handles' c e w data (exec (on_message' c e data) w).
Proof.
  destruct data as [msg|]; [|apply h_syntax].
  destruct msg as [|b|n|s|items|fields];
    try (by eapply h_untyped; [reflexivity|reflexivity|reflexivity]);
    [apply h_null|].
  destruct (obj_lookup fields "type") as [ty|] eqn:Hty.
  2:{ replace (exec _ w) with w.
      - by eapply h_untyped; [cbn; rewrite Hty|..].
      - unfold_handler. cbn. by rewrite Hty. }
  assert (Hother : strict_eq (Some ty) "auth" = false →
                   strict_eq (Some ty) "chat_message" = false →
                   handles' c e w (Some (JObj fields))
                           (exec (on_message' c e (Some (JObj fields))) w)).
  { intros H1 H2. replace (exec _ w) with w.
    - eapply h_untyped; [cbn; rewrite Hty; reflexivity|done..].
    - unfold_handler. cbn [field]. rewrite Hty, H1, H2. reflexivity. }
  destruct ty as [|b|n|s|items|fs]; try (by apply Hother).
  destruct (decide (s = "auth")) as [->|Hna].
  { unfold_handler. cbn [field]. rewrite Hty.
    destruct (verifyRefreshToken' e (obj_lookup fields "token")) as [p|] eqn:Hv.
    - simpl. apply h_auth_ok; done.
    - simpl. apply h_auth_failed; done. }
  destruct (decide (s = "chat_message")) as [->|Hnc].
  2:{ apply Hother; cbn; by apply bool_decide_str_false. }
  clear Hother Hna.
  unfold_handler. cbn [field]. rewrite Hty. simpl.
  destruct (identity w c) as [uid|] eqn:Hid.
  2:{ simpl. apply h_chat_unauthenticated; [done|]. by rewrite Hid. }
  destruct (decide (uid = "")) as [->|Hne].
  { simpl. apply h_chat_unauthenticated; [done|]. by rewrite Hid. }
  cbn [truthy default from_option id]. rewrite (bool_decide_str_false _ _ Hne). cbn [negb].
  cbn. by eapply h_chat_waits.
Qed.

(** The message handler catches whatever its body throws. *)
Lemma on_message_returns c e data w : result (on_message' c e data) w = Ok tt.
Proof.
  unfold on_message, try_catch, result.
  match goal with
  | |- context [match ?body w with _ => _ end] => destruct (body w) as [[[]|err] w1]
  end; reflexivity.
Qed.

(** The database leaves the world in one of the listed cases. *)
Lemma run_query_queried k e h w : queried k e h w (run_query k e h w).
Proof.
  unfold run_query. destruct (h_stage h) as [[r|]|chat sender [r|]|chat m t [r|]|] eqn:Hs;
    try (by apply q_idle; rewrite Hs).
  - unfold answered. unfold_handler. cbn [rejects during].
    destruct (rejects e OpGetChat) eqn:Hr; [by apply q_lookup_rejected|by apply q_lookup].
  - unfold answered. unfold_handler. cbn [rejects during].
    destruct (rejects e OpCreateMessage) eqn:Hr; [eapply q_insert_rejected; eauto|].
    change (sql_param (during e h (now e))) with (sql_param (h_env h)).
    destruct (sql_param (h_env h) (h_chatId h)) as [id|] eqn:Hk;
      [|eapply q_insert_rejected; eauto].
    destruct (sql_param (h_env h) (h_content h)) as [body|] eqn:Hb;
      [|eapply q_insert_rejected; eauto].
    cbn. by eapply (q_insert k e h w chat sender id body).
  - unfold answered. unfold_handler. cbn [rejects during].
    destruct (rejects e OpUpdateChatLastMessage) eqn:Hr;
      [by apply q_touch_rejected|by apply q_touch].
Qed.

(** A handler that goes on leaves the world in one of the listed cases,
    and catches whatever is thrown. *)
Lemma resume_resumed k e h w : resumed k e h w (exec (resume k e h) w).
Proof.
  unfold_handler.
  destruct (h_stage h) as [[[found|err]|]|chat sender [[m|err]|]|chat m t [[[]|err]|]|] eqn:Hs;
    try (by apply r_idle; rewrite Hs; eauto);
    try (by apply r_rejected; rewrite Hs).
  - destruct found as [chat|]; [|by apply r_unknown].
    destruct (participates chat (identity w (h_ws h))) eqn:Hp; [|by eapply r_outsider].
    destruct (identity w (h_ws h)) as [uid|] eqn:Hid; [|done].
    by eapply r_vetted.
  - by eapply r_stored.
  - cbn. match goal with
    | |- resumed _ _ _ _ ?x =>
        replace x with
          (retired k h
             (pushed (h_ws h) (message_sent m)
                (forwarded (recipient chat (identity w (h_ws h)))
                           (new_message m (h_chatId h)) w)))
    end.
    { by eapply r_relayed. }
    unfold forwarded. destruct (connections w !! _) as [oc|]; [|done].
    by destruct (bool_decide _).
Qed.

Lemma resume_returns k e h w : result (resume k e h) w = Ok tt.
Proof.
  unfold resume, try_catch, result.
  match goal with
  | |- context [match ?body w with _ => _ end] => destruct (body w) as [[[]|err] w1]
  end; reflexivity.
Qed.

(** *** Rows *)

Lemma select_chat_id id rows chat :
  select_chat (Some id) rows = Some chat → chat_id chat = id.
Proof.
  cbn. intros H. apply find_some in H as [_ H]. by apply bool_decide_eq_true in H.
Qed.

Lemma chat_id_touch key t row : chat_id (touch key t row) = chat_id row.
Proof. unfold touch. by destruct (bool_decide _). Qed.

Lemma select_chat_touch id key t rows :
  select_chat (Some id) (touch key t <$> rows) = touch key t <$> select_chat (Some id) rows.
Proof.
  cbn. induction rows as [|row rows IH]; [done|].
  cbn. rewrite chat_id_touch. by destruct (bool_decide (chat_id row = id)).
Qed.

Lemma touch_same id t row :
  chat_id row = id →
  touch (Some id) t row =
  mkChat id (buyerId row) (sellerId row) (listingId row) (Some t) (chat_createdAt row).
Proof. intros <-. unfold touch. by rewrite bool_decide_eq_true_2. Qed.

(** *** What each case leaves in the database, the registry and the trace *)

Lemma forwarded_db o f w : db (forwarded o f w) = db w.
Proof. unfold forwarded. destruct (connections w !! o); [|done]. by destruct (bool_decide _). Qed.

Lemma forwarded_connections o f w : connections (forwarded o f w) = connections w.
Proof. unfold forwarded. destruct (connections w !! o); [|done]. by destruct (bool_decide _). Qed.

Lemma forwarded_sockets o f w : sockets (forwarded o f w) = sockets w.
Proof. unfold forwarded. destruct (connections w !! o); [|done]. by destruct (bool_decide _). Qed.

Lemma forwarded_handlers o f w : handlers (forwarded o f w) = handlers w.
Proof. unfold forwarded. destruct (connections w !! o); [|done]. by destruct (bool_decide _). Qed.

Lemma forwarded_trace o f w :
  trace (forwarded o f w) = trace w ∨
  ∃ oc, connections w !! o = Some oc ∧ ready w (conn_ws oc) = OPEN ∧
        trace (forwarded o f w) = trace w ++ [Sent (conn_ws oc) OPEN f].
Proof.
  unfold forwarded. destruct (connections w !! o) as [oc|] eqn:Ho; [|by left].
  destruct (bool_decide (ready w (conn_ws oc) = OPEN)) eqn:Hr; [|by left].
  apply bool_decide_eq_true in Hr. right. exists oc. repeat split; try done.
  cbn. by rewrite Hr.
Qed.

Lemma forwarded_absent o f w :
  (∀ oc, connections w !! o = Some oc → ready w (conn_ws oc) ≠ OPEN) →
  forwarded o f w = w.
Proof.
  intros H. unfold forwarded. destruct (connections w !! o) as [oc|] eqn:Ho; [|done].
  by rewrite bool_decide_eq_false_2; [|apply H].
Qed.

(** Case analysis of one run of the message handler on [w], keeping
    the resulting world abstract. *)
Ltac handler_cases c e data w w' :=
  let H := fresh "H" in
  let E := fresh "Ew" in
  pose proof (on_message_handles c e data w) as H;
  remember (exec (on_message' c e data) w) as w' eqn:E;
  clear E;
  inversion H; clear H;
  simplify_eq; cbn [field] in *; simplify_eq.

Ltac absurd_case :=
  try done; try congruence;
  repeat match goal with
  | H : strict_eq (obj_lookup ?f "type") _ = false,
    H' : obj_lookup ?f "type" = _ |- _ => rewrite H' in H; cbn in H; discriminate
  | H : truthy (identity ?w ?c) = false, H' : identity ?w ?c = _ |- _ =>
      rewrite H' in H
  | H : _ ∨ _ |- _ => destruct H
  | H : _ ∧ _ |- _ => destruct H
  | H : ∃ _, _ |- _ => destruct H
  end; try congruence.

(** ** The worlds left by a frame *)

Lemma auth_world w c e fields :
  obj_lookup fields "type" = Some (JStr "auth") →
  exec (on_message' c e (Some (JObj fields))) w =
  match verifyRefreshToken' e (obj_lookup fields "token") with
  | Some p => bound c (payload_userId p) w
  | None => refused c w
  end.
Proof.
  intros Hty. handler_cases c e (Some (JObj fields)) w w'; absurd_case;
    match goal with H : verifyRefreshToken _ _ _ _ = _ |- _ => by rewrite H end.
Qed.

Lemma chat_unauthenticated_world w c e fields :
  obj_lookup fields "type" = Some (JStr "chat_message") →
  truthy (identity w c) = false →
  exec (on_message' c e (Some (JObj fields))) w = w.
Proof.
  intros Hty Hid.
  handler_cases c e (Some (JObj fields)) w w'; absurd_case;
    by rewrite truthy_Some in Hid.
Qed.

(** A [chat_message] frame on a connection that holds an identity starts
    a handler that waits for [getChat]. *)
Lemma chat_waits_world w c e fields uid :
  obj_lookup fields "type" = Some (JStr "chat_message") →
  identity w c = Some uid → uid ≠ "" →
  exec (on_message' c e (Some (JObj fields))) w =
  spawned (mkHandler c e (obj_lookup fields "chatId") (obj_lookup fields "content")
                     (AwaitGetChat None)) w.
Proof.
  intros Hty Hid Hne. pose proof (truthy_Some _ Hne) as Ht.
  handler_cases c e (Some (JObj fields)) w w'; absurd_case.
Qed.

Lemma ready_bound c u w c' : ready (bound c u w) c' = ready w c'.
Proof.
  unfold ready, bound. cbn. rewrite lookup_alter.
  case_decide as Hc; [subst|done]. by destruct (sockets w !! c').
Qed.

Lemma trace_bound c u w :
  trace (bound c u w) = trace w ++ [Sent c (ready w c) (auth_status true)].
Proof.
  unfold bound, pushed. cbn [trace log]. do 3 f_equal.
  unfold ready. cbn. rewrite lookup_alter_eq. by destruct (sockets w !! c).
Qed.

Lemma identity_bound c u w c' :
  identity (bound c u w) c' =
  if decide (c = c')
  then match sockets w !! c with Some _ => Some u | None => None end
  else identity w c'.
Proof.
  unfold identity, bound. cbn. rewrite lookup_alter.
  case_decide as Hc; [subst|done]. by destruct (sockets w !! c').
Qed.

Lemma identity_refused c w c' : identity (refused c w) c' = identity w c'.
Proof.
  unfold identity, refused. cbn. rewrite lookup_alter.
  case_decide as Hc; [subst|done].
  destruct (sockets w !! c') as [[u rs]|]; [|done]. by destruct rs.
Qed.

Lemma ready_refused c w c' :
  ready (refused c w) c' =
  if decide (c = c')
  then match ready w c with OPEN | CONNECTING => CLOSING | rs => rs end
  else ready w c'.
Proof.
  unfold ready, refused. cbn. rewrite lookup_alter.
  case_decide as Hc; [subst|done].
  destruct (sockets w !! c') as [[u rs]|]; [|done]. by destruct rs.
Qed.

(** ** Steps *)

Lemma step_frame w c e data :
  receiving (ready w c) = true →
  step' w (Frame c e data) = exec (on_message' c e data) w.
Proof.
  unfold step, ready. destruct (sockets w !! c) as [s|]; [|done]. by intros ->.
Qed.

(** The world the close event of an open or closing socket leaves. *)
Lemma step_close w c s :
  sockets w !! c = Some s → receiving (readyState s) = true →
  step' w (Close c) =
  set_connections (if truthy (userId s) then delete (default "" (userId s)) else id)
    (set_sockets (insert c (mkSocket (userId s) CLOSED)) w).
Proof.
  intros Hs Hr. unfold step. rewrite Hs, Hr.
  unfold_handler. unfold identity. cbn. rewrite lookup_insert_eq. cbn.
  by destruct (truthy (userId s)).
Qed.

Lemma step_query w k e h :
  handlers w !! k = Some h → step' w (Query k e) = run_query k e h w.
Proof. intros Hk. cbn [step]. by rewrite Hk. Qed.

Lemma step_resume w k e h :
  handlers w !! k = Some h → step' w (Resume k e) = exec (resume k e h) w.
Proof. intros Hk. cbn [step]. by rewrite Hk. Qed.

Lemma run_snoc w evs ev : run' w (evs ++ [ev]) = step' (run' w evs) ev.
Proof. unfold run. by rewrite foldl_snoc. Qed.

Lemma run_app w evs evs' : run' w (evs ++ evs') = run' (run' w evs) evs'.
Proof. unfold run. by rewrite foldl_app. Qed.

Lemma run_cons w ev evs : run' w (ev :: evs) = run' (step' w ev) evs.
Proof. done. Qed.

(** What a step does to the sockets and the registry: an [auth] frame
    binds or starts closing, a close event closes, and nothing else
    touches either. *)
Inductive moved (w : world) : event → world → Prop :=
| m_still ev w' :
    sockets w' = sockets w → connections w' = connections w →
    moved w ev w'
| m_connection c :
    sockets w !! c = None →
    moved w (Connection c) (set_sockets (insert c (mkSocket None OPEN)) w)
| m_bound c e fields p :
    receiving (ready w c) = true →
    obj_lookup fields "type" = Some (JStr "auth") →
    verifyRefreshToken' e (obj_lookup fields "token") = Some p →
    moved w (Frame c e (Some (JObj fields))) (bound c (payload_userId p) w)
| m_closing c e data w' :
    sockets w' = alter closing c (sockets w) → connections w' = connections w →
    moved w (Frame c e data) w'
| m_closed c s :
    sockets w !! c = Some s → receiving (readyState s) = true →
    moved w (Close c)
      (set_connections (if truthy (userId s) then delete (default "" (userId s)) else id)
         (set_sockets (insert c (mkSocket (userId s) CLOSED)) w)).

Lemma queried_still k e h w w' :
  queried k e h w w' → sockets w' = sockets w ∧ connections w' = connections w.
Proof. by destruct 1. Qed.

Lemma resumed_still k e h w w' :
  resumed k e h w w' → sockets w' = sockets w ∧ connections w' = connections w.
Proof.
  destruct 1; try done; cbn; by rewrite ?forwarded_sockets, ?forwarded_connections.
Qed.

Lemma step_moved w ev : moved w ev (step' w ev).
Proof.
  destruct ev as [c|c e data|c|k e|k e]; cbn [step].
  - destruct (sockets w !! c) eqn:Hs; [by apply m_still|by apply m_connection].
  - destruct (sockets w !! c) as [s|] eqn:Hs; [|by apply m_still].
    destruct (receiving (readyState s)) eqn:Hr; [|by apply m_still].
    assert (Hrd : receiving (ready w c) = true) by (unfold ready; by rewrite Hs).
    destruct (on_message_handles c e data w); try (by apply m_still).
    + by apply m_bound.
    + by apply m_closing.
  - destruct (sockets w !! c) as [s|] eqn:Hs; [|by apply m_still].
    destruct (receiving (readyState s)) eqn:Hr; [|by apply m_still].
    pose proof (step_close w c s Hs Hr) as Hc. cbn [step] in Hc. rewrite Hs, Hr in Hc.
    rewrite Hc. by apply m_closed.
  - destruct (handlers w !! k) as [h|]; [|by apply m_still].
    destruct (queried_still _ _ _ _ _ (run_query_queried k e h w)). by apply m_still.
  - destruct (handlers w !! k) as [h|]; [|by apply m_still].
    destruct (resumed_still _ _ _ _ _ (resume_resumed k e h w)). by apply m_still.
Qed.


(** ** Rows only ever added *)

Lemma same_conversation_refl rows : Forall2 same_conversation rows rows.
Proof. induction rows; constructor; [done|assumption]. Qed.

Lemma same_conversation_touch id t rows :
  Forall2 same_conversation rows (touch id t <$> rows).
Proof.
  induction rows as [|row rows IH]; cbn; constructor; [|assumption].
  unfold touch. by destruct (bool_decide _).
Qed.

Lemma grows_refl d : grows d d.
Proof. repeat split; [done|apply same_conversation_refl]. Qed.

Lemma grows_trans d1 d2 d3 : grows d1 d2 → grows d2 d3 → grows d1 d3.
Proof.
  intros (Hm1 & Hu1 & Ht1 & Hc1) (Hm2 & Hu2 & Ht2 & Hc2).
  split; [by etrans|]. split; [congruence|]. split; [congruence|].
  clear -Hc1 Hc2. revert Hc2. generalize (chats d3).
  induction Hc1 as [|a b l1 l2 Hab _ IH]; intros l3 Hc2; inversion Hc2; subst;
    constructor; [|by apply IH].
  destruct Hab as (?&?&?&?&?).
  match goal with H : same_conversation b _ |- _ => destruct H as (?&?&?&?&?) end.
  repeat split; congruence.
Qed.

Lemma grows_insert m d : grows d (insert_message m d).
Proof.
  repeat split; [by apply prefix_app_r|apply same_conversation_refl].
Qed.

Lemma grows_touch id t d : grows d (touch_chats id t d).
Proof. repeat split; [done|apply same_conversation_touch]. Qed.

Lemma queried_grows k e h w w' : queried k e h w w' → grows (db w) (db w').
Proof. destruct 1; try apply grows_refl; [apply grows_insert|apply grows_touch]. Qed.

Lemma resumed_db k e h w w' : resumed k e h w w' → db w' = db w.
Proof. destruct 1; try done. cbn. by rewrite forwarded_db. Qed.

Lemma handles_db c e w data w' : handles' c e w data w' → db w' = db w.
Proof. by destruct 1. Qed.

Lemma step_grows w ev : grows (db w) (db (step' w ev)).
Proof.
  destruct ev as [c|c e data|c|k e|k e]; cbn [step].
  - destruct (sockets w !! c); apply grows_refl.
  - destruct (sockets w !! c) as [s|]; [|apply grows_refl].
    destruct (receiving (readyState s)); [|apply grows_refl].
    rewrite (handles_db _ _ _ _ _ (on_message_handles c e data w)). apply grows_refl.
  - destruct (sockets w !! c) as [s|] eqn:Hs; [|apply grows_refl].
    destruct (receiving (readyState s)) eqn:Hr; [|apply grows_refl].
    pose proof (step_close w c s Hs Hr) as Hc. cbn [step] in Hc. rewrite Hs, Hr in Hc.
    rewrite Hc. apply grows_refl.
  - destruct (handlers w !! k) as [h|]; [|apply grows_refl].
    eapply queried_grows, run_query_queried.
  - destruct (handlers w !! k) as [h|]; [|apply grows_refl].
    rewrite (resumed_db _ _ _ _ _ (resume_resumed k e h w)). apply grows_refl.
Qed.

Lemma run_grows w evs : grows (db w) (db (run' w evs)).
Proof.
  induction evs as [|ev evs IH] using rev_ind; [apply grows_refl|].
  rewrite run_snoc. eapply grows_trans; [exact IH|apply step_grows].
Qed.

Lemma select_chat_elem id rows chat :
  select_chat (Some id) rows = Some chat → chat ∈ rows.
Proof. cbn. intros H. apply find_some in H as [H _]. by apply list_elem_of_In. Qed.

Lemma participant_same a b u :
  same_conversation a b → participant a u = participant b u.
Proof. intros (_ & Hb & Hs & _). unfold participant. by rewrite Hb, Hs. Qed.

Lemma otherUserId_same a b u :
  same_conversation a b → otherUserId a u = otherUserId b u.
Proof. intros (_ & Hb & Hs & _). unfold otherUserId. by rewrite Hb, Hs. Qed.

Lemma same_conversation_sym a b : same_conversation a b → same_conversation b a.
Proof. intros (?&?&?&?&?). by repeat split. Qed.

Lemma same_conversation_trans a b c :
  same_conversation a b → same_conversation b c → same_conversation a c.
Proof. intros (?&?&?&?&?) (?&?&?&?&?). repeat split; congruence. Qed.

(** A conversation found before is found after, the same but for its
    [lastMessageAt]. *)
Lemma select_chat_same id rows rows' chat :
  Forall2 same_conversation rows rows' →
  select_chat (Some id) rows = Some chat →
  ∃ chat', select_chat (Some id) rows' = Some chat' ∧ same_conversation chat chat'.
Proof.
  cbn. induction 1 as [|a b l1 l2 Hab _ IH]; [done|].
  cbn. destruct Hab as (Hid & Hrest). rewrite <- Hid.
  destruct (bool_decide (chat_id a = id)).
  - intros [= <-]. by exists b.
  - apply IH.
Qed.

Lemma select_chat_grows id d d' chat :
  grows d d' →
  select_chat (Some id) (chats d) = Some chat →
  ∃ chat', select_chat (Some id) (chats d') = Some chat' ∧ same_conversation chat chat'.
Proof. intros (_ & _ & _ & H). by apply select_chat_same. Qed.

(** ** A handler that waits *)

Lemma staged_at_stage k h s s' w : staged k (at_stage h s) s' w = staged k h s' w.
Proof. done. Qed.

Lemma handlers_staged k h s w :
  (k < length (handlers w))%nat → handlers (staged k h s w) !! k = Some (at_stage h s).
Proof. intros Hk. cbn. by apply list_lookup_insert_eq. Qed.

Lemma handlers_staged_ne k k' h s w :
  k' ≠ k → handlers (staged k' h s w) !! k = handlers w !! k.
Proof. intros Hk. cbn. by apply list_lookup_insert_ne. Qed.

Lemma handlers_spawned h w :
  handlers (spawned h w) !! length (handlers w) = Some h.
Proof. cbn. rewrite lookup_app_r by done. by rewrite Nat.sub_diag. Qed.

Lemma handlers_spawned_lt k h w :
  (k < length (handlers w))%nat → handlers (spawned h w) !! k = handlers w !! k.
Proof. intros Hk. cbn. by rewrite lookup_app_l. Qed.

Lemma handles_handlers c e w data w' k h :
  handles' c e w data w' → handlers w !! k = Some h → handlers w' !! k = Some h.
Proof.
  destruct 1; try done. intros Hk. rewrite handlers_spawned_lt; [done|].
  by eapply lookup_lt_Some.
Qed.

Lemma queried_handlers k' e h' w w' k h :
  queried k' e h' w w' → k' ≠ k → handlers w !! k = Some h → handlers w' !! k = Some h.
Proof. destruct 1; try done; intros; by rewrite handlers_staged_ne. Qed.

Lemma resumed_handlers k' e h' w w' k h :
  resumed k' e h' w w' → k' ≠ k → handlers w !! k = Some h → handlers w' !! k = Some h.
Proof.
  destruct 1; try done; intros; cbn;
    rewrite list_lookup_insert_ne by done; cbn; by rewrite ?forwarded_handlers.
Qed.

Lemma identity_sockets w w' c : sockets w' = sockets w → identity w' c = identity w c.
Proof. unfold identity. by intros ->. Qed.

Lemma ready_sockets w w' c : sockets w' = sockets w → ready w' c = ready w c.
Proof. unfold ready. by intros ->. Qed.

(** An event [apart] from handler [k] leaves it where it waits. *)
Lemma step_apart w k h ev :
  handlers w !! k = Some h → apart k ev = true →
  handlers (step' w ev) !! k = Some h.
Proof.
  intros Hk Hev.
  destruct ev as [c'|c' e data|c'|k' e|k' e]; cbn [step].
  - by destruct (sockets w !! c').
  - destruct (sockets w !! c') as [s|]; [|done].
    destruct (receiving (readyState s)); [|done].
    eapply handles_handlers; [apply on_message_handles|done].
  - destruct (sockets w !! c') as [s|] eqn:Hs; [|done].
    destruct (receiving (readyState s)) eqn:Hr; [|done].
    pose proof (step_close w c' s Hs Hr) as Hc. cbn [step] in Hc. rewrite Hs, Hr in Hc.
    by rewrite Hc.
  - cbn in Hev. apply negb_true_iff, bool_decide_eq_false in Hev.
    destruct (handlers w !! k') as [h'|]; [|done].
    eapply queried_handlers; [apply run_query_queried|done..].
  - cbn in Hev. apply negb_true_iff, bool_decide_eq_false in Hev.
    destruct (handlers w !! k') as [h'|]; [|done].
    eapply resumed_handlers; [apply resume_resumed|done..].
Qed.

Lemma run_apart w k h evs :
  handlers w !! k = Some h → Forall (λ ev, apart k ev = true) evs →
  handlers (run' w evs) !! k = Some h.
Proof.
  intros Hk. induction evs as [|ev evs IH] using rev_ind; intros Hevs; [done|].
  apply Forall_app in Hevs as [Hevs Hev]. rewrite Forall_singleton in Hev.
  rewrite run_snoc. apply step_apart; [by apply IH|done].
Qed.

(** An event that is no verified [auth] frame on [c] leaves the identity
    of [c] as it is. *)
Lemma step_identity_kept w c ev :
  authenticates' c ev = false → identity (step' w ev) c = identity w c.
Proof.
  intros Hev.
  destruct (step_moved w ev)
    as [ev w' Hs _|c' Hs|c' e fields p Hr Hty Hv|c' e data w' Hs _|c' s Hs Hr].
  - by apply identity_sockets.
  - unfold identity. cbn. rewrite lookup_insert. case_decide; [subst c'|done].
    by rewrite Hs.
  - rewrite identity_bound. case_decide as Hc; [subst c'|done].
    cbn in Hev. rewrite Hty, Hv in Hev. cbn in Hev.
    by rewrite bool_decide_eq_true_2 in Hev.
  - unfold identity. rewrite Hs. rewrite lookup_alter.
    case_decide; [subst c'|done].
    destruct (sockets w !! c) as [[u rs]|]; [|done]. by destruct rs.
  - unfold identity. cbn. rewrite lookup_insert. case_decide; [subst c'|done].
    by rewrite Hs.
Qed.

(** ** The steps of a relay *)

Lemma step_chat_waits w c e fields uid :
  receiving (ready w c) = true →
  obj_lookup fields "type" = Some (JStr "chat_message") →
  identity w c = Some uid → uid ≠ "" →
  step' w (Frame c e (Some (JObj fields))) =
  spawned (mkHandler c e (obj_lookup fields "chatId") (obj_lookup fields "content")
                     (AwaitGetChat None)) w.
Proof. intros Hr Hty Hid Hne. rewrite step_frame by done. by eapply chat_waits_world. Qed.

Lemma step_lookup w k q h :
  handlers w !! k = Some h → h_stage h = AwaitGetChat None →
  rejects q OpGetChat = false →
  step' w (Query k q) =
  staged k h (AwaitGetChat (Some (Ok (select_chat (sql_param (h_env h) (h_chatId h))
                                                  (chats (db w)))))) w.
Proof.
  intros Hk Hs Hr. rewrite (step_query w k q h Hk).
  unfold run_query, answered. rewrite Hs. unfold_handler. cbn. by rewrite Hr.
Qed.

Lemma step_lookup_rejected w k q h :
  handlers w !! k = Some h → h_stage h = AwaitGetChat None →
  rejects q OpGetChat = true →
  step' w (Query k q) = staged k h (AwaitGetChat (Some (Throw StorageError))) w.
Proof.
  intros Hk Hs Hr. rewrite (step_query w k q h Hk).
  unfold run_query, answered. rewrite Hs. unfold_handler. cbn. by rewrite Hr.
Qed.

Lemma step_vetted w k s h chat uid :
  handlers w !! k = Some h → h_stage h = AwaitGetChat (Some (Ok (Some chat))) →
  identity w (h_ws h) = Some uid → participant chat uid = true →
  step' w (Resume k s) = staged k h (AwaitCreateMessage chat uid None) w.
Proof.
  intros Hk Hs Hid Hp. rewrite (step_resume w k s h Hk).
  unfold_handler. rewrite Hs. cbn. rewrite Hid. cbn [participates]. by rewrite Hp.
Qed.

Lemma step_declined w k s h found :
  handlers w !! k = Some h → h_stage h = AwaitGetChat (Some (Ok found)) →
  (∀ chat, found = Some chat → participates chat (identity w (h_ws h)) = false) →
  step' w (Resume k s) = retired k h w.
Proof.
  intros Hk Hs Hp. rewrite (step_resume w k s h Hk).
  unfold_handler. rewrite Hs. cbn. destruct found as [chat|]; [|done].
  by rewrite (Hp chat).
Qed.

Lemma step_rejected w k s h err :
  handlers w !! k = Some h → thrown (h_stage h) = Some err →
  step' w (Resume k s) = reported err (h_ws h) (retired k h w).
Proof.
  intros Hk Hs. rewrite (step_resume w k s h Hk).
  unfold_handler.
  destruct (h_stage h) as [[[?|?]|]|? ? [[?|?]|]|? ? ? [[?|?]|]|]; by simplify_eq/=.
Qed.

Lemma step_insert w k q h chat sender id body :
  handlers w !! k = Some h → h_stage h = AwaitCreateMessage chat sender None →
  rejects q OpCreateMessage = false →
  sql_param (h_env h) (h_chatId h) = Some id →
  sql_param (h_env h) (h_content h) = Some body →
  let m := mkMessage (gen_random_uuid q) id sender body false (db_now q) in
  step' w (Query k q) = staged k h (AwaitCreateMessage chat sender (Some (Ok m))) (stored m w).
Proof.
  intros Hk Hs Hr Hi Hb m. rewrite (step_query w k q h Hk).
  unfold run_query, answered. rewrite Hs. unfold_handler. cbn [rejects during].
  rewrite Hr. change (sql_param (during q h (now q))) with (sql_param (h_env h)).
  by rewrite Hi, Hb.
Qed.

Lemma step_insert_rejected w k q h chat sender :
  handlers w !! k = Some h → h_stage h = AwaitCreateMessage chat sender None →
  rejects q OpCreateMessage = true ∨ sql_param (h_env h) (h_chatId h) = None
  ∨ sql_param (h_env h) (h_content h) = None →
  step' w (Query k q) = staged k h (AwaitCreateMessage chat sender (Some (Throw StorageError))) w.
Proof.
  intros Hk Hs Hr. rewrite (step_query w k q h Hk).
  unfold run_query, answered. rewrite Hs. unfold_handler. cbn [rejects during].
  destruct (rejects q OpCreateMessage); [done|].
  change (sql_param (during q h (now q))) with (sql_param (h_env h)).
  destruct Hr as [?|[->| ->]]; [done|done|].
  by destruct (sql_param (h_env h) (h_chatId h)).
Qed.

Lemma step_stored w k s h chat sender m :
  handlers w !! k = Some h → h_stage h = AwaitCreateMessage chat sender (Some (Ok m)) →
  step' w (Resume k s) = staged k h (AwaitUpdateChatLastMessage chat m (now s) None) w.
Proof.
  intros Hk Hs. rewrite (step_resume w k s h Hk). unfold_handler. by rewrite Hs.
Qed.

Lemma step_touch w k q h chat m t :
  handlers w !! k = Some h → h_stage h = AwaitUpdateChatLastMessage chat m t None →
  rejects q OpUpdateChatLastMessage = false →
  step' w (Query k q) =
  staged k h (AwaitUpdateChatLastMessage chat m t (Some (Ok tt)))
         (touched (sql_param (h_env h) (h_chatId h)) t w).
Proof.
  intros Hk Hs Hr. rewrite (step_query w k q h Hk).
  unfold run_query, answered. rewrite Hs. unfold_handler. cbn [rejects during].
  by rewrite Hr.
Qed.

Lemma step_touch_rejected w k q h chat m t :
  handlers w !! k = Some h → h_stage h = AwaitUpdateChatLastMessage chat m t None →
  rejects q OpUpdateChatLastMessage = true →
  step' w (Query k q) =
  staged k h (AwaitUpdateChatLastMessage chat m t (Some (Throw StorageError))) w.
Proof.
  intros Hk Hs Hr. rewrite (step_query w k q h Hk).
  unfold run_query, answered. rewrite Hs. unfold_handler. cbn [rejects during].
  by rewrite Hr.
Qed.

Lemma step_relayed w k s h chat m t :
  handlers w !! k = Some h →
  h_stage h = AwaitUpdateChatLastMessage chat m t (Some (Ok tt)) →
  step' w (Resume k s) =
  retired k h
    (pushed (h_ws h) (message_sent m)
       (forwarded (recipient chat (identity w (h_ws h))) (new_message m (h_chatId h)) w)).
Proof.
  intros Hk Hs. rewrite (step_resume w k s h Hk). unfold_handler. rewrite Hs. cbn.
  unfold forwarded. destruct (connections w !! _) as [oc|]; [|done].
  by destruct (bool_decide _).
Qed.

(** ** A relay from its frame to its confirmation

    The six steps of the handler that a [chat_message] frame starts on a
    connection that holds an identity — three queries run by the database,
    three resumptions — with any events of other handlers and connections
    before and between them: the world each of its steps leaves, case by
    case. *)
Lemma relay_course w c e fields u0 o1 q1 o2 s1 o3 q2 o4 s2 o5 q3 o6 s3 :
  receiving (ready w c) = true →
  identity w c = Some u0 → u0 ≠ "" →
  obj_lookup fields "type" = Some (JStr "chat_message") →
  let k := length (handlers w) in
  Forall (λ ev, apart k ev = true) (o1 ++ o2 ++ o3 ++ o4 ++ o5 ++ o6) →
  let h := mkHandler c e (obj_lookup fields "chatId") (obj_lookup fields "content")
                     (AwaitGetChat None) in
  let key := sql_param e (obj_lookup fields "chatId") in
  let text := sql_param e (obj_lookup fields "content") in
  let w1 := run' w (Frame c e (Some (JObj fields)) :: o1) in
  let w1' := step' w1 (Query k q1) in
  let w2 := run' w1' o2 in
  let w2' := step' w2 (Resume k s1) in
  let w3 := run' w2' o3 in
  let w3' := step' w3 (Query k q2) in
  let w4 := run' w3' o4 in
  let w4' := step' w4 (Resume k s2) in
  let w5 := run' w4' o5 in
  let w5' := step' w5 (Query k q3) in
  let w6 := run' w5' o6 in
  let w6' := step' w6 (Resume k s3) in
  step' w (Frame c e (Some (JObj fields))) = spawned h w ∧
  (rejects q1 OpGetChat = true →
   w1' = staged k h (AwaitGetChat (Some (Throw StorageError))) w1 ∧
   w2' = reported StorageError c (retired k h w2)) ∧
  (rejects q1 OpGetChat = false →
   w1' = staged k h (AwaitGetChat (Some (Ok (select_chat key (chats (db w1)))))) w1 ∧
   ((∀ chat, select_chat key (chats (db w1)) = Some chat →
             participates chat (identity w2 c) = false) →
    w2' = retired k h w2) ∧
   (∀ chat uid,
      select_chat key (chats (db w1)) = Some chat →
      identity w2 c = Some uid → participant chat uid = true →
      w2' = staged k h (AwaitCreateMessage chat uid None) w2 ∧
      (rejects q2 OpCreateMessage = true ∨ text = None →
       w3' = staged k h (AwaitCreateMessage chat uid (Some (Throw StorageError))) w3 ∧
       w4' = reported StorageError c (retired k h w4)) ∧
      (∀ body,
         rejects q2 OpCreateMessage = false → text = Some body →
         let m := mkMessage (gen_random_uuid q2) (chat_id chat) uid body false (db_now q2) in
         w3' = staged k h (AwaitCreateMessage chat uid (Some (Ok m))) (stored m w3) ∧
         w4' = staged k h (AwaitUpdateChatLastMessage chat m (now s2) None) w4 ∧
         (rejects q3 OpUpdateChatLastMessage = true →
          w5' = staged k h (AwaitUpdateChatLastMessage chat m (now s2)
                              (Some (Throw StorageError))) w5 ∧
          w6' = reported StorageError c (retired k h w6)) ∧
         (rejects q3 OpUpdateChatLastMessage = false →
          w5' = staged k h (AwaitUpdateChatLastMessage chat m (now s2) (Some (Ok tt)))
                       (touched key (now s2) w5) ∧
          w6' = retired k h
                  (pushed c (message_sent m)
                     (forwarded (recipient chat (identity w6 c))
                                (new_message m (obj_lookup fields "chatId")) w6)))))).
Proof.
  intros Hr Hid Hne Hty k Ho h key text.
  rewrite !Forall_app in Ho. destruct Ho as (Ho1 & Ho2 & Ho3 & Ho4 & Ho5 & Ho6).
  cbn zeta. rewrite run_cons.
  rewrite (step_chat_waits w c e fields u0) by done. fold h.
  assert (Hafter : ∀ w0 s o, (k < length (handlers w0))%nat →
            Forall (λ ev, apart k ev = true) o →
            handlers (run' (staged k h s w0) o) !! k = Some (at_stage h s)).
  { intros w0 s o Hlt Hap. apply run_apart; [|done]. by apply handlers_staged. }
  split; [done|].
  (* the frame *)
  pose proof (run_apart (spawned h w) k h o1 (handlers_spawned h w) Ho1) as Hh1.
  set (w1 := run' (spawned h w) o1) in *.
  assert (Hl1 : (k < length (handlers w1))%nat) by by eapply lookup_lt_Some.
  split.
  { (* the lookup rejects *)
    intros Hq1. rewrite (step_lookup_rejected w1 k q1 h Hh1 eq_refl Hq1).
    split; [done|].
    set (st := AwaitGetChat (Some (Throw StorageError))).
    rewrite (step_rejected _ k s1 (at_stage h st) StorageError);
      [done|by apply Hafter|done]. }
  intros Hq1. rewrite (step_lookup w1 k q1 h Hh1 eq_refl Hq1).
  change (sql_param (h_env h) (h_chatId h)) with key.
  set (found := select_chat key (chats (db w1))).
  set (st1 := AwaitGetChat (Some (Ok found))).
  pose proof (Hafter w1 st1 o2 Hl1 Ho2) as Hh2.
  set (w2 := run' (staged k h st1 w1) o2) in *.
  assert (Hl2 : (k < length (handlers w2))%nat) by by eapply lookup_lt_Some.
  split; [done|]. split.
  { (* no conversation, or not a participant's *)
    intros Hno. by rewrite (step_declined w2 k s1 (at_stage h st1) found Hh2 eq_refl). }
  intros chat uid Hfound Hid2 Hp.
  assert (Hkey : key = Some (chat_id chat)).
  { subst found. destruct key as [id|]; [|done].
    by rewrite (select_chat_id id _ chat Hfound). }
  assert (Hf : found = Some chat) by done.
  clearbody found. subst found st1.
  rewrite (step_vetted w2 k s1 _ chat uid Hh2 eq_refl Hid2 Hp). rewrite staged_at_stage.
  set (st2 := AwaitCreateMessage chat uid None).
  pose proof (Hafter w2 st2 o3 Hl2 Ho3) as Hh3.
  set (w3 := run' (staged k h st2 w2) o3) in *.
  assert (Hl3 : (k < length (handlers w3))%nat) by by eapply lookup_lt_Some.
  split; [done|]. split.
  { (* the insert rejects *)
    intros Hq2. rewrite (step_insert_rejected w3 k q2 _ chat uid Hh3 eq_refl).
    2:{ destruct Hq2 as [?|?]; [by left|by right; right]. }
    rewrite staged_at_stage. split; [done|].
    set (st := AwaitCreateMessage chat uid (Some (Throw StorageError))).
    rewrite (step_rejected _ k s2 (at_stage h st) StorageError);
      [done|by apply Hafter|done]. }
  intros body Hq2 Htext.
  set (m := mkMessage (gen_random_uuid q2) (chat_id chat) uid body false (db_now q2)).
  rewrite (step_insert w3 k q2 _ chat uid (chat_id chat) body Hh3 eq_refl Hq2 Hkey Htext).
  rewrite staged_at_stage. fold m.
  set (st3 := AwaitCreateMessage chat uid (Some (Ok m))).
  pose proof (Hafter (stored m w3) st3 o4 Hl3 Ho4) as Hh4.
  set (w4 := run' (staged k h st3 (stored m w3)) o4) in *.
  assert (Hl4 : (k < length (handlers w4))%nat) by by eapply lookup_lt_Some.
  rewrite (step_stored w4 k s2 _ chat uid m Hh4 eq_refl). rewrite staged_at_stage.
  set (st4 := AwaitUpdateChatLastMessage chat m (now s2) None).
  pose proof (Hafter w4 st4 o5 Hl4 Ho5) as Hh5.
  set (w5 := run' (staged k h st4 w4) o5) in *.
  assert (Hl5 : (k < length (handlers w5))%nat) by by eapply lookup_lt_Some.
  split; [done|]. split; [done|]. split.
  { (* the update rejects *)
    intros Hq3. rewrite (step_touch_rejected w5 k q3 _ chat m (now s2) Hh5 eq_refl Hq3).
    rewrite staged_at_stage. split; [done|].
    set (st := AwaitUpdateChatLastMessage chat m (now s2) (Some (Throw StorageError))).
    rewrite (step_rejected _ k s3 (at_stage h st) StorageError);
      [done|by apply Hafter|done]. }
  intros Hq3. rewrite (step_touch w5 k q3 _ chat m (now s2) Hh5 eq_refl Hq3).
  rewrite staged_at_stage. change (sql_param (h_env (at_stage h st4)) _) with key.
  split; [done|].
  set (st5 := AwaitUpdateChatLastMessage chat m (now s2) (Some (Ok tt))).
  assert (Hl5' : (k < length (handlers (touched key (now s2) w5)))%nat) by done.
  pose proof (Hafter (touched key (now s2) w5) st5 o6 Hl5' Ho6) as Hh6.
  by rewrite (step_relayed _ k s3 _ chat m (now s2) Hh6 eq_refl).
Qed.

Ltac solve_grows :=
  repeat first
    [ apply grows_refl
    | eapply grows_trans; [|apply run_grows]
    | eapply grows_trans; [|apply step_grows] ].

Lemma grows_elem d d' m : grows d d' → m ∈ messages d → m ∈ messages d'.
Proof. intros ([rest ->] & _) Hm. apply elem_of_app. by left. Qed.

Lemma app_nil_6 {A} (l1 l2 l3 l4 l5 l6 : list A) :
  l1 ++ l2 ++ l3 ++ l4 ++ l5 ++ l6 = [] →
  l1 = [] ∧ l2 = [] ∧ l3 = [] ∧ l4 = [] ∧ l5 = [] ∧ l6 = [].
Proof.
  intros H. repeat (apply app_eq_nil in H as [? H]). by repeat split.
Qed.

(** ** Relay *)

(** What each step of a successful relay does to the database. *)
Lemma relay_persists_course
    w c e fields u0 uid id body chat o1 q1 o2 s1 o3 q2 o4 s2 o5 q3 o6 s3 :
  receiving (ready w c) = true →
  identity w c = Some u0 → u0 ≠ "" →
  obj_lookup fields "type" = Some (JStr "chat_message") →
  obj_lookup fields "chatId" = Some (JStr id) →
  obj_lookup fields "content" = Some (JStr body) →
  let k := length (handlers w) in
  Forall (λ ev, apart k ev = true) (o1 ++ o2 ++ o3 ++ o4 ++ o5 ++ o6) →
  let w1 := run' w (Frame c e (Some (JObj fields)) :: o1) in
  let w1' := step' w1 (Query k q1) in
  let w2 := run' w1' o2 in
  let w2' := step' w2 (Resume k s1) in
  let w3 := run' w2' o3 in
  let w3' := step' w3 (Query k q2) in
  let w4 := run' w3' o4 in
  let w4' := step' w4 (Resume k s2) in
  let w5 := run' w4' o5 in
  let w5' := step' w5 (Query k q3) in
  let w6 := run' w5' o6 in
  let w6' := step' w6 (Resume k s3) in
  rejects q1 OpGetChat = false →
  select_chat (Some id) (chats (db w1)) = Some chat →
  identity w2 c = Some uid →
  participant chat uid = true →
  rejects q2 OpCreateMessage = false →
  rejects q3 OpUpdateChatLastMessage = false →
  let m := mkMessage (gen_random_uuid q2) id uid body false (db_now q2) in
  db w1' = db w1 ∧ db w2' = db w2 ∧
  db w3' = insert_message m (db w3) ∧
  db w4' = db w4 ∧
  db w5' = touch_chats (Some id) (now s2) (db w5) ∧
  db w6' = db w6 ∧
  db (step' w (Frame c e (Some (JObj fields)))) = db w.
Proof.
  intros Hr Hid Hne Hty Hk Hb k Ho w1 w1' w2 w2' w3 w3' w4 w4' w5 w5' w6 w6'
         Hq1 Hc Hid2 Hp Hq2 Hq3 m.
  destruct (relay_course w c e fields u0 o1 q1 o2 s1 o3 q2 o4 s2 o5 q3 o6 s3
              Hr Hid Hne Hty Ho) as (E0 & _ & Hcourse).
  rewrite Hk, Hb in Hcourse. cbn [sql_param] in Hcourse.
  destruct (Hcourse Hq1) as (E1 & _ & Hvetted). clear Hcourse.
  destruct (Hvetted chat uid Hc Hid2 Hp) as (E2 & _ & Hstored). clear Hvetted.
  destruct (Hstored body Hq2 eq_refl) as (E3 & E4 & _ & Htouched). clear Hstored.
  destruct (Htouched Hq3) as (E5 & E6). clear Htouched.
  rewrite (select_chat_id id _ chat Hc) in E3, E4, E5, E6. fold m in E3, E4, E5, E6.
  fold k w1 w1' in E1. fold k w1 w1' w2 w2' in E2.
  fold k w1 w1' w2 w2' w3 w3' in E3. fold k w1 w1' w2 w2' w3 w3' w4 w4' in E4.
  fold k w1 w1' w2 w2' w3 w3' w4 w4' w5 w5' in E5.
  fold k w1 w1' w2 w2' w3 w3' w4 w4' w5 w5' w6 w6' in E6.
  split; [by rewrite E1|]. split; [by rewrite E2|]. split; [by rewrite E3|].
  split; [by rewrite E4|]. split; [by rewrite E5|].
  split; [rewrite E6; cbn; by rewrite forwarded_db|]. by rewrite E0.
Qed.

(** C1 (amended).  A [chat_message] frame on a connection that holds an
    identity starts a handler; its sender is the identity the connection
    holds when the handler goes on after the conversation lookup.  When
    the lookup finds the conversation named by [chatId], that sender is
    its buyer or its seller and no storage call rejects, then, whatever
    other events come before and between the handler's steps, its steps
    persist exactly one message row: the insert appends the row with that
    conversation id, the sender's id, the given body, [isRead = false] and
    the database's clock reading as [createdAt], and no other step of the
    handler writes a message row.  The update then sets the conversation's
    [lastMessageAt] to the server's own clock reading, taken when
    [updateChatLastMessage] is called, the other columns of the
    conversation unchanged.  With nothing in between, the database after
    the relay is the one before it with that row appended and that
    conversation touched. *)
Theorem relay_persists_one_message_and_touches_chat
    w c e fields u0 uid id body chat o1 q1 o2 s1 o3 q2 o4 s2 o5 q3 o6 s3 :
  receiving (ready w c) = true →
  identity w c = Some u0 → u0 ≠ "" →
  obj_lookup fields "type" = Some (JStr "chat_message") →
  obj_lookup fields "chatId" = Some (JStr id) →
  obj_lookup fields "content" = Some (JStr body) →
  let k := length (handlers w) in
  Forall (λ ev, apart k ev = true) (o1 ++ o2 ++ o3 ++ o4 ++ o5 ++ o6) →
  let w1 := run' w (Frame c e (Some (JObj fields)) :: o1) in
  let w1' := step' w1 (Query k q1) in
  let w2 := run' w1' o2 in
  let w2' := step' w2 (Resume k s1) in
  let w3 := run' w2' o3 in
  let w3' := step' w3 (Query k q2) in
  let w4 := run' w3' o4 in
  let w4' := step' w4 (Resume k s2) in
  let w5 := run' w4' o5 in
  let w5' := step' w5 (Query k q3) in
  let w6 := run' w5' o6 in
  let w6' := step' w6 (Resume k s3) in
  rejects q1 OpGetChat = false →
  select_chat (Some id) (chats (db w1)) = Some chat →
  identity w2 c = Some uid →
  participant chat uid = true →
  rejects q2 OpCreateMessage = false →
  rejects q3 OpUpdateChatLastMessage = false →
  let m := mkMessage (gen_random_uuid q2) id uid body false (db_now q2) in
  db w1' = db w1 ∧ db w2' = db w2 ∧
  db w3' = insert_message m (db w3) ∧
  db w4' = db w4 ∧
  db w5' = touch_chats (Some id) (now s2) (db w5) ∧
  db w6' = db w6 ∧
  m ∈ messages (db w6') ∧
  select_chat (Some id) (chats (db w5')) =
    Some (mkChat id (buyerId chat) (sellerId chat) (listingId chat)
                 (Some (now s2)) (chat_createdAt chat)) ∧
  (o1 ++ o2 ++ o3 ++ o4 ++ o5 ++ o6 = [] →
   db w6' = touch_chats (Some id) (now s2) (insert_message m (db w))).
Proof.
  intros Hr Hid Hne Hty Hk Hb k Ho w1 w1' w2 w2' w3 w3' w4 w4' w5 w5' w6 w6'
         Hq1 Hc Hid2 Hp Hq2 Hq3 m.
  destruct (relay_persists_course w c e fields u0 uid id body chat
              o1 q1 o2 s1 o3 q2 o4 s2 o5 q3 o6 s3
              Hr Hid Hne Hty Hk Hb Ho Hq1 Hc Hid2 Hp Hq2 Hq3)
    as (D1 & D2 & D3 & D4 & D5 & D6 & D0).
  fold k w1 w1' in D1. fold k w1 w1' w2 w2' in D2.
  fold k w1 w1' w2 w2' w3 w3' in D3. fold k w1 w1' w2 w2' w3 w3' w4 w4' in D4.
  fold k w1 w1' w2 w2' w3 w3' w4 w4' w5 w5' in D5.
  fold k w1 w1' w2 w2' w3 w3' w4 w4' w5 w5' w6 w6' in D6. fold m in D3.
  split_and!; try done.
  - apply (grows_elem (db w3')); [subst w6' w6 w5' w5 w4' w4; solve_grows|].
    rewrite D3. cbn. apply elem_of_app. right. by apply list_elem_of_singleton.
  - assert (Hg : grows (db w1) (db w5))
      by (subst w5 w4' w4 w3' w3 w2' w2 w1'; solve_grows).
    destruct (select_chat_grows id _ _ chat Hg Hc) as (row & Hrow & Hsame).
    rewrite D5. cbn [touch_chats chats]. rewrite select_chat_touch, Hrow. cbn.
    rewrite (touch_same id) by (by eapply select_chat_id).
    destruct Hsame as (_ & -> & -> & -> & ->). done.
  - intros Hnil. apply app_nil_6 in Hnil as (-> & -> & -> & -> & -> & ->).
    rewrite D6. subst w6. cbn [run foldl]. rewrite D5.
    subst w5. cbn [run foldl]. rewrite D4.
    subst w4. cbn [run foldl]. rewrite D3.
    subst w3. cbn [run foldl]. rewrite D2.
    subst w2. cbn [run foldl]. rewrite D1.
    subst w1. cbn [run foldl]. by rewrite D0.
Qed.

(** C8.  In every successful relay the handler's last step sends
    [message_sent] to the sender's own connection, last, whether or not
    [new_message] was pushed before it to a registered OPEN socket of the
    other participant; none of its steps logs an error or sends an error
    frame.  When the other participant has no registered connection whose
    socket is OPEN at that moment, the message is persisted all the same
    and the last step does nothing else than confirm: no push to anyone
    else.  With nothing in between, the whole relay is then an insert, a
    touch and the confirmation. *)
Theorem relay_confirms_sender_without_recipient
    w c e fields u0 uid id body chat o1 q1 o2 s1 o3 q2 o4 s2 o5 q3 o6 s3 :
  receiving (ready w c) = true →
  identity w c = Some u0 → u0 ≠ "" →
  obj_lookup fields "type" = Some (JStr "chat_message") →
  obj_lookup fields "chatId" = Some (JStr id) →
  obj_lookup fields "content" = Some (JStr body) →
  let k := length (handlers w) in
  Forall (λ ev, apart k ev = true) (o1 ++ o2 ++ o3 ++ o4 ++ o5 ++ o6) →
  let w1 := run' w (Frame c e (Some (JObj fields)) :: o1) in
  let w1' := step' w1 (Query k q1) in
  let w2 := run' w1' o2 in
  let w2' := step' w2 (Resume k s1) in
  let w3 := run' w2' o3 in
  let w3' := step' w3 (Query k q2) in
  let w4 := run' w3' o4 in
  let w4' := step' w4 (Resume k s2) in
  let w5 := run' w4' o5 in
  let w5' := step' w5 (Query k q3) in
  let w6 := run' w5' o6 in
  let w6' := step' w6 (Resume k s3) in
  rejects q1 OpGetChat = false →
  select_chat (Some id) (chats (db w1)) = Some chat →
  identity w2 c = Some uid →
  participant chat uid = true →
  rejects q2 OpCreateMessage = false →
  rejects q3 OpUpdateChatLastMessage = false →
  let m := mkMessage (gen_random_uuid q2) id uid body false (db_now q2) in
  let other := recipient chat (identity w6 c) in
  trace w1' = trace w1 ∧ trace w2' = trace w2 ∧
  trace w3' = trace w3 ++ [Inserted m] ∧
  trace w4' = trace w4 ∧
  trace w5' = trace w5 ++ [Touched (Some id) (now s2)] ∧
  (∃ tr, trace w6' = trace w6 ++ tr ++ [Sent c (ready w6 c) (message_sent m)] ∧
         (tr = [] ∨
          ∃ oc, connections w6 !! other = Some oc ∧
                ready w6 (conn_ws oc) = OPEN ∧
                tr = [Sent (conn_ws oc) OPEN (new_message m (Some (JStr id)))])) ∧
  ((∀ oc, connections w6 !! other = Some oc → ready w6 (conn_ws oc) ≠ OPEN) →
   m ∈ messages (db w6') ∧
   trace w6' = trace w6 ++ [Sent c (ready w6 c) (message_sent m)]) ∧
  (o1 ++ o2 ++ o3 ++ o4 ++ o5 ++ o6 = [] →
   (∀ oc, connections w !! otherUserId chat uid = Some oc → ready w (conn_ws oc) ≠ OPEN) →
   messages (db w6') = messages (db w) ++ [m] ∧
   trace w6' = trace w ++ [Inserted m; Touched (Some id) (now s2);
                           Sent c (ready w c) (message_sent m)]).
Proof.
  intros Hr Hid Hne Hty Hk Hb k Ho w1 w1' w2 w2' w3 w3' w4 w4' w5 w5' w6 w6'
         Hq1 Hc Hid2 Hp Hq2 Hq3 m other.
  destruct (relay_course w c e fields u0 o1 q1 o2 s1 o3 q2 o4 s2 o5 q3 o6 s3
              Hr Hid Hne Hty Ho) as (E0 & _ & Hcourse).
  rewrite Hk, Hb in Hcourse. cbn [sql_param] in Hcourse.
  destruct (Hcourse Hq1) as (E1 & _ & Hvetted). clear Hcourse.
  destruct (Hvetted chat uid Hc Hid2 Hp) as (E2 & _ & Hstored). clear Hvetted.
  destruct (Hstored body Hq2 eq_refl) as (E3 & E4 & _ & Htouched). clear Hstored.
  destruct (Htouched Hq3) as (E5 & E6). clear Htouched.
  rewrite (select_chat_id id _ chat Hc) in E3, E4, E5, E6. fold m in E3, E4, E5, E6.
  fold k w1 w1' in E1. fold k w1 w1' w2 w2' in E2.
  fold k w1 w1' w2 w2' w3 w3' in E3. fold k w1 w1' w2 w2' w3 w3' w4 w4' in E4.
  fold k w1 w1' w2 w2' w3 w3' w4 w4' w5 w5' in E5.
  fold k w1 w1' w2 w2' w3 w3' w4 w4' w5 w5' w6 w6' other in E6.
  assert (D3 : db w3' = insert_message m (db w3)) by by rewrite E3.
  assert (Hin : m ∈ messages (db w6')).
  { apply (grows_elem (db w3')); [subst w6' w6 w5' w5 w4' w4; solve_grows|].
    rewrite D3. cbn. apply elem_of_app. right. by apply list_elem_of_singleton. }
  split; [by rewrite E1|]. split; [by rewrite E2|]. split; [by rewrite E3|].
  split; [by rewrite E4|]. split; [by rewrite E5|]. split; [|split].
  - rewrite E6.
    destruct (forwarded_trace other (new_message m (Some (JStr id))) w6)
      as [Ht|(oc & Hoc & Hopen & Ht)].
    + exists []. split; [|by left].
      cbn [retired staged set_handlers pushed log trace]. rewrite Ht.
      unfold ready. by rewrite forwarded_sockets.
    + exists [Sent (conn_ws oc) OPEN (new_message m (Some (JStr id)))]. split.
      * cbn [retired staged set_handlers pushed log trace]. rewrite Ht.
        unfold ready. rewrite forwarded_sockets. by rewrite <- app_assoc.
      * right. by exists oc.
  - intros Habsent. split; [done|]. rewrite E6. by rewrite forwarded_absent.
  - intros Hnil Habsent. apply app_nil_6 in Hnil as (-> & -> & -> & -> & -> & ->).
    cbn [run foldl] in *.
    assert (H1 : quiet w w1 ∧ identity w1 c = identity w c).
    { subst w1. rewrite E0. by repeat split. }
    assert (H2 : quiet w w2 ∧ identity w2 c = identity w c).
    { destruct H1 as ((?&?&?&?) & ?). subst w2. rewrite E1. by repeat split. }
    assert (H3 : quiet w w3 ∧ identity w3 c = identity w c).
    { destruct H2 as ((?&?&?&?) & ?). subst w3. rewrite E2. by repeat split. }
    assert (H4 : db w4 = insert_message m (db w) ∧ trace w4 = trace w ++ [Inserted m] ∧
                 sockets w4 = sockets w ∧ connections w4 = connections w).
    { destruct H3 as ((Hd&Ht&?&?) & ?). subst w4. rewrite E3.
      cbn [db trace sockets connections staged stored set_handlers set_db log].
      rewrite Hd, Ht. by repeat split. }
    assert (H5 : db w5 = insert_message m (db w) ∧ trace w5 = trace w ++ [Inserted m] ∧
                 sockets w5 = sockets w ∧ connections w5 = connections w).
    { destruct H4 as (?&?&?&?). subst w5. rewrite E4. by repeat split. }
    assert (H6 : messages (db w6) = messages (db w) ++ [m] ∧
                 trace w6 = trace w ++ [Inserted m; Touched (Some id) (now s2)] ∧
                 sockets w6 = sockets w ∧ connections w6 = connections w).
    { destruct H5 as (Hd&Ht&?&?). subst w6. rewrite E5.
      cbn [db trace sockets connections staged touched set_handlers set_db log
           touch_chats messages].
      rewrite Hd, Ht. rewrite <- app_assoc. by repeat split. }
    destruct H6 as (Hd & Ht & Hs & Hcn).
    assert (Hi6 : identity w6 c = Some uid).
    { rewrite (identity_sockets w w6) by done. destruct H2 as [_ <-]. done. }
    rewrite E6. subst other. rewrite Hi6. cbn [recipient].
    rewrite forwarded_absent.
    2:{ intros oc Hoc. rewrite Hcn in Hoc. rewrite (ready_sockets w w6) by done.
        by apply Habsent. }
    cbn [retired staged pushed db trace set_handlers log].
    rewrite Hd, Ht, <- app_assoc. rewrite (ready_sockets w w6) by done. done.
Qed.

(** A handler that has returned does nothing more. *)
Lemma step_returned w k h q :
  handlers w !! k = Some h → h_stage h = Returned →
  step' w (Query k q) = w ∧ step' w (Resume k q) = w.
Proof.
  intros Hk Hs. rewrite (step_query w k q h Hk), (step_resume w k q h Hk).
  unfold run_query. unfold_handler. by rewrite Hs.
Qed.

Lemma returned_course w k h o q s :
  handlers w !! k = Some h → h_stage h = Returned →
  Forall (λ ev, apart k ev = true) o →
  let w1 := run' w o in
  let w1' := step' w1 (Query k q) in
  step' w1 (Query k q) = w1 ∧ step' w1 (Resume k s) = w1 ∧ handlers w1 !! k = Some h.
Proof.
  intros Hk Hs Ho w1 w1'.
  pose proof (run_apart w k h o Hk Ho) as Hk1. fold w1 in Hk1.
  destruct (step_returned w1 k h q Hk1 Hs) as [-> _].
  by destruct (step_returned w1 k h s Hk1 Hs) as [_ ->].
Qed.

Lemma handlers_reported err c w : handlers (reported err c w) = handlers w.
Proof. done. Qed.

(** C2 (amended).  A [chat_message] frame on an authenticated connection
    whose conversation id names no conversation when the lookup runs, or
    a conversation that the identity the connection holds when the
    handler goes on is neither buyer nor seller of, is dropped in
    silence: none of the handler's steps persists, updates or sends
    anything, and no error frame goes back.  A storage call that rejects
    is caught, logged and answered with the error frame: nothing is
    persisted by the handler when [getChat] or [createMessage] rejects,
    and the inserted row stays when [updateChatLastMessage] rejects; in
    neither case is [new_message] or [message_sent] pushed. *)
Theorem declined_relay_is_silent_and_rejections_are_reported
    w c e fields u0 o1 q1 o2 s1 o3 q2 o4 s2 o5 q3 o6 s3 :
  receiving (ready w c) = true →
  identity w c = Some u0 → u0 ≠ "" →
  obj_lookup fields "type" = Some (JStr "chat_message") →
  let k := length (handlers w) in
  Forall (λ ev, apart k ev = true) (o1 ++ o2 ++ o3 ++ o4 ++ o5 ++ o6) →
  let key := sql_param e (obj_lookup fields "chatId") in
  let text := sql_param e (obj_lookup fields "content") in
  let w1 := run' w (Frame c e (Some (JObj fields)) :: o1) in
  let w1' := step' w1 (Query k q1) in
  let w2 := run' w1' o2 in
  let w2' := step' w2 (Resume k s1) in
  let w3 := run' w2' o3 in
  let w3' := step' w3 (Query k q2) in
  let w4 := run' w3' o4 in
  let w4' := step' w4 (Resume k s2) in
  let w5 := run' w4' o5 in
  let w5' := step' w5 (Query k q3) in
  let w6 := run' w5' o6 in
  let w6' := step' w6 (Resume k s3) in
  let error w0 :=
    [Logged StorageError; Sent c (ready w0 c) (error_frame "Invalid message format")] in
  (rejects q1 OpGetChat = false →
   select_chat key (chats (db w1)) = None ∨
   (∃ chat, select_chat key (chats (db w1)) = Some chat ∧
            participates chat (identity w2 c) = false) →
   quiet w1 w1' ∧ quiet w2 w2' ∧ w3' = w3 ∧ w4' = w4 ∧ w5' = w5 ∧ w6' = w6) ∧
  (rejects q1 OpGetChat = true →
   quiet w1 w1' ∧
   db w2' = db w2 ∧ connections w2' = connections w2 ∧ sockets w2' = sockets w2 ∧
   trace w2' = trace w2 ++ error w2 ∧
   w3' = w3 ∧ w4' = w4 ∧ w5' = w5 ∧ w6' = w6) ∧
  (∀ chat uid,
     rejects q1 OpGetChat = false →
     select_chat key (chats (db w1)) = Some chat →
     identity w2 c = Some uid → participant chat uid = true →
     rejects q2 OpCreateMessage = true →
     quiet w1 w1' ∧ quiet w2 w2' ∧ quiet w3 w3' ∧
     db w4' = db w4 ∧ connections w4' = connections w4 ∧ sockets w4' = sockets w4 ∧
     trace w4' = trace w4 ++ error w4 ∧
     w5' = w5 ∧ w6' = w6) ∧
  (∀ chat uid body,
     rejects q1 OpGetChat = false →
     select_chat key (chats (db w1)) = Some chat →
     identity w2 c = Some uid → participant chat uid = true →
     rejects q2 OpCreateMessage = false → text = Some body →
     rejects q3 OpUpdateChatLastMessage = true →
     let m := mkMessage (gen_random_uuid q2) (chat_id chat) uid body false (db_now q2) in
     quiet w1 w1' ∧ quiet w2 w2' ∧
     db w3' = insert_message m (db w3) ∧ trace w3' = trace w3 ++ [Inserted m] ∧
     quiet w4 w4' ∧ quiet w5 w5' ∧
     db w6' = db w6 ∧ connections w6' = connections w6 ∧ sockets w6' = sockets w6 ∧
     trace w6' = trace w6 ++ error w6 ∧
     m ∈ messages (db w6')).
Proof.
  intros Hr Hid Hne Hty k Ho key text w1 w1' w2 w2' w3 w3' w4 w4' w5 w5' w6 w6' error.
  destruct (relay_course w c e fields u0 o1 q1 o2 s1 o3 q2 o4 s2 o5 q3 o6 s3
              Hr Hid Hne Hty Ho) as (E0 & Hrej & Hcourse).
  fold k key text w1 w1' w2 w2' in Hrej.
  fold k key text w1 w1' w2 w2' w3 w3' w4 w4' w5 w5' w6 w6' in Hcourse.
  rewrite !Forall_app in Ho. destruct Ho as (Ho1 & Ho2 & Ho3 & Ho4 & Ho5 & Ho6).
  set (h := mkHandler c e (obj_lookup fields "chatId") (obj_lookup fields "content")
                      (AwaitGetChat None)) in *.
  assert (Hh1 : handlers w1 !! k = Some h).
  { subst w1. rewrite run_cons, E0. apply run_apart; [apply handlers_spawned|done]. }
  assert (Hl1 : (k < length (handlers w1))%nat) by by eapply lookup_lt_Some.
  (* what is left to the handler once it has returned *)
  assert (Hrest3 : ∀ h', handlers w2' !! k = Some h' → h_stage h' = Returned →
            w3' = w3 ∧ w4' = w4 ∧ w5' = w5 ∧ w6' = w6).
  { intros h' Hh' Hs'.
    destruct (returned_course w2' k h' o3 q2 q2 Hh' Hs' Ho3) as (X3 & _ & Hh3).
    fold w3 in X3, Hh3. fold w3' in X3.
    rewrite <- X3 in Hh3. fold w3' in Hh3.
    destruct (returned_course w3' k h' o4 q2 s2 Hh3 Hs' Ho4) as (_ & X4 & Hh4).
    fold w4 in X4, Hh4. fold w4' in X4. rewrite <- X4 in Hh4.
    destruct (returned_course w4' k h' o5 q3 q3 Hh4 Hs' Ho5) as (X5 & _ & Hh5).
    fold w5 in X5, Hh5. fold w5' in X5. rewrite <- X5 in Hh5.
    destruct (returned_course w5' k h' o6 q3 s3 Hh5 Hs' Ho6) as (_ & X6 & _).
    fold w6 in X6. fold w6' in X6. done. }
  assert (Hrest5 : ∀ h', handlers w4' !! k = Some h' → h_stage h' = Returned →
            w5' = w5 ∧ w6' = w6).
  { intros h' Hh' Hs'.
    destruct (returned_course w4' k h' o5 q3 q3 Hh' Hs' Ho5) as (X5 & _ & Hh5).
    fold w5 in X5, Hh5. fold w5' in X5. rewrite <- X5 in Hh5.
    destruct (returned_course w5' k h' o6 q3 s3 Hh5 Hs' Ho6) as (_ & X6 & _).
    fold w6 in X6. fold w6' in X6. done. }
  assert (Hl2 : ∀ st, w1' = staged k h st w1 → (k < length (handlers w2))%nat).
  { intros st E1. eapply lookup_lt_Some. subst w2. rewrite E1.
    apply run_apart; [by apply handlers_staged|done]. }
  split; [|split; [|split]].
  - intros Hq1 Hno. destruct (Hcourse Hq1) as (E1 & Hdecl & _).
    assert (E2 : w2' = retired k h w2).
    { apply Hdecl. intros chat Hchat. destruct Hno as [Hn|(chat' & Hc' & Hp)].
      - by rewrite Hn in Hchat.
      - rewrite Hc' in Hchat. by simplify_eq. }
    split; [by rewrite E1|]. split; [by rewrite E2|].
    apply (Hrest3 (at_stage h Returned)); [|done].
    rewrite E2. apply handlers_staged. by eapply Hl2.
  - intros Hq1. destruct (Hrej Hq1) as (E1 & E2).
    assert (Hrest : w3' = w3 ∧ w4' = w4 ∧ w5' = w5 ∧ w6' = w6).
    { apply (Hrest3 (at_stage h Returned)); [|done].
      rewrite E2, handlers_reported. apply handlers_staged. by eapply Hl2. }
    destruct Hrest as (?&?&?&?).
    split; [by rewrite E1|]. rewrite E2. split_and!; try done.
    subst error. cbn. by rewrite <- app_assoc.
  - intros chat uid Hq1 Hc Hid2 Hp Hq2. destruct (Hcourse Hq1) as (E1 & _ & Hvet).
    destruct (Hvet chat uid Hc Hid2 Hp) as (E2 & Hthrow & _).
    destruct (Hthrow (or_introl Hq2)) as (E3 & E4).
    assert (Hrest : w5' = w5 ∧ w6' = w6).
    { apply (Hrest5 (at_stage h Returned)); [|done].
      rewrite E4, handlers_reported. apply handlers_staged.
      eapply lookup_lt_Some. subst w4. rewrite E3.
      apply run_apart; [|done]. apply handlers_staged.
      eapply lookup_lt_Some. subst w3. rewrite E2.
      apply run_apart; [|done]. apply handlers_staged. by eapply Hl2. }
    destruct Hrest as (?&?).
    split; [by rewrite E1|]. split; [by rewrite E2|]. split; [by rewrite E3|].
    rewrite E4. split_and!; try done.
    subst error. cbn. by rewrite <- app_assoc.
  - intros chat uid body Hq1 Hc Hid2 Hp Hq2 Htext Hq3 m.
    destruct (Hcourse Hq1) as (E1 & _ & Hvet).
    destruct (Hvet chat uid Hc Hid2 Hp) as (E2 & _ & Hins).
    destruct (Hins body Hq2 Htext) as (E3 & E4 & Hthrow & _). fold m in E3, E4, Hthrow.
    destruct (Hthrow Hq3) as (E5 & E6).
    assert (D3 : db w3' = insert_message m (db w3)) by by rewrite E3.
    split; [by rewrite E1|]. split; [by rewrite E2|]. split; [done|].
    split; [by rewrite E3|]. split; [by rewrite E4|]. split; [by rewrite E5|].
    split_and!; try (by rewrite E6).
    { rewrite E6. subst error. cbn. by rewrite <- app_assoc. }
    apply (grows_elem (db w3')); [subst w6' w6 w5' w5 w4' w4; solve_grows|].
    rewrite D3. cbn. apply elem_of_app. right. by apply list_elem_of_singleton.
Qed.

(** ** Decoding *)

(** C7 (amended).  Neither the message handler nor a handler that goes on
    after an [await] ever throws.  A frame that is not JSON, or is the
    JSON value [null], is logged and answered with the error frame on the
    originating connection, whose socket, identity and registry entry
    stay as they were.  A frame whose [type] is neither ['auth'] nor
    ['chat_message'] (an unknown tag, no tag, a tag that is not a string)
    is ignored in silence: the server stays as it was and no frame is
    sent.  An [auth] frame that carries no string [token] is answered
    [auth]/[failed] and [ws.close()] is called on its socket.  A
    [chat_message] frame without [content] whose conversation is found,
    on a connection that holds the identity of a participant when the
    handler goes on after the lookup, fails the insert ([message] is NOT
    NULL): nothing is persisted by the handler, and when it goes on after
    the insert the error is logged and answered with the error frame. *)
Theorem undecodable_frames_reported_unknown_types_ignored w c e :
  (∀ data, result (on_message' c e data) w = Ok tt) ∧
  (∀ k s h, result (resume k s h) w = Ok tt) ∧
  exec (on_message' c e None) w = reported SyntaxError c w ∧
  exec (on_message' c e (Some JNull)) w = reported TypeError c w ∧
  (∀ err,
     let w' := reported err c w in
     trace w' = trace w ++ [Logged err;
                            Sent c (ready w c) (error_frame "Invalid message format")] ∧
     sockets w' = sockets w ∧ connections w' = connections w ∧ db w' = db w) ∧
  (∀ msg ty,
     field msg "type" = Ok ty →
     strict_eq ty "auth" = false → strict_eq ty "chat_message" = false →
     exec (on_message' c e (Some msg)) w = w) ∧
  (∀ fields,
     obj_lookup fields "type" = Some (JStr "auth") →
     (∀ t, obj_lookup fields "token" ≠ Some (JStr t)) →
     let w' := exec (on_message' c e (Some (JObj fields))) w in
     trace w' = trace w ++ [Sent c (ready w c) (auth_status false); CloseCalled c] ∧
     (ready w c = OPEN → ready w' c = CLOSING)) ∧
  (∀ fields u0 uid chat o1 q1 o2 s1 o3 q2 o4 s2,
     obj_lookup fields "type" = Some (JStr "chat_message") →
     obj_lookup fields "content" = None →
     receiving (ready w c) = true →
     identity w c = Some u0 → u0 ≠ "" →
     let k := length (handlers w) in
     Forall (λ ev, apart k ev = true) (o1 ++ o2 ++ o3 ++ o4) →
     let key := sql_param e (obj_lookup fields "chatId") in
     let w1 := run' w (Frame c e (Some (JObj fields)) :: o1) in
     let w1' := step' w1 (Query k q1) in
     let w2 := run' w1' o2 in
     let w2' := step' w2 (Resume k s1) in
     let w3 := run' w2' o3 in
     let w3' := step' w3 (Query k q2) in
     let w4 := run' w3' o4 in
     let w4' := step' w4 (Resume k s2) in
     rejects q1 OpGetChat = false →
     select_chat key (chats (db w1)) = Some chat →
     identity w2 c = Some uid → participant chat uid = true →
     quiet w1 w1' ∧ quiet w2 w2' ∧ quiet w3 w3' ∧
     db w4' = db w4 ∧ connections w4' = connections w4 ∧ sockets w4' = sockets w4 ∧
     trace w4' = trace w4 ++ [Logged StorageError;
                              Sent c (ready w4 c) (error_frame "Invalid message format")]).
Proof.
  split; [intros; apply on_message_returns|].
  split; [intros; apply resume_returns|].
  split; [by handler_cases c e (@None json) w w'|].
  split; [by handler_cases c e (Some JNull) w w'|].
  split; [intros err; cbn; by rewrite <- app_assoc|].
  split; [|split].
  - intros msg ty Hf Ha Hc.
    handler_cases c e (Some msg) w w'; absurd_case.
  - intros fields Hty Htok w'. subst w'.
    assert (Hv : verifyRefreshToken' e (obj_lookup fields "token") = None).
    { unfold verifyRefreshToken. destruct (obj_lookup fields "token") as [[]|]; try done.
      by edestruct Htok. }
    handler_cases c e (Some (JObj fields)) w w'; absurd_case.
    split; [cbn; by rewrite <- app_assoc|].
    unfold ready. cbn. rewrite lookup_alter_eq.
    destruct (sockets w !! c) as [[u rs]|]; [|done]. cbn. by intros ->.
  - intros fields u0 uid chat o1 q1 o2 s1 o3 q2 o4 s2 Hty Hb Hr Hid Hne k Ho key
           w1 w1' w2 w2' w3 w3' w4 w4' Hq1 Hc Hid2 Hp.
    assert (Ho' : Forall (λ ev, apart k ev = true) (o1 ++ o2 ++ o3 ++ o4 ++ [] ++ []))
      by by rewrite !app_nil_r.
    destruct (relay_course w c e fields u0 o1 q1 o2 s1 o3 q2 o4 s2 [] q2 [] s2
                Hr Hid Hne Hty Ho') as (_ & _ & Hcourse).
    destruct (Hcourse Hq1) as (E1 & _ & Hvet).
    destruct (Hvet chat uid Hc Hid2 Hp) as (E2 & Hthrow & _).
    destruct Hthrow as (E3 & E4); [right; by rewrite Hb|].
    fold k w1 w1' in E1. fold k w1 w1' w2 w2' in E2.
    fold k w1 w1' w2 w2' w3 w3' in E3. fold k w1 w1' w2 w2' w3 w3' w4 w4' in E4.
    split; [by rewrite E1|]. split; [by rewrite E2|]. split; [by rewrite E3|].
    rewrite E4. split_and!; try done. cbn. by rewrite <- app_assoc.
Qed.

(** ** Authentication and the database *)

(** C10.  What the message handler does with an [auth] frame does not
    depend on the database: run on two worlds that differ only in their
    databases it makes the same decision, leaves the same registry,
    sockets and trace, and leaves each database untouched.  Hence a token
    that verifies authenticates whatever the tables hold, also when its
    row has been deleted from [auth_tokens] or its user's row is gone or
    inactive: the connection is entered in the registry under the
    payload's user id, the handler's identity becomes that id and
    [auth]/[success] is sent; and a token that does not verify is answered
    [auth]/[failed], whatever the tables hold. *)
Theorem websocket_auth_ignores_the_database w c e fields d :
  obj_lookup fields "type" = Some (JStr "auth") →
  let data := Some (JObj fields) in
  let w' := exec (on_message' c e data) (set_db (λ _, d) w) in
  w' = set_db (λ _, d) (exec (on_message' c e data) w) ∧
  db (exec (on_message' c e data) w) = db w ∧
  (∀ p, verifyRefreshToken' e (obj_lookup fields "token") = Some p →
        connections w' !! payload_userId p = Some (mkChatConnection (payload_userId p) c) ∧
        (is_Some (sockets w !! c) → identity w' c = Some (payload_userId p)) ∧
        (∀ c', ready w' c' = ready w c') ∧
        trace w' = trace w ++ [Sent c (ready w c) (auth_status true)]) ∧
  (verifyRefreshToken' e (obj_lookup fields "token") = None →
   connections w' = connections w ∧
   (∀ c', identity w' c' = identity w c') ∧
   trace w' = trace w ++ [Sent c (ready w c) (auth_status false); CloseCalled c]).
Proof.
  intros Hty data w'. subst data w'. rewrite !(auth_world _ _ _ _ Hty).
  destruct (verifyRefreshToken' e (obj_lookup fields "token")) as [p|].
  - split; [done|]. split; [done|]. split; [|done]. intros p' [= <-].
    split; [cbn; apply lookup_insert_eq|]. split.
    { intros [s Hs]. rewrite identity_bound, decide_True by done. cbn. by rewrite Hs. }
    split; [intros c'; by rewrite ready_bound|]. by rewrite trace_bound.
  - split; [done|]. split; [done|]. split; [done|]. intros _.
    split; [done|]. split; [intros c'; by rewrite identity_refused|].
    cbn. by rewrite <- app_assoc.
Qed.

(** ** Connections and the registry *)

(** C9.  When a connection whose handler holds identity [uid] closes, the
    close handler deletes the registry entry of [uid], whichever socket
    that entry names.  So when two open connections [c1] and [c2]
    authenticate as the same user, in that order, the entry names [c2];
    and once [c1] closes the user has no entry at all, although [c2] is
    still open and its handler still holds the identity. *)
Theorem close_deletes_entry_of_newer_connection :
  (∀ w c s uid,
     sockets w !! c = Some s → receiving (readyState s) = true →
     userId s = Some uid → uid ≠ "" →
     connections (step' w (Close c)) !! uid = None) ∧
  (∀ w c1 c2 e1 e2 f1 f2 p1 p2,
     c1 ≠ c2 → ready w c1 = OPEN → ready w c2 = OPEN →
     obj_lookup f1 "type" = Some (JStr "auth") →
     obj_lookup f2 "type" = Some (JStr "auth") →
     verifyRefreshToken' e1 (obj_lookup f1 "token") = Some p1 →
     verifyRefreshToken' e2 (obj_lookup f2 "token") = Some p2 →
     payload_userId p1 = payload_userId p2 → payload_userId p1 ≠ "" →
     let u := payload_userId p1 in
     let w2 := run' w [Frame c1 e1 (Some (JObj f1)); Frame c2 e2 (Some (JObj f2))] in
     let w3 := step' w2 (Close c1) in
     connections w2 !! u = Some (mkChatConnection u c2) ∧
     connections w3 !! u = None ∧
     ready w3 c2 = OPEN ∧ identity w3 c2 = Some u).
Proof.
  assert (Hclose : ∀ w c s uid,
     sockets w !! c = Some s → receiving (readyState s) = true →
     userId s = Some uid → uid ≠ "" →
     step' w (Close c) =
     set_connections (delete uid)
       (set_sockets (insert c (mkSocket (Some uid) CLOSED)) w)).
  { intros w c s uid Hs Hr Hu Hne. unfold step. rewrite Hs, Hr.
    unfold_handler. unfold identity. cbn. rewrite lookup_insert_eq, Hu. cbn.
    by rewrite (bool_decide_str_false _ _ Hne). }
  split.
  - intros w c s uid Hs Hr Hu Hne. rewrite (Hclose w c s uid) by done.
    cbn. apply lookup_delete_eq.
  - intros w c1 c2 e1 e2 f1 f2 p1 p2 Hc Hr1 Hr2 Ht1 Ht2 Hv1 Hv2 Hp Hne u w2 w3.
    assert (Hw2 : w2 = bound c2 u (bound c1 u w)).
    { subst w2. cbn [run foldl].
      rewrite (step_frame w c1), (auth_world _ _ _ _ Ht1), Hv1 by by rewrite Hr1.
      rewrite step_frame, (auth_world _ _ _ _ Ht2), Hv2 by by rewrite ready_bound, Hr2.
      subst u. by rewrite Hp. }
    assert (Hs1 : ∃ s1, sockets w !! c1 = Some s1).
    { unfold ready in Hr1. destruct (sockets w !! c1); [eauto|done]. }
    assert (Hs2 : ∃ s2, sockets w !! c2 = Some s2).
    { unfold ready in Hr2. destruct (sockets w !! c2); [eauto|done]. }
    destruct Hs1 as [s1 Hs1], Hs2 as [s2 Hs2].
    assert (Hid1 : identity w2 c1 = Some u).
    { rewrite Hw2, identity_bound, decide_False, identity_bound, decide_True by done.
      by rewrite Hs1. }
    assert (Hrd1 : ready w2 c1 = OPEN) by by rewrite Hw2, !ready_bound.
    assert (Hw3 : w3 = set_connections (delete u)
                         (set_sockets (insert c1 (mkSocket (Some u) CLOSED)) w2)).
    { subst w3. unfold identity in Hid1. unfold ready in Hrd1.
      destruct (sockets w2 !! c1) as [s|] eqn:Hs; [|done].
      apply (Hclose w2 c1 s u); try done. by rewrite Hrd1. }
    clearbody w3 w2.
    split; [rewrite Hw2; cbn; apply lookup_insert_eq|].
    split; [rewrite Hw3; cbn; apply lookup_delete_eq|].
    split.
    + rewrite Hw3. unfold ready. cbn. rewrite lookup_insert_ne by done.
      fold (ready w2 c2). by rewrite Hw2, !ready_bound.
    + rewrite Hw3. unfold identity. cbn. rewrite lookup_insert_ne by done.
      fold (identity w2 c2). rewrite Hw2, identity_bound, decide_True by done.
      cbn. rewrite lookup_alter_ne by done. by rewrite Hs2.
Qed.

Lemma run_keeps_unauthenticated w c evs :
  identity w c = None →
  (∀ ev, ev ∈ evs → authenticates' c ev = false) →
  identity (run' w evs) c = None.
Proof.
  intros Hid. induction evs as [|ev evs IH] using rev_ind; [done|].
  intros Hevs. rewrite run_snoc. rewrite step_identity_kept.
  - apply IH. intros ev' Hin. apply Hevs, elem_of_app. by left.
  - apply Hevs, elem_of_app. right. by apply list_elem_of_singleton.
Qed.

Lemma step_chat_unauthenticated w c e fields :
  identity w c = None →
  obj_lookup fields "type" = Some (JStr "chat_message") →
  step' w (Frame c e (Some (JObj fields))) = w.
Proof.
  intros Hid Hty. cbn [step]. destruct (sockets w !! c) as [s|]; [|done].
  destruct (receiving (readyState s)); [|done].
  apply chat_unauthenticated_world; [done|]. by rewrite Hid.
Qed.

(** ** Frames before authentication *)

(** C4 (amended).  On a connection on which no [auth] frame has verified
    so far, a [chat_message] frame changes nothing: nothing is persisted,
    and no frame, not even an error frame, is sent back. *)
Theorem chat_frame_before_auth_is_ignored d evs c e fields :
  (∀ ev, ev ∈ evs → authenticates' c ev = false) →
  obj_lookup fields "type" = Some (JStr "chat_message") →
  step' (run' (boot d) evs) (Frame c e (Some (JObj fields))) = run' (boot d) evs.
Proof.
  intros Hevs Hty. apply step_chat_unauthenticated; [|done].
  by apply run_keeps_unauthenticated.
Qed.

(** ** Authentication *)

(** C6 (amended).  For every [auth] frame: when the token verifies, the
    connection is entered in the registry under the payload's user id,
    replacing whatever entry that id had, the handler's identity becomes
    that id, [auth]/[success] is sent, and no socket changes its
    [readyState] (a replaced connection is not closed).  When it does not
    verify, [auth]/[failed] is sent and [ws.close()] is called on the
    socket, which starts closing; the registry and the handler's identity
    stay as they were, so on a connection that had never authenticated,
    and until an [auth] frame on it verifies, every [chat_message] frame
    that still arrives is ignored. *)
Theorem auth_binds_on_success_and_closes_on_failure w c e fields :
  obj_lookup fields "type" = Some (JStr "auth") →
  let w' := exec (on_message' c e (Some (JObj fields))) w in
  match verifyRefreshToken' e (obj_lookup fields "token") with
  | Some p =>
      let u := payload_userId p in
      connections w' = <[u := mkChatConnection u c]> (connections w) ∧
      (is_Some (sockets w !! c) → identity w' c = Some u) ∧
      (∀ c', ready w' c' = ready w c') ∧
      trace w' = trace w ++ [Sent c (ready w c) (auth_status true)] ∧
      db w' = db w
  | None =>
      connections w' = connections w ∧
      (∀ c', identity w' c' = identity w c') ∧
      (ready w c = OPEN → ready w' c = CLOSING) ∧
      (∀ c', c' ≠ c → ready w' c' = ready w c') ∧
      trace w' = trace w ++ [Sent c (ready w c) (auth_status false); CloseCalled c] ∧
      db w' = db w ∧
      (identity w c = None →
       ∀ evs e2 fields2,
         (∀ ev, ev ∈ evs → authenticates' c ev = false) →
         obj_lookup fields2 "type" = Some (JStr "chat_message") →
         step' (run' w' evs) (Frame c e2 (Some (JObj fields2))) = run' w' evs)
  end.
Proof.
  intros Hty w'. subst w'. rewrite (auth_world _ _ _ _ Hty).
  destruct (verifyRefreshToken' e (obj_lookup fields "token")) as [p|].
  - cbn zeta. split; [done|]. split.
    { intros [s Hs]. rewrite identity_bound, decide_True by done. by rewrite Hs. }
    split; [apply ready_bound|]. split; [apply trace_bound|done].
  - split; [done|]. split; [apply identity_refused|]. split.
    { intros Hr. rewrite ready_refused, decide_True by done. by rewrite Hr. }
    split. { intros c' Hc. by rewrite ready_refused, decide_False. }
    split. { cbn. by rewrite <- app_assoc. }
    split; [done|].
    intros Hid evs e2 fields2 Hevs Hty2. apply step_chat_unauthenticated; [|done].
    apply run_keeps_unauthenticated; [|done]. by rewrite identity_refused.
Qed.

(** ** The trace *)

Lemma since_refl w :
  (∀ k h, handlers w !! k = Some h → holds (h_stage h) = None) → since w w [].
Proof.
  intros Hw. split; [by rewrite app_nil_r|]. split_and!.
  - intros pre ? ? ? ? ? Heq. by destruct pre.
  - intros ? ? ? ? H. by apply elem_of_nil in H.
  - intros ? H. by apply elem_of_nil in H.
  - intros k h m Hk Hm. by rewrite (Hw k h Hk) in Hm.
Qed.

(** More effects after those of [suffix]: rows are pushed only once
    inserted, routed only to OPEN sockets, and inserted rows are stored. *)
Lemma since_more w0 w suffix extra w' :
  since w0 w suffix →
  trace w' = trace w ++ extra →
  (∀ to rs f m, Sent to rs f ∈ extra → carried f = Some m → Inserted m ∈ suffix) →
  (∀ to rs m k, Sent to rs (new_message m k) ∈ extra → rs = OPEN) →
  (∀ m, m ∈ messages (db w) → m ∈ messages (db w')) →
  (∀ m, Inserted m ∈ extra → m ∈ messages (db w')) →
  (∀ k h m, handlers w' !! k = Some h → holds (h_stage h) = Some m →
            Inserted m ∈ suffix ++ extra) →
  since w0 w' (suffix ++ extra).
Proof.
  intros (Ht & Ho & Hr & Hs & Hh) Ht' Hcar Hopen Hkeep Hins Hheld.
  split; [by rewrite Ht', Ht, app_assoc|]. split_and!; [| | |done].
  - intros pre to rs f post m Heq Hm.
    apply app_eq_inv in Heq as [(l & Hpre & Hl)|(l & Hpre & Hl)].
    + destruct l as [|x l].
      * cbn in Hl. rewrite app_nil_r in Hpre. subst pre.
        apply (Hcar to rs f m); [|done]. rewrite <- Hl. apply elem_of_cons. by left.
      * cbn in Hl. simplify_eq. by apply (Ho pre to rs f l m).
    + subst pre. apply elem_of_app. left.
      apply (Hcar to rs f m); [|done]. rewrite Hl. apply elem_of_app. right.
      apply elem_of_cons. by left.
  - intros to rs m k Hin. apply elem_of_app in Hin as [Hin|Hin];
      [by eapply Hr|by eapply Hopen].
  - intros m Hin. apply elem_of_app in Hin as [Hin|Hin]; [by apply Hkeep, Hs|by apply Hins].
Qed.

(** Effects that carry no row and insert none, on the same message
    rows, with no handler left holding a row it did not hold. *)
Lemma since_plain w0 w suffix extra w' :
  since w0 w suffix →
  trace w' = trace w ++ extra → messages (db w') = messages (db w) →
  (∀ k h m, handlers w' !! k = Some h → holds (h_stage h) = Some m →
            ∃ h0, handlers w !! k = Some h0 ∧ holds (h_stage h0) = Some m) →
  (∀ to rs f, Sent to rs f ∈ extra → carried f = None) →
  (∀ m, Inserted m ∉ extra) →
  ∃ suffix', since w0 w' suffix'.
Proof.
  intros Hs Ht Hd Hh Hnone Hnoins. exists (suffix ++ extra).
  apply (since_more w0 w suffix extra w' Hs Ht).
  - intros to rs f m H Hm. by rewrite (Hnone to rs f H) in Hm.
  - intros to rs m k H. by pose proof (Hnone to rs _ H).
  - by rewrite Hd.
  - intros m H. by destruct (Hnoins m).
  - intros k h m Hk Hm. apply elem_of_app. left.
    destruct (Hh k h m Hk Hm) as (h0 & Hk0 & Hm0).
    destruct Hs as (_ & _ & _ & _ & Hheld). by eapply Hheld.
Qed.

Lemma handlers_staged_Some k h s w k' h' :
  handlers (staged k h s w) !! k' = Some h' →
  (k' = k ∧ h' = at_stage h s) ∨ handlers w !! k' = Some h'.
Proof.
  cbn. intros H. apply list_lookup_insert_Some in H as [(-> & <- & _)|[_ H]]; eauto.
Qed.

Ltac in_extra H :=
  repeat (apply elem_of_cons in H as [H|H]; simplify_eq/=);
  try (by apply elem_of_nil in H); try done.

Ltac plain_extra :=
  first
    [ let H := fresh in intros ? ? ? H; by in_extra H
    | let H := fresh in intros ? H; by in_extra H ].

Lemma handles_since c e w0 w data w' suffix :
  handles' c e w data w' → since w0 w suffix → ∃ suffix', since w0 w' suffix'.
Proof.
  intros Hh Hs.
  assert (Hsame : ∀ w'' : world, handlers w'' = handlers w →
            ∀ k h m, handlers w'' !! k = Some h → holds (h_stage h) = Some m →
                     ∃ h0, handlers w !! k = Some h0 ∧ holds (h_stage h0) = Some m).
  { intros w'' -> k h m Hk Hm. eauto. }
  destruct Hh.
  - eapply (since_plain w0 w suffix
      [Logged SyntaxError; Sent c (ready w c) (error_frame "Invalid message format")]);
      [done|cbn; by rewrite <- app_assoc|done|by apply Hsame|plain_extra..].
  - eapply (since_plain w0 w suffix
      [Logged TypeError; Sent c (ready w c) (error_frame "Invalid message format")]);
      [done|cbn; by rewrite <- app_assoc|done|by apply Hsame|plain_extra..].
  - by exists suffix.
  - eapply (since_plain w0 w suffix [Sent c (ready w c) (auth_status true)]);
      [done|apply trace_bound|done|by apply Hsame|plain_extra..].
  - eapply (since_plain w0 w suffix [Sent c (ready w c) (auth_status false); CloseCalled c]);
      [done|cbn; by rewrite <- app_assoc|done|by apply Hsame|plain_extra..].
  - by exists suffix.
  - eapply (since_plain w0 w suffix []);
      [done|cbn; by rewrite app_nil_r|done| |plain_extra..].
    intros k h m Hk Hm. cbn in Hk. apply lookup_app_Some in Hk as [Hk|[_ Hk]]; [eauto|].
    apply list_lookup_singleton_Some in Hk as [_ <-]. done.
Qed.

Lemma queried_since k e h w0 w w' suffix :
  queried k e h w w' → handlers w !! k = Some h → since w0 w suffix →
  ∃ suffix', since w0 w' suffix'.
Proof.
  intros Hq Hk Hs.
  assert (Hheld := Hs). destruct Hheld as (_ & _ & _ & _ & Hheld).
  assert (Hstaged : ∀ s (w1 : world),
            handlers w1 = handlers w →
            (∀ m, holds s = Some m → holds (h_stage h) = Some m) →
            ∀ k' h' m, handlers (staged k h s w1) !! k' = Some h' →
                       holds (h_stage h') = Some m →
                       ∃ h0, handlers w !! k' = Some h0 ∧ holds (h_stage h0) = Some m).
  { intros s w1 Hw1 Hsm k' h' m Hk' Hm.
    apply handlers_staged_Some in Hk' as [[-> ->]|Hk']; [|rewrite Hw1 in Hk'; eauto].
    exists h. split; [done|]. by apply Hsm. }
  destruct Hq as [|Hst|Hst|chat sender Hst|chat sender id body Hst Hr1 Hk1 Hb1|chat m t Hst|chat m t Hst].
  - by exists suffix.
  - eapply (since_plain w0 w suffix []);
      [done|cbn; by rewrite app_nil_r|done|by apply Hstaged|plain_extra..].
  - eapply (since_plain w0 w suffix []);
      [done|cbn; by rewrite app_nil_r|done|by apply Hstaged|plain_extra..].
  - eapply (since_plain w0 w suffix []);
      [done|cbn; by rewrite app_nil_r|done|by apply Hstaged|plain_extra..].
  - exists (suffix ++ [Inserted m]).
    apply (since_more w0 w suffix [Inserted m]); [done|done|..].
    + intros to rs f m' H. in_extra H.
    + intros to rs m' k' H. in_extra H.
    + intros m' Hm'. cbn. apply elem_of_app. by left.
    + intros m' H. in_extra H. cbn. apply elem_of_app. right.
      by apply list_elem_of_singleton.
    + intros k' h' m' Hk' Hm'. apply elem_of_app.
      apply handlers_staged_Some in Hk' as [[-> ->]|Hk'].
      * right. cbn in Hm'. simplify_eq. by apply list_elem_of_singleton.
      * left. by eapply Hheld.
  - eapply (since_plain w0 w suffix []);
      [done|cbn; by rewrite app_nil_r|done| |plain_extra..].
    apply Hstaged; [done|]. intros m'. by rewrite Hst.
  - eapply (since_plain w0 w suffix [Touched (sql_param (h_env h) (h_chatId h)) t]);
      [done|done|done| |plain_extra..].
    apply Hstaged; [done|]. intros m'. by rewrite Hst.
Qed.

Lemma resumed_since k e h w0 w w' suffix :
  resumed k e h w w' → handlers w !! k = Some h → since w0 w suffix →
  ∃ suffix', since w0 w' suffix'.
Proof.
  intros Hq Hk Hs.
  assert (Hheld := Hs). destruct Hheld as (_ & _ & _ & _ & Hheld).
  assert (Hstaged : ∀ s (w1 : world),
            handlers w1 = handlers w →
            (∀ m, holds s = Some m → holds (h_stage h) = Some m) →
            ∀ k' h' m, handlers (staged k h s w1) !! k' = Some h' →
                       holds (h_stage h') = Some m →
                       ∃ h0, handlers w !! k' = Some h0 ∧ holds (h_stage h0) = Some m).
  { intros s w1 Hw1 Hsm k' h' m Hk' Hm.
    apply handlers_staged_Some in Hk' as [[-> ->]|Hk']; [|rewrite Hw1 in Hk'; eauto].
    exists h. split; [done|]. by apply Hsm. }
  destruct Hq as [|err Hst|Hst|chat Hst|chat uid Hst|chat sender m Hst|chat m t Hst].
  - by exists suffix.
  - eapply (since_plain w0 w suffix
      [Logged err; Sent (h_ws h) (ready w (h_ws h)) (error_frame "Invalid message format")]);
      [done|cbn; by rewrite <- app_assoc|done| |plain_extra..].
    change (handlers (reported err (h_ws h) (retired k h w)))
      with (handlers (retired k h w)).
    by apply Hstaged.
  - eapply (since_plain w0 w suffix []);
      [done|cbn; by rewrite app_nil_r|done|by apply Hstaged|plain_extra..].
  - eapply (since_plain w0 w suffix []);
      [done|cbn; by rewrite app_nil_r|done|by apply Hstaged|plain_extra..].
  - eapply (since_plain w0 w suffix []);
      [done|cbn; by rewrite app_nil_r|done|by apply Hstaged|plain_extra..].
  - eapply (since_plain w0 w suffix []);
      [done|cbn; by rewrite app_nil_r|done| |plain_extra..].
    apply Hstaged; [done|]. intros m'. rewrite Hst. cbn. done.
  - assert (Hm : Inserted m ∈ suffix) by (eapply Hheld; [done|by rewrite Hst]).
    set (other := recipient chat (identity w (h_ws h))).
    set (f := new_message m (h_chatId h)).
    assert (Hrest : ∀ k' h' m',
              handlers (retired k h (pushed (h_ws h) (message_sent m) (forwarded other f w)))
                !! k' = Some h' →
              holds (h_stage h') = Some m' → Inserted m' ∈ suffix).
    { intros k' h' m' Hk' Hm'.
      destruct (Hstaged Returned (pushed (h_ws h) (message_sent m) (forwarded other f w)))
        with (k' := k') (h' := h') (m := m') as (h0 & Hk0 & Hm0); try done.
      - cbn. by rewrite forwarded_handlers.
      - by eapply Hheld. }
    destruct (forwarded_trace other f w) as [Ht|(oc & Hoc & Hopen & Ht)].
    + exists (suffix ++ [Sent (h_ws h) (ready w (h_ws h)) (message_sent m)]).
      apply (since_more w0 w); [done|..].
      * cbn [retired staged set_handlers pushed log trace]. rewrite Ht.
        unfold ready. by rewrite forwarded_sockets.
      * intros to rs f' m' H Hc. in_extra H.
      * intros to rs m' k' H. in_extra H.
      * intros m'. cbn. by rewrite forwarded_db.
      * intros m' H. in_extra H.
      * intros k' h' m' Hk' Hm'. apply elem_of_app. left. by eapply Hrest.
    + exists (suffix ++ [Sent (conn_ws oc) OPEN f;
                         Sent (h_ws h) (ready w (h_ws h)) (message_sent m)]).
      apply (since_more w0 w); [done|..].
      * cbn [retired staged set_handlers pushed log trace]. rewrite Ht.
        unfold ready. rewrite forwarded_sockets. by rewrite <- app_assoc.
      * intros to rs f' m' H Hc. in_extra H.
      * intros to rs m' k' H. in_extra H.
      * intros m'. cbn. by rewrite forwarded_db.
      * intros m' H. in_extra H.
      * intros k' h' m' Hk' Hm'. apply elem_of_app. left. by eapply Hrest.
Qed.

Lemma step_since w0 w suffix ev :
  since w0 w suffix → ∃ suffix', since w0 (step' w ev) suffix'.
Proof.
  intros Hs. destruct ev as [c|c e data|c|k e|k e]; cbn [step].
  - destruct (sockets w !! c); [by exists suffix|].
    eapply (since_plain w0 w suffix []);
      [done|cbn; by rewrite app_nil_r|done|cbn; eauto|plain_extra..].
  - destruct (sockets w !! c) as [s|]; [|by exists suffix].
    destruct (receiving (readyState s)); [|by exists suffix].
    eapply handles_since; [apply on_message_handles|done].
  - destruct (sockets w !! c) as [s|] eqn:Hsk; [|by exists suffix].
    destruct (receiving (readyState s)) eqn:Hr; [|by exists suffix].
    pose proof (step_close w c s Hsk Hr) as Hc. cbn [step] in Hc. rewrite Hsk, Hr in Hc.
    rewrite Hc.
    eapply (since_plain w0 w suffix []);
      [done|cbn; by rewrite app_nil_r|done|cbn; eauto|plain_extra..].
  - destruct (handlers w !! k) as [h|] eqn:Hk; [|by exists suffix].
    eapply queried_since; [apply run_query_queried|done..].
  - destruct (handlers w !! k) as [h|] eqn:Hk; [|by exists suffix].
    eapply resumed_since; [apply resume_resumed|done..].
Qed.

Lemma run_since w0 evs :
  (∀ k h, handlers w0 !! k = Some h → holds (h_stage h) = None) →
  ∃ suffix, since w0 (run' w0 evs) suffix.
Proof.
  intros Hw. induction evs as [|ev evs [suffix IH]] using rev_ind.
  - exists []. by apply since_refl.
  - rewrite run_snoc. by eapply step_since.
Qed.

(** C3.  A frame that carries a message row ([new_message] to the
    recipient, [message_sent] to the sender) is sent only after
    [createMessage] has inserted that very row.  This holds of what any
    run of the server adds to the trace, from any world in which no
    handler that waits holds a row already: the insertion is among the
    effects of that run, before the push; and it holds of the trace of
    every run of the server from its start.  In both, the row is in the
    database. *)
Theorem message_is_persisted_before_it_is_pushed :
  (∀ w evs pre to rs f post m,
     (∀ k h, handlers w !! k = Some h → holds (h_stage h) = None) →
     trace (run' w evs) = trace w ++ pre ++ Sent to rs f :: post →
     carried f = Some m →
     Inserted m ∈ pre ∧ m ∈ messages (db (run' w evs))) ∧
  (∀ d evs pre to rs f post m,
     trace (run' (boot d) evs) = pre ++ Sent to rs f :: post →
     carried f = Some m →
     Inserted m ∈ pre ∧ m ∈ messages (db (run' (boot d) evs))).
Proof.
  assert (Hany : ∀ w evs pre to rs f post m,
     (∀ k h, handlers w !! k = Some h → holds (h_stage h) = None) →
     trace (run' w evs) = trace w ++ pre ++ Sent to rs f :: post →
     carried f = Some m →
     Inserted m ∈ pre ∧ m ∈ messages (db (run' w evs))).
  { intros w evs pre to rs f post m Hw Heq Hcar.
    destruct (run_since w evs Hw) as (suffix & Ht & Ho & _ & Hs & _).
    rewrite Ht in Heq. apply app_inv_head in Heq.
    pose proof (Ho pre to rs f post m Heq Hcar) as Hin.
    split; [done|]. apply Hs. rewrite Heq, elem_of_app. by left. }
  split; [exact Hany|].
  intros d evs pre to rs f post m Heq Hcar.
  apply (Hany (boot d) evs pre to rs f post m); [by intros k h Hk|done..].
Qed.

(** Along every run from the start, routed pushes go to OPEN sockets. *)
Lemma run_routed_open d evs : routed_open (trace (run' (boot d) evs)).
Proof.
  destruct (run_since (boot d) evs) as (suffix & Ht & _ & Hr & _); [by intros k h Hk|].
  by rewrite Ht.
Qed.

Lemma step_registry_wf w ev : registry_wf w → registry_wf (step' w ev).
Proof.
  intros Hw.
  destruct (step_moved w ev)
    as [ev w' Hs Hc|c Hs|c e fields p Hr Hty Hv|c e data w' Hs Hc|c s Hs Hr].
  - intros u oc. rewrite Hc, Hs. apply Hw.
  - intros u oc Hu. destruct (Hw u oc Hu) as [? ?]. split; [done|].
    cbn. apply lookup_insert_is_Some'. by right.
  - assert (is_Some (sockets w !! c)) as [s Hs].
    { unfold ready in Hr. destruct (sockets w !! c); [by eexists|done]. }
    intros u oc. cbn. rewrite lookup_insert_Some.
    intros [[<- <-]|[_ Hu]]; cbn.
    + split; [done|]. apply lookup_alter_is_Some. by rewrite Hs.
    + destruct (Hw u oc Hu) as [? ?]. split; [done|]. by apply lookup_alter_is_Some.
  - intros u oc. rewrite Hc, Hs. intros Hu.
    destruct (Hw u oc Hu) as [? ?]. split; [done|]. by apply lookup_alter_is_Some.
  - intros u oc Hu. cbn in *.
    assert (Hu' : connections w !! u = Some oc).
    { destruct (truthy (userId s)); [|done]. by apply lookup_delete_Some in Hu as [_ ?]. }
    destruct (Hw u oc Hu') as [? ?]. split; [done|].
    apply lookup_insert_is_Some'. by right.
Qed.

(** C5 (amended).  In every run of the server the registry keeps one
    entry per user (it is a map), filed under that user's id and naming a
    socket the server accepted, and a successful authentication replaces
    the entry of its user and only that entry.  The registry by itself
    does not keep closed sockets out; the relay uses the socket it looks
    up only when its [readyState] is OPEN, so that [new_message] is never
    pushed to a socket that is not OPEN at the push. *)
Theorem registry_replaces_entries_and_routes_to_open_sockets d evs :
  let w := run' (boot d) evs in
  registry_wf w ∧
  routed_open (trace w) ∧
  (∀ c e fields p,
     receiving (ready w c) = true →
     obj_lookup fields "type" = Some (JStr "auth") →
     verifyRefreshToken' e (obj_lookup fields "token") = Some p →
     let u := payload_userId p in
     connections (step' w (Frame c e (Some (JObj fields)))) =
       <[u := mkChatConnection u c]> (connections w)).
Proof.
  split; [|split].
  - induction evs as [|ev evs IH] using rev_ind.
    + intros u oc Hu. cbn in Hu. by rewrite lookup_empty in Hu.
    + rewrite run_snoc. by apply step_registry_wf.
  - apply run_routed_open.
  - intros c e fields p Hr Hty Hv u.
    by rewrite step_frame, (auth_world _ _ _ _ Hty), Hv.
Qed.
End Properties.

(** * The properties on the sample data *)

(** Alice posts while bob is connected: the row is inserted, the
    conversation touched, bob's socket sent [new_message] and alice's
    [message_sent]. *)
Example relay_reaches_open_recipient :
  trace (sample_from both_online
           (Frame 1 sample_env (chat_frame "chat-1" "hello") :: settles 0 sample_env))
  = [Sent 1 OPEN (auth_status true); Sent 2 OPEN (auth_status true);
     Inserted sample_message; Touched (Some "chat-1") 1001;
     Sent 2 OPEN (new_message sample_message (Some (JStr "chat-1")));
     Sent 1 OPEN (message_sent sample_message)].
Proof. reflexivity. Qed.

(** Two frames in flight at once: both lookups run before either insert,
    and both rows are persisted and confirmed. *)
Example two_relays_interleave :
  let w := sample_from alice_online
             [Frame 1 sample_env (chat_frame "chat-1" "hello");
              Frame 1 sample_env (chat_frame "chat-1" "hello");
              Query 0 sample_env; Query 1 sample_env;
              Resume 1 sample_env; Resume 0 sample_env;
              Query 1 sample_env; Query 0 sample_env;
              Resume 0 sample_env; Resume 1 sample_env;
              Query 0 sample_env; Query 1 sample_env;
              Resume 1 sample_env; Resume 0 sample_env] in
  messages (db w) = [sample_message; sample_message] ∧
  trace w = [Sent 1 OPEN (auth_status true);
             Inserted sample_message; Inserted sample_message;
             Touched (Some "chat-1") 1001; Touched (Some "chat-1") 1001;
             Sent 1 OPEN (message_sent sample_message);
             Sent 1 OPEN (message_sent sample_message)].
Proof. split; reflexivity. Qed.

(** Alice posts, and carol's [auth] frame on the same connection is
    handled while the lookup is awaited: when the handler goes on, the
    connection's identity is carol, who is not in the conversation, and
    nothing is persisted or sent. *)
Example identity_is_read_after_the_lookup :
  let w := sample_from alice_online
             (Frame 1 sample_env (chat_frame "chat-1" "hello")
              :: Frame 1 sample_env (auth_frame "token-carol")
              :: settles 0 sample_env) in
  messages (db w) = [] ∧
  trace w = [Sent 1 OPEN (auth_status true); Sent 1 OPEN (auth_status true)].
Proof. split; reflexivity. Qed.

(** Carol posts into alice and bob's conversation, and alice's [auth]
    frame on the same connection is handled while the lookup is awaited:
    the row is persisted with alice as its sender. *)
Example outsider_frame_is_relayed_after_a_later_auth :
  let w := sample_from carol_online
             (Frame 1 sample_env (chat_frame "chat-1" "hello")
              :: Frame 1 sample_env (auth_frame "token-alice")
              :: settles 0 sample_env) in
  messages (db w) = [sample_message] ∧
  trace w = [Sent 1 OPEN (auth_status true); Sent 1 OPEN (auth_status true);
             Inserted sample_message; Touched (Some "chat-1") 1001;
             Sent 1 OPEN (message_sent sample_message)].
Proof. split; reflexivity. Qed.

(** Alice posts on connection 1 with bob on connection 2, and bob's
    [auth] frame on connection 1 is handled while the lookup is awaited:
    the row's sender is bob, and [new_message] goes to the socket now
    registered for alice, which is connection 1. *)
Example sender_and_recipient_follow_the_later_auth :
  let m := mkMessage "msg-1" "chat-1" "bob" "hello" false 1000 in
  let w := sample_from both_online
             (Frame 1 sample_env (chat_frame "chat-1" "hello")
              :: Frame 1 sample_env (auth_frame "token-bob")
              :: settles 0 sample_env) in
  messages (db w) = [m] ∧
  trace w = [Sent 1 OPEN (auth_status true); Sent 2 OPEN (auth_status true);
             Sent 1 OPEN (auth_status true);
             Inserted m; Touched (Some "chat-1") 1001;
             Sent 1 OPEN (new_message m (Some (JStr "chat-1")));
             Sent 1 OPEN (message_sent m)].
Proof. split; reflexivity. Qed.

(** A frame that is not JSON. *)
Example unparsable_frame_is_reported :
  trace (sample_step alice_online (Frame 1 sample_env None))
  = [Sent 1 OPEN (auth_status true); Logged SyntaxError;
     Sent 1 OPEN (error_frame "Invalid message format")].
Proof. reflexivity. Qed.

(** Alice posts without [content]: the insert fails on NOT NULL. *)
Example chat_frame_without_content_is_reported :
  let w' := sample_from alice_online
              (Frame 1 sample_env
                 (Some (JObj [("type", JStr "chat_message"); ("chatId", JStr "chat-1")]))
               :: settles 0 sample_env) in
  trace w' = [Sent 1 OPEN (auth_status true); Logged StorageError;
              Sent 1 OPEN (error_frame "Invalid message format")] ∧
  messages (db w') = [].
Proof. split; reflexivity. Qed.

(** [updateChatLastMessage] rejects after the insert: the row stays, the
    sender is sent the error frame and no [message_sent]. *)
Example rejected_touch_keeps_the_row :
  let w' := sample_from alice_online
              (Frame 1 sample_env (chat_frame "chat-1" "hello")
               :: settles 0 (failing_env OpUpdateChatLastMessage)) in
  trace w' = [Sent 1 OPEN (auth_status true); Inserted sample_message;
              Logged StorageError; Sent 1 OPEN (error_frame "Invalid message format")] ∧
  messages (db w') = [sample_message] ∧
  chats (db w') = chats sample_db.
Proof. repeat split; reflexivity. Qed.

(** An expired token: the sample verifier turns it down from time
    604800000 on. *)
Example expired_token_is_refused :
  trace (sample_step (sample_run [Connection 1])
           (Frame 1 (mkEnv 604800000 604800000 "msg-1" (λ _, false) (λ _, None))
                  (auth_frame "token-alice")))
  = [Sent 1 OPEN (auth_status false); CloseCalled 1].
Proof. reflexivity. Qed.

Lemma not_in_singleton {A} (x y : A) : x ≠ y → x ∉ [y].
Proof. intros Hne Hin. by apply list_elem_of_singleton in Hin. Qed.

(** ** C1 *)

Lemma relay_persists_one_message_witness :
  let w' := sample_from alice_online
              (Frame 1 sample_env (chat_frame "chat-1" "hello") :: settles 0 sample_env) in
  db w' = touch_chats (Some "chat-1") 1001 (insert_message sample_message (db alice_online)) ∧
  sample_message ∈ messages (db w').
Proof.
  destruct (relay_persists_one_message_and_touches_chat sample_verify None
              alice_online 1 sample_env (chat_fields "chat-1" "hello")
              "alice" "alice" "chat-1" "hello" sample_chat
              [] sample_env [] sample_env [] sample_env [] sample_env [] sample_env
              [] sample_env)
    as (_ & _ & _ & _ & _ & _ & Hin & _ & Hdb);
    try reflexivity; [discriminate|by constructor|].
  split; [exact (Hdb eq_refl)|exact Hin].
Defined.

(** The conversation's [lastMessageAt] is the server's clock reading when
    the update is called (1001), the row's [createdAt] the database's at
    the insert (1000): they are not equal. *)
Lemma lastMessageAt_differs_from_createdAt :
  let w' := sample_from alice_online
              (Frame 1 sample_env (chat_frame "chat-1" "hello") :: settles 0 sample_env) in
  ∃ m chat,
    messages (db w') = messages (db alice_online) ++ [m] ∧
    select_chat (Some "chat-1") (chats (db w')) = Some chat ∧
    lastMessageAt chat ≠ Some (createdAt m).
Proof.
  exists sample_message, (mkChat "chat-1" "alice" "bob" "listing-1" (Some 1001) 10).
  split; [reflexivity|]. split; [reflexivity|]. intros [=].
Qed.

(** ** C2 *)

(** Carol posts into a conversation she is not part of: silence. *)
Lemma declined_relay_witness :
  let w1 := sample_from carol_online [Frame 1 sample_env (chat_frame "chat-1" "hello")] in
  let w2 := sample_step w1 (Query 0 sample_env) in
  quiet w1 w2 ∧ quiet w2 (sample_step w2 (Resume 0 sample_env)).
Proof.
  destruct (declined_relay_is_silent_and_rejections_are_reported sample_verify None
              carol_online 1 sample_env (chat_fields "chat-1" "hello") "carol"
              [] sample_env [] sample_env [] sample_env [] sample_env [] sample_env
              [] sample_env)
    as (Hsilent & _); try reflexivity; [discriminate|by constructor|].
  destruct Hsilent as (H1 & H2 & _); [reflexivity| |by split].
  right. exists sample_chat. split; reflexivity.
Defined.

(** Neither a frame for a conversation that does not exist nor a frame
    from a user outside the conversation is answered with an error frame:
    the trace stays as it was. *)
Lemma unknown_conversation_and_outsider_get_no_error_frame :
  (let w' := sample_from alice_online
               (Frame 1 sample_env (chat_frame "chat-404" "hello") :: settles 0 sample_env) in
   trace w' = trace alice_online ∧ ¬ ∃ rs d, Sent 1 rs (error_frame d) ∈ trace w') ∧
  (let w' := sample_from carol_online
               (Frame 1 sample_env (chat_frame "chat-1" "hello") :: settles 0 sample_env) in
   trace w' = trace carol_online ∧ ¬ ∃ rs d, Sent 1 rs (error_frame d) ∈ trace w').
Proof.
  split; (split; [reflexivity|]); intros (rs & d & Hin);
    by apply (not_in_singleton _ (Sent 1 OPEN (auth_status true))) in Hin.
Qed.

(** ** C3 *)

Lemma message_is_persisted_before_it_is_pushed_witness :
  Inserted sample_message ∈
    [Sent 1 OPEN (auth_status true); Sent 2 OPEN (auth_status true);
     Inserted sample_message; Touched (Some "chat-1") 1001] ∧
  sample_message ∈
    messages (db (sample_from both_online
                    (Frame 1 sample_env (chat_frame "chat-1" "hello")
                     :: settles 0 sample_env))).
Proof.
  destruct (message_is_persisted_before_it_is_pushed sample_verify None) as [_ Hrun].
  apply (Hrun sample_db
           ([Connection 1; Frame 1 sample_env (auth_frame "token-alice");
             Connection 2; Frame 2 sample_env (auth_frame "token-bob");
             Frame 1 sample_env (chat_frame "chat-1" "hello")] ++ settles 0 sample_env)
           [Sent 1 OPEN (auth_status true); Sent 2 OPEN (auth_status true);
            Inserted sample_message; Touched (Some "chat-1") 1001]
           2%nat OPEN (new_message sample_message (Some (JStr "chat-1")))
           [Sent 1 OPEN (message_sent sample_message)] sample_message);
    reflexivity.
Defined.

(** ** C4 *)

Lemma chat_frame_before_auth_witness :
  sample_step (sample_run [Connection 1]) (Frame 1 sample_env (chat_frame "chat-1" "hello"))
  = sample_run [Connection 1].
Proof.
  apply (chat_frame_before_auth_is_ignored sample_verify None sample_db
           [Connection 1] 1 sample_env (chat_fields "chat-1" "hello")); [|reflexivity].
  intros ev Hin. apply list_elem_of_singleton in Hin. by subst ev.
Defined.

(** A [chat_message] frame sent before any [auth] frame gets no error
    frame back: nothing at all is sent. *)
Lemma chat_frame_before_auth_gets_no_error_frame :
  let w := sample_run [Connection 1; Frame 1 sample_env (chat_frame "chat-1" "hello")] in
  trace w = [] ∧ messages (db w) = [] ∧ ¬ ∃ rs d, Sent 1 rs (error_frame d) ∈ trace w.
Proof.
  split; [reflexivity|]. split; [reflexivity|].
  intros (rs & d & Hin). by apply elem_of_nil in Hin.
Qed.

(** ** C5 *)

(** Alice authenticates on a second connection: her entry now names it. *)
Lemma registry_replaces_entries_witness :
  let w := sample_run [Connection 1; Frame 1 sample_env (auth_frame "token-alice");
                       Connection 2] in
  connections (sample_step w (Frame 2 sample_env (auth_frame "token-alice")))
  = <["alice" := mkChatConnection "alice" 2]> (connections w).
Proof.
  destruct (registry_replaces_entries_and_routes_to_open_sockets sample_verify None
              sample_db [Connection 1; Frame 1 sample_env (auth_frame "token-alice");
                         Connection 2]) as (_ & _ & Hreplace).
  apply (Hreplace 2%nat sample_env (auth_fields "token-alice") alice_payload);
    reflexivity.
Defined.

(** Connection 1 authenticates as alice, then as carol, then closes: the
    close handler deletes carol's entry, and alice's entry stays behind,
    naming a socket that is CLOSED. *)
Lemma registry_holds_entry_of_closed_connection :
  let w := sample_run [Connection 1; Frame 1 sample_env (auth_frame "token-alice");
                       Frame 1 sample_env (auth_frame "token-carol"); Close 1] in
  connections w !! "alice" = Some (mkChatConnection "alice" 1) ∧
  ready w 1 = CLOSED.
Proof. split; reflexivity. Qed.

(** ** C6 *)

Lemma auth_binds_on_success_witness :
  let w := sample_run [Connection 1] in
  (let w' := sample_handler 1 sample_env (auth_frame "token-alice") w in
   connections w' = <["alice" := mkChatConnection "alice" 1]> (connections w) ∧
   (is_Some (sockets w !! 1%nat) → identity w' 1 = Some "alice") ∧
   (∀ c', ready w' c' = ready w c') ∧
   trace w' = trace w ++ [Sent 1 (ready w 1) (auth_status true)] ∧
   db w' = db w) ∧
  (let w' := sample_handler 1 sample_env (auth_frame "forged") w in
   trace w' = trace w ++ [Sent 1 OPEN (auth_status false); CloseCalled 1] ∧
   ready w' 1 = CLOSING ∧
   sample_step w' (Frame 1 sample_env (chat_frame "chat-1" "hello")) = w').
Proof.
  split.
  - apply (auth_binds_on_success_and_closes_on_failure sample_verify None
             (sample_run [Connection 1]) 1 sample_env (auth_fields "token-alice")).
    reflexivity.
  - destruct (auth_binds_on_success_and_closes_on_failure sample_verify None
                (sample_run [Connection 1]) 1 sample_env (auth_fields "forged")
                eq_refl) as (_ & _ & Hclosing & _ & Htrace & _ & Hignored).
    split; [exact Htrace|]. split; [by apply Hclosing|].
    apply (Hignored eq_refl [] sample_env (chat_fields "chat-1" "hello")); [|reflexivity].
    intros ev Hin. by apply elem_of_nil in Hin.
Defined.

(** Connection 1 authenticates as alice; its next [auth] frame fails and
    [ws.close()] is called; a [chat_message] frame that arrives before the
    socket has closed is relayed all the same. *)
Lemma frame_after_failed_auth_is_relayed :
  let w := sample_run [Connection 1; Frame 1 sample_env (auth_frame "token-alice");
                       Frame 1 sample_env (auth_frame "forged")] in
  let w' := sample_from w (Frame 1 sample_env (chat_frame "chat-1" "hello")
                           :: settles 0 sample_env) in
  trace w = [Sent 1 OPEN (auth_status true); Sent 1 OPEN (auth_status false);
             CloseCalled 1] ∧
  ready w 1 = CLOSING ∧
  messages (db w) = [] ∧
  messages (db w') = [sample_message] ∧
  Sent 1 CLOSING (message_sent sample_message) ∈ trace w'.
Proof.
  repeat split; try reflexivity.
  apply list_elem_of_In. vm_compute. tauto.
Qed.

(** ** C7 *)

Lemma unknown_type_is_ignored_witness :
  sample_handler 1 sample_env (Some (JObj [("type", JStr "ping")])) alice_online
  = alice_online.
Proof.
  destruct (undecodable_frames_reported_unknown_types_ignored sample_verify None
              alice_online 1 sample_env) as (_ & _ & _ & _ & _ & Hignored & _).
  apply (Hignored (JObj [("type", JStr "ping")]) (Some (JStr "ping"))); reflexivity.
Defined.

(** A frame with an unknown type tag gets no error frame, and an [auth]
    frame without its token gets [auth]/[failed] and a closing socket. *)
Lemma unknown_type_gets_no_error_frame_and_bare_auth_closes :
  (let w' := sample_step alice_online (Frame 1 sample_env (Some (JObj [("type", JStr "ping")]))) in
   trace w' = trace alice_online ∧ ¬ ∃ rs d, Sent 1 rs (error_frame d) ∈ trace w') ∧
  (let w := sample_run [Connection 1] in
   let w' := sample_step w (Frame 1 sample_env (Some (JObj [("type", JStr "auth")]))) in
   trace w' = [Sent 1 OPEN (auth_status false); CloseCalled 1] ∧
   ready w 1 = OPEN ∧ ready w' 1 = CLOSING).
Proof.
  split.
  - split; [reflexivity|]. intros (rs & d & Hin).
    by apply (not_in_singleton _ (Sent 1 OPEN (auth_status true))) in Hin.
  - repeat split; reflexivity.
Qed.

(** ** C8 *)

(** Bob is not connected when alice posts. *)
Lemma relay_confirms_sender_witness :
  let w' := sample_from alice_online
              (Frame 1 sample_env (chat_frame "chat-1" "hello") :: settles 0 sample_env) in
  messages (db w') = messages (db alice_online) ++ [sample_message] ∧
  trace w' = trace alice_online ++
             [Inserted sample_message; Touched (Some "chat-1") 1001;
              Sent 1 OPEN (message_sent sample_message)].
Proof.
  destruct (relay_confirms_sender_without_recipient sample_verify None
              alice_online 1 sample_env (chat_fields "chat-1" "hello")
              "alice" "alice" "chat-1" "hello" sample_chat
              [] sample_env [] sample_env [] sample_env [] sample_env [] sample_env
              [] sample_env)
    as (_ & _ & _ & _ & _ & _ & _ & Habsent);
    try reflexivity; [discriminate|by constructor|].
  apply (Habsent eq_refl). intros oc Hoc. discriminate Hoc.
Defined.

(** ** C9 *)

(** Alice authenticates on connection 1, then on connection 2; connection
    1 closes. *)
Lemma close_deletes_entry_of_newer_connection_witness :
  let w := sample_run [Connection 1; Connection 2] in
  let w2 := run sample_verify None w
                [Frame 1 sample_env (auth_frame "token-alice");
                 Frame 2 sample_env (auth_frame "token-alice")] in
  let w3 := sample_step w2 (Close 1) in
  connections w2 !! "alice" = Some (mkChatConnection "alice" 2) ∧
  connections w3 !! "alice" = None ∧
  ready w3 2 = OPEN ∧ identity w3 2 = Some "alice".
Proof.
  destruct (close_deletes_entry_of_newer_connection sample_verify None) as [_ Hscenario].
  apply (Hscenario (sample_run [Connection 1; Connection 2]) 1%nat 2%nat
           sample_env sample_env (auth_fields "token-alice") (auth_fields "token-alice")
           alice_payload alice_payload);
    try reflexivity; discriminate.
Defined.

(** ** C10 *)

(** Alice's token after logout: its row is gone from [auth_tokens].  The
    refresh endpoint turns the token down, as it does when alice's user
    row is gone; the WebSocket handler authenticates the connection. *)
Lemma websocket_auth_ignores_the_database_witness :
  let revoked := deleteAuthToken "token-alice" sample_db in
  let orphaned := mkDatabase (chats sample_db) [] [] (authTokens sample_db) in
  let w := set_db (λ _, revoked) (sample_run [Connection 1]) in
  let w' := sample_handler 1 sample_env (auth_frame "token-alice") w in
  refresh_accepts sample_verify None sample_env "token-alice" sample_db = true ∧
  refresh_accepts sample_verify None sample_env "token-alice" revoked = false ∧
  refresh_accepts sample_verify None sample_env "token-alice" orphaned = false ∧
  connections w' !! "alice" = Some (mkChatConnection "alice" 1) ∧
  identity w' 1 = Some "alice" ∧
  trace w' = [Sent 1 OPEN (auth_status true)].
Proof.
  split; [reflexivity|]. split; [reflexivity|]. split; [reflexivity|].
  destruct (websocket_auth_ignores_the_database sample_verify None
              (sample_run [Connection 1]) 1 sample_env (auth_fields "token-alice")
              (deleteAuthToken "token-alice" sample_db)) as (_ & _ & Hbound & _);
    [reflexivity|].
  destruct (Hbound alice_payload eq_refl) as (Hentry & Hid & _ & Htrace).
  split; [exact Hentry|]. split; [|exact Htrace].
  apply Hid. by eexists.
Defined.
(** * More properties of the WebSocket server *)

Section MoreProperties.

Variable jwt_verify : string → string → Z → option JWTPayload.
Variable JWT_REFRESH_SECRET_env : option string.

Abbreviation verifyRefreshToken'' := (verifyRefreshToken jwt_verify JWT_REFRESH_SECRET_env).
Abbreviation on_message'' := (on_message jwt_verify JWT_REFRESH_SECRET_env).
Abbreviation handles'' := (handles jwt_verify JWT_REFRESH_SECRET_env).
Abbreviation step'' := (step jwt_verify JWT_REFRESH_SECRET_env).
Abbreviation run'' := (run jwt_verify JWT_REFRESH_SECRET_env).
Abbreviation authenticates_as' := (authenticates_as jwt_verify JWT_REFRESH_SECRET_env).

(** X1.  Whatever frames arrive and whatever connections open and close,
    and however the handlers that wait are served, the WebSocket server
    only ever adds to the database: message rows stay where they are, in
    their order, with new rows after them; user rows and refresh-token
    rows are never touched; a conversation changes in its [lastMessageAt]
    at most. *)
Theorem websocket_server_only_appends w evs : grows (db w) (db (run'' w evs)).
Proof.
  induction evs as [|ev evs IH] using rev_ind; [apply grows_refl|].
  rewrite run_snoc. eapply grows_trans; [exact IH|apply step_grows].
Qed.

Lemma posted_by_participants_grows_chats d rows :
  posted_by_participants d →
  Forall2 same_conversation (chats d) rows →
  posted_by_participants (mkDatabase rows (messages d) (users d) (authTokens d)).
Proof.
  intros Hd Hrows m Hm. destruct (Hd m Hm) as (chat & Hin & Hid & Hp).
  apply list_elem_of_lookup in Hin as [i Hi].
  destruct (Forall2_lookup_l _ _ _ _ _ Hrows Hi) as (chat' & Hi' & Hsame).
  exists chat'. cbn. split; [by eapply list_elem_of_lookup_2|].
  destruct Hsame as (Hid' & ?). split; [congruence|].
  by rewrite <- (participant_same chat chat').
Qed.

Lemma vetted_at_chats d d' h :
  Forall2 same_conversation (chats d) (chats d') → vetted_at d h → vetted_at d' h.
Proof.
  intros Hrows. unfold vetted_at.
  assert (Hrow : ∀ chat, (∃ row, row ∈ chats d ∧ same_conversation chat row) →
                         ∃ row, row ∈ chats d' ∧ same_conversation chat row).
  { intros chat (row & Hin & Hsame). apply list_elem_of_lookup in Hin as [i Hi].
    destruct (Forall2_lookup_l _ _ _ _ _ Hrows Hi) as (row' & Hi' & Hsame').
    exists row'. split; [by eapply list_elem_of_lookup_2|].
    by eapply same_conversation_trans. }
  destruct (h_stage h) as [[[[chat|]|]|]|chat sender [|]| |]; try done.
  - intros [? ?]. eauto.
  - intros (? & ? & ?). eauto.
Qed.

(** The next world is vetted when its conversations are those of [w] and
    each of its handlers either waited in [w] as it does now or stands
    where the checks allow. *)
Lemma vetted_next w w' :
  vetted w →
  Forall2 same_conversation (chats (db w)) (chats (db w')) →
  (∀ k h, handlers w' !! k = Some h → handlers w !! k = Some h ∨ vetted_at (db w') h) →
  vetted w'.
Proof.
  intros Hw Hrows Hh k h Hk. destruct (Hh k h Hk) as [Hk'|]; [|done].
  eapply vetted_at_chats; [exact Hrows|]. by eapply Hw.
Qed.

Lemma staged_next k h s w w1 k' h' :
  handlers w1 = handlers w →
  vetted_at (db (staged k h s w1)) (at_stage h s) →
  handlers (staged k h s w1) !! k' = Some h' →
  handlers w !! k' = Some h' ∨ vetted_at (db (staged k h s w1)) h'.
Proof.
  intros Hw1 Hs Hk'. cbn in Hk'.
  apply list_lookup_insert_Some in Hk' as [(-> & <- & _)|[_ Hk']]; [by right|].
  left. by rewrite <- Hw1.
Qed.

Lemma step_vetted_posted w ev :
  vetted w → posted_by_participants (db w) →
  vetted (step'' w ev) ∧ posted_by_participants (db (step'' w ev)).
Proof.
  intros Hv Hp.
  assert (Hsame : ∀ w' : world, db w' = db w → handlers w' = handlers w →
                    vetted w' ∧ posted_by_participants (db w')).
  { intros w' Hd Hh. split; [|by rewrite Hd].
    apply (vetted_next w); [done|rewrite Hd; apply same_conversation_refl|].
    intros k h Hk. left. by rewrite <- Hh. }
  destruct ev as [c|c e data|c|k e|k e]; cbn [step].
  - destruct (sockets w !! c); by apply Hsame.
  - destruct (sockets w !! c) as [s|]; [|by apply Hsame].
    destruct (receiving (readyState s)); [|by apply Hsame].
    destruct (on_message_handles jwt_verify JWT_REFRESH_SECRET_env c e data w);
      try (by apply Hsame).
    split; [|done]. apply (vetted_next w); [done|apply same_conversation_refl|].
    intros k h Hk. cbn in Hk. apply lookup_app_Some in Hk as [Hk|[_ Hk]]; [by left|].
    apply list_lookup_singleton_Some in Hk as [_ <-]. by right.
  - destruct (sockets w !! c) as [s|] eqn:Hs; [|by apply Hsame].
    destruct (receiving (readyState s)) eqn:Hr; [|by apply Hsame].
    pose proof (step_close jwt_verify JWT_REFRESH_SECRET_env w c s Hs Hr) as Hc.
    cbn [step] in Hc. rewrite Hs, Hr in Hc. rewrite Hc. by apply Hsame.
  - destruct (handlers w !! k) as [h|] eqn:Hk; [|by apply Hsame].
    pose proof (Hv k h Hk) as Hat. unfold vetted_at in Hat.
    destruct (run_query_queried k e h w)
      as [|Hst|Hst|chat sender Hst|chat sender id body Hst Hr1 Hk1 Hb1|chat m t Hst
          |chat m t Hst].
    + by apply Hsame.
    + split; [|done]. apply (vetted_next w); [done|apply same_conversation_refl|].
      intros k' h'. by apply staged_next.
    + split; [|done]. apply (vetted_next w); [done|apply same_conversation_refl|].
      intros k' h'. apply staged_next; [done|]. unfold vetted_at. cbn.
      destruct (sql_param (h_env h) (h_chatId h)) as [id|] eqn:Hid; [|done].
      destruct (select_chat (Some id) (chats (db w))) as [chat|] eqn:Hc; [|done].
      rewrite (select_chat_id id _ chat Hc). split; [done|].
      exists chat. split; [by eapply select_chat_elem|].
      by repeat split.
    + split; [|done]. apply (vetted_next w); [done|apply same_conversation_refl|].
      intros k' h'. by apply staged_next.
    + rewrite Hst in Hat. destruct Hat as (Hid & Hpart & row & Hrow & Hsame').
      split.
      * apply (vetted_next w); [done|apply same_conversation_refl|].
        intros k' h'. by apply staged_next.
      * intros m' Hm'. cbn in Hm'. apply elem_of_app in Hm' as [Hm'|Hm'];
          [by apply Hp|]. apply list_elem_of_singleton in Hm' as ->.
        exists row. cbn. split; [done|]. destruct Hsame' as (Hi & ?).
        split; [congruence|]. by rewrite <- (participant_same chat row).
    + split; [|done]. apply (vetted_next w); [done|apply same_conversation_refl|].
      intros k' h'. apply staged_next; [done|]. unfold vetted_at. by cbn.
    + split.
      * apply (vetted_next w); [done|apply same_conversation_touch|].
        intros k' h'. apply staged_next; [done|]. unfold vetted_at. by cbn.
      * apply (posted_by_participants_grows_chats (db w)); [done|].
        apply same_conversation_touch.
  - destruct (handlers w !! k) as [h|] eqn:Hk; [|by apply Hsame].
    pose proof (Hv k h Hk) as Hat. unfold vetted_at in Hat.
    assert (Hret : ∀ w1 : world, db w1 = db w → handlers w1 = handlers w →
              vetted (retired k h w1) ∧ posted_by_participants (db (retired k h w1))).
    { intros w1 Hd Hh. split; [|cbn; by rewrite Hd].
      apply (vetted_next w); [done|cbn; rewrite Hd; apply same_conversation_refl|].
      intros k' h'. apply staged_next; [done|]. unfold vetted_at. by cbn. }
    destruct (resume_resumed k e h w)
      as [|err Hst|Hst|chat Hst|chat uid Hst Hid Hpart|chat sender m Hst|chat m t Hst].
    + by apply Hsame.
    + destruct (Hret w eq_refl eq_refl) as [Hv' Hp']. split; [|done].
      intros k' h' Hk'. by apply (Hv' k' h').
    + by apply Hret.
    + by apply Hret.
    + split; [|done]. apply (vetted_next w); [done|apply same_conversation_refl|].
      intros k' h'. apply staged_next; [done|]. unfold vetted_at. cbn.
      rewrite Hst in Hat. destruct Hat as (? & ?). by repeat split.
    + split; [|done]. apply (vetted_next w); [done|apply same_conversation_refl|].
      intros k' h'. apply staged_next; [done|]. unfold vetted_at. by cbn.
    + apply Hret; cbn; by rewrite ?forwarded_db, ?forwarded_handlers.
Qed.

(** X2.  The WebSocket server never persists a message for someone
    outside the conversation: if every message row of the database names a
    conversation whose buyer or seller sent it, and every handler that
    waits has come to where it stands through the handler's own checks
    (as when none waits), both are still so after any run of the
    server. *)
Theorem every_message_is_from_a_participant w evs :
  vetted w → posted_by_participants (db w) →
  posted_by_participants (db (run'' w evs)) ∧ vetted (run'' w evs).
Proof.
  intros Hv Hw. induction evs as [|ev evs [IH1 IH2]] using rev_ind; [done|].
  rewrite run_snoc. destruct (step_vetted_posted (run'' w evs) ev); done.
Qed.

(** A handler's identity and a registry entry only ever come from an
    [auth] frame whose token verifies to that user id. *)
Lemma step_identity w ev c u :
  identity (step'' w ev) c = Some u →
  identity w c = Some u ∨ authenticates_as' u ev = true.
Proof.
  destruct (step_moved jwt_verify JWT_REFRESH_SECRET_env w ev)
    as [ev w' Hs _|c' Hs|c' e fields p Hr Hty Hv|c' e data w' Hs _|c' s Hs Hr].
  - rewrite (identity_sockets w w') by done. by left.
  - unfold identity. cbn. rewrite lookup_insert. case_decide; [done|by left].
  - rewrite identity_bound. case_decide; [subst c'|by left].
    destruct (sockets w !! c); [|done].
    intros [= <-]. right. cbn. rewrite Hty, Hv. cbn.
    by rewrite !bool_decide_eq_true_2.
  - unfold identity. rewrite Hs, lookup_alter. case_decide; [subst c'|by left].
    destruct (sockets w !! c) as [[u' rs]|]; [|done]. left. by destruct rs.
  - unfold identity. cbn. rewrite lookup_insert. case_decide; [subst c'|by left].
    rewrite Hs. by left.
Qed.

Lemma step_entry w ev u oc :
  connections (step'' w ev) !! u = Some oc →
  connections w !! u = Some oc ∨ authenticates_as' u ev = true.
Proof.
  destruct (step_moved jwt_verify JWT_REFRESH_SECRET_env w ev)
    as [ev w' _ Hc|c' Hs|c' e fields p Hr Hty Hv|c' e data w' _ Hc|c' s Hs Hr].
  - rewrite Hc. by left.
  - by left.
  - cbn. rewrite lookup_insert. case_decide as Hu; [subst u|by left].
    intros _. right. cbn. rewrite Hty, Hv. cbn. by rewrite !bool_decide_eq_true_2.
  - rewrite Hc. by left.
  - cbn. destruct (truthy (userId s)); [|by left].
    intros H. apply lookup_delete_Some in H as [_ H]. by left.
Qed.

(** Where no handler holds the identity [u], no handler that waits for
    its insert has [u] as its sender, before and after a step without a
    verified [auth] frame of [u]; and the step inserts no row sent by
    [u]. *)
Lemma step_no_post w ev u :
  (∀ c, identity w c ≠ Some u) →
  (∀ k h chat sender answer, handlers w !! k = Some h →
     h_stage h = AwaitCreateMessage chat sender answer → sender ≠ u) →
  (∀ k h chat sender answer, handlers (step'' w ev) !! k = Some h →
     h_stage h = AwaitCreateMessage chat sender answer → sender ≠ u) ∧
  (∀ m, m ∈ messages (db (step'' w ev)) → senderId m = u → m ∈ messages (db w)).
Proof.
  intros Hid Hh.
  assert (Hsame : ∀ w' : world, db w' = db w → handlers w' = handlers w →
    (∀ k h chat sender answer, handlers w' !! k = Some h →
       h_stage h = AwaitCreateMessage chat sender answer → sender ≠ u) ∧
    (∀ m, m ∈ messages (db w') → senderId m = u → m ∈ messages (db w))).
  { intros w' -> ->. by split. }
  assert (Hstaged : ∀ k h s (w1 : world),
    handlers w1 = handlers w →
    (∀ chat sender answer, s = AwaitCreateMessage chat sender answer → sender ≠ u) →
    ∀ k' h' chat sender answer, handlers (staged k h s w1) !! k' = Some h' →
       h_stage h' = AwaitCreateMessage chat sender answer → sender ≠ u).
  { intros k h s w1 Hw1 Hs k' h' chat sender answer Hk' Hst. cbn in Hk'.
    apply list_lookup_insert_Some in Hk' as [(-> & <- & _)|[_ Hk']].
    - by eapply Hs.
    - rewrite Hw1 in Hk'. by eapply Hh. }
  destruct ev as [c|c e data|c|k e|k e]; cbn [step].
  - destruct (sockets w !! c); by apply Hsame.
  - destruct (sockets w !! c) as [s|]; [|by apply Hsame].
    destruct (receiving (readyState s)); [|by apply Hsame].
    destruct (on_message_handles jwt_verify JWT_REFRESH_SECRET_env c e data w);
      try (by apply Hsame).
    split; [|done]. intros k h chat sender answer Hk Hst. cbn in Hk.
    apply lookup_app_Some in Hk as [Hk|[_ Hk]]; [by eapply Hh|].
    apply list_lookup_singleton_Some in Hk as [_ <-]. done.
  - destruct (sockets w !! c) as [s|] eqn:Hs; [|by apply Hsame].
    destruct (receiving (readyState s)) eqn:Hr; [|by apply Hsame].
    pose proof (step_close jwt_verify JWT_REFRESH_SECRET_env w c s Hs Hr) as Hc.
    cbn [step] in Hc. rewrite Hs, Hr in Hc. rewrite Hc. by apply Hsame.
  - destruct (handlers w !! k) as [h|] eqn:Hk; [|by apply Hsame].
    destruct (run_query_queried k e h w)
      as [|Hst|Hst|chat sender Hst|chat sender id body Hst Hr1 Hk1 Hb1|chat m t Hst
          |chat m t Hst].
    + by apply Hsame.
    + split; [|done]. by apply Hstaged.
    + split; [|done]. by apply Hstaged.
    + split; [|done]. apply Hstaged; [done|]. intros ? ? ? [= <- <- <-]. by eapply Hh.
    + split.
      * apply Hstaged; [done|]. intros ? ? ? [= <- <- <-]. by eapply Hh.
      * intros m' Hm' Hu. cbn in Hm'. apply elem_of_app in Hm' as [Hm'|Hm']; [done|].
        apply list_elem_of_singleton in Hm' as ->. cbn in Hu. subst sender.
        by destruct (Hh k h chat u None Hk Hst).
    + split; [|done]. by apply Hstaged.
    + split; [|done]. by apply Hstaged.
  - destruct (handlers w !! k) as [h|] eqn:Hk; [|by apply Hsame].
    destruct (resume_resumed k e h w)
      as [|err Hst|Hst|chat Hst|chat uid Hst Hi Hpart|chat sender m Hst|chat m t Hst].
    + by apply Hsame.
    + split; [|done].
      change (handlers (reported err (h_ws h) (retired k h w)))
        with (handlers (retired k h w)). by apply Hstaged.
    + split; [|done]. by apply Hstaged.
    + split; [|done]. by apply Hstaged.
    + split; [|done]. apply Hstaged; [done|]. intros ? ? ? [= <- <- <-].
      intros ->. by destruct (Hid (h_ws h)).
    + split; [|done]. by apply Hstaged.
    + split; [|cbn; by rewrite forwarded_db].
      apply Hstaged; [|done]. cbn. by rewrite forwarded_handlers.
Qed.

(** X3.  Nobody posts as a user without a token of that user.  In a run
    of the server from its start in which no [auth] frame verifies with
    user id [u], no handler ever holds the identity [u], the registry has
    no entry for [u], and every message row sent by [u] was in the
    database before the server started. *)
Theorem no_post_without_a_verified_token d evs u :
  (∀ ev, ev ∈ evs → authenticates_as' u ev = false) →
  let w := run'' (boot d) evs in
  (∀ c, identity w c ≠ Some u) ∧
  connections w !! u = None ∧
  (∀ m, m ∈ messages (db w) → senderId m = u → m ∈ messages d).
Proof.
  intros Hevs. cbn zeta.
  assert (Hinv :
    (∀ c, identity (run'' (boot d) evs) c ≠ Some u) ∧
    connections (run'' (boot d) evs) !! u = None ∧
    (∀ m, m ∈ messages (db (run'' (boot d) evs)) → senderId m = u → m ∈ messages d) ∧
    (∀ k h chat sender answer, handlers (run'' (boot d) evs) !! k = Some h →
       h_stage h = AwaitCreateMessage chat sender answer → sender ≠ u)).
  { induction evs as [|ev evs IH] using rev_ind.
    - cbn. by split_and!.
    - rewrite run_snoc.
      assert (Hev : authenticates_as' u ev = false).
      { apply Hevs, elem_of_app. right. by apply list_elem_of_singleton. }
      destruct IH as (Hid & Hreg & Hmsg & Hwait).
      { intros ev' Hin. apply Hevs, elem_of_app. by left. }
      set (w := run'' (boot d) evs) in *.
      destruct (step_no_post w ev u Hid Hwait) as [Hwait' Hmsg'].
      split_and!; [| | |done].
      + intros c Hc. apply step_identity in Hc as [Hc|Hc]; [by apply (Hid c)|congruence].
      + destruct (connections (step'' w ev) !! u) as [oc|] eqn:Hoc; [|done].
        apply step_entry in Hoc as [Hoc|Hoc]; congruence.
      + intros m Hm Hu. apply Hmsg; [|done]. by apply Hmsg'. }
  destruct Hinv as (? & ? & ? & _). done.
Qed.

End MoreProperties.

(** * Properties of the HTTP routes *)

Section RouteProperties.

Variable jwt_verify : string → string → Z → option JWTPayload.
Variable jwt_sign : JWTPayload → string → string → Z → string.
Variable JWT_SECRET_env JWT_REFRESH_SECRET_env : option string.
Variable bcrypt_hash : string → string → string.
Variable bcrypt_compare : string → string → bool.
Variable js_length : string → nat.
Variable is_email is_url : string → bool.

Abbreviation verifyToken' := (verifyToken jwt_verify JWT_SECRET_env).
Abbreviation authenticateToken' := (authenticateToken jwt_verify JWT_SECRET_env).
Abbreviation generateTokens' :=
  (generateTokens jwt_sign JWT_SECRET_env JWT_REFRESH_SECRET_env).
Abbreviation register' :=
  (register jwt_sign JWT_SECRET_env JWT_REFRESH_SECRET_env bcrypt_hash js_length is_email).
Abbreviation login' :=
  (login jwt_sign JWT_SECRET_env JWT_REFRESH_SECRET_env bcrypt_compare js_length).
Abbreviation refresh' :=
  (refresh jwt_verify jwt_sign JWT_SECRET_env JWT_REFRESH_SECRET_env js_length).
Abbreviation logout' := (logout jwt_verify JWT_SECRET_env).
Abbreviation get_chats' := (get_chats jwt_verify JWT_SECRET_env).
Abbreviation ws_step := (step jwt_verify JWT_REFRESH_SECRET_env).
Abbreviation ws_run := (run jwt_verify JWT_REFRESH_SECRET_env).
Abbreviation post_chats' := (post_chats jwt_verify JWT_SECRET_env).
Abbreviation get_chat_messages' := (get_chat_messages jwt_verify JWT_SECRET_env).
Abbreviation kyc_submit' := (kyc_submit jwt_verify JWT_SECRET_env js_length is_url).
Abbreviation kyc_status' := (kyc_status jwt_verify JWT_SECRET_env).
Abbreviation kyc_approve' := (kyc_approve jwt_verify JWT_SECRET_env).
Abbreviation kyc_reject' := (kyc_reject jwt_verify JWT_SECRET_env).
Abbreviation parse_login' := (parse_login js_length).
Abbreviation parse_register' := (parse_register js_length is_email).
Abbreviation parse_refresh' := (parse_refresh js_length).
Abbreviation parse_kyc' := (parse_kyc js_length is_url).
Abbreviation issued_accessToken' := (issued_accessToken jwt_sign JWT_SECRET_env).
Abbreviation issued_refreshToken' := (issued_refreshToken jwt_sign JWT_REFRESH_SECRET_env).
Abbreviation issued_row' := (issued_row jwt_sign JWT_REFRESH_SECRET_env).
Abbreviation protected_routes' :=
  (protected_routes jwt_verify JWT_SECRET_env js_length is_url).

Ltac unfold_route :=
  unfold serve, guarded, query_of, respond, raise, look, change, parsed, body_field,
    mbind, Route_bind, mret, Route_ret.

(** The middleware reads the store and never writes it. *)
Lemma authenticateToken_store x req s : (authenticateToken' x req s).2 = s.
Proof.
  unfold authenticateToken. unfold_route.
  destruct (negb _); [done|]. destruct (verifyToken' _ _); [|done].
  destruct (fails x QGetUser); [done|]. cbn.
  destruct (Storage.getUser _ s) as [a|]; [|done]. by destruct (account_active a).
Qed.

(** When the middleware passes, [req.user] is an active account of the
    store, found under the user id of a verified token. *)
Lemma authenticateToken_Next x req s user s' :
  authenticateToken' x req s = (Next user, s') →
  s' = s ∧
  ∃ token payload a,
    bearer (authorization req) = Some token ∧ token ≠ "" ∧
    verifyToken' x token = Some payload ∧
    fails x QGetUser = false ∧
    Storage.getUser (payload_userId payload) s = Some a ∧
    account_active a = true ∧
    user = mkAuthUser (account_id a) (email a) (account_role a).
Proof.
  unfold authenticateToken. unfold_route.
  destruct (bearer (authorization req)) as [token|] eqn:Hb; [|done]. cbn.
  destruct (decide (token = "")) as [->|Hne]; [done|].
  rewrite bool_decide_eq_false_2 by done. cbn.
  destruct (verifyToken' x token) as [payload|] eqn:Hv; [|done].
  destruct (fails x QGetUser) eqn:Hf; [done|]. cbn.
  destruct (Storage.getUser _ s) as [a|] eqn:Ha; [|done].
  destruct (account_active a) eqn:Hact; [|done].
  intros [= <- <-]. split; [done|]. by exists token, payload, a.
Qed.

Lemma authenticateToken_passes x req s token payload a :
  bearer (authorization req) = Some token → token ≠ "" →
  verifyToken' x token = Some payload →
  fails x QGetUser = false →
  Storage.getUser (payload_userId payload) s = Some a →
  account_active a = true →
  authenticateToken' x req s
  = (Next (mkAuthUser (account_id a) (email a) (account_role a)), s).
Proof.
  intros Hb Hne Hv Hf Ha Hact. unfold authenticateToken. unfold_route.
  rewrite Hb. cbn. rewrite bool_decide_eq_false_2 by done. cbn.
  by rewrite Hv, Hf, Ha, Hact.
Qed.

(** What the middleware answers when it does not pass. *)
Lemma authenticateToken_Reply x req s :
  (∃ user, authenticateToken' x req s = (Next user, s)) ∨
  (∃ text, authenticateToken' x req s = (Reply (mkResponse 401 (message_body text)), s)) ∨
  authenticateToken' x req s = (Raise QueryError, s).
Proof.
  unfold authenticateToken. unfold_route.
  destruct (negb _); [right; left; eauto|].
  destruct (verifyToken' _ _); [|right; left; eauto].
  destruct (fails x QGetUser); [by right; right|]. cbn.
  destruct (Storage.getUser _ s) as [a|]; [|right; left; eauto].
  destruct (account_active a); [left|right; left]; eauto.
Qed.

Lemma Storage_getUser_id id s a : Storage.getUser id s = Some a → account_id a = id.
Proof.
  unfold Storage.getUser. intros H. apply find_some in H as [_ H].
  by apply bool_decide_eq_true in H.
Qed.

(** Each protected route starts with the middleware. *)
Lemma protected_route_gate route x req s r :
  route ∈ protected_routes' →
  authenticateToken' x req s = (Reply r, s) →
  serve (route x req) s = (Answered r, s).
Proof.
  intros Hin Hgate. unfold protected_routes in Hin.
  repeat (apply elem_of_cons in Hin as [->|Hin]);
    try (by apply elem_of_nil in Hin);
    unfold logout, get_chats, post_chats, get_chat_messages, kyc_submit, kyc_status,
      kyc_approve, kyc_reject, serve, mbind, Route_bind; by rewrite Hgate.
Qed.

(** X4.  A valid access token does not open a protected route for an
    account that has been deactivated or deleted: every route behind
    [authenticateToken] answers 401 and leaves the tables as they are. *)
Theorem deactivated_account_is_turned_away route x req s token payload :
  route ∈ protected_routes' →
  bearer (authorization req) = Some token → token ≠ "" →
  verifyToken' x token = Some payload →
  fails x QGetUser = false →
  (∀ a, Storage.getUser (payload_userId payload) s = Some a → account_active a = false) →
  serve (route x req) s
  = (Answered (mkResponse 401 (message_body "User not found or inactive")), s).
Proof.
  intros Hin Hb Hne Hv Hf Hgone. apply protected_route_gate; [done|].
  unfold authenticateToken. unfold_route.
  rewrite Hb. cbn. rewrite bool_decide_eq_false_2 by done. cbn. rewrite Hv, Hf. cbn.
  destruct (Storage.getUser _ s) as [a|] eqn:Ha; [|done]. by rewrite (Hgone a).
Qed.

(** *** The Authorization header *)

Lemma split_on_plain sep s : contains_char sep s = false → split_on sep s = [s].
Proof.
  induction s as [|b s IH]; [done|]. simpl. intros H.
  apply orb_false_iff in H as [Hb Hs]. rewrite Hb. by rewrite (IH Hs).
Qed.

Lemma split_on_first sep s t :
  contains_char sep s = false →
  split_on sep (s ++ String sep t) = s :: split_on sep t.
Proof.
  induction s as [|b s IH]; simpl.
  - intros _. by rewrite bool_decide_eq_true_2.
  - intros H. apply orb_false_iff in H as [Hb Hs]. rewrite Hb. by rewrite (IH Hs).
Qed.

(** X5.  The middleware takes the second space-separated word of the
    Authorization header as the token, whatever the first word is: the
    scheme is never checked.  A header without a space, and a request
    without the header, are answered 401 by every protected route, which
    changes nothing. *)
Theorem token_is_the_second_word_of_the_header :
  (∀ scheme token,
     contains_char " " scheme = false → contains_char " " token = false →
     bearer (Some (scheme ++ " " ++ token)%string) = Some token) ∧
  (∀ route x req s,
     route ∈ protected_routes' →
     (authorization req = None ∨
      ∃ h, authorization req = Some h ∧ contains_char " " h = false) →
     serve (route x req) s
     = (Answered (mkResponse 401 (message_body "Access token required")), s)).
Proof.
  split.
  - intros scheme token Hs Ht. unfold bearer.
    rewrite bool_decide_eq_false_2 by by destruct scheme.
    change (scheme ++ " " ++ token)%string with (scheme ++ String " " token)%string.
    by rewrite split_on_first, (split_on_plain _ token).
  - intros route x req s Hin Hh. apply protected_route_gate; [done|].
    unfold authenticateToken. unfold_route.
    destruct Hh as [->|(h & -> & Hh)]; [done|]. unfold bearer.
    destruct (bool_decide (h = "")); [done|]. by rewrite split_on_plain.
Qed.

(** *** Roles *)

(** X6.  The admin routes decide on the role stored in the account's row,
    not on the role claimed in the token: an active account whose role is
    not ['admin'] is answered 403 by the KYC approval and rejection routes,
    whatever its token's payload says, and nothing is changed. *)
Theorem admin_routes_require_the_stored_role x req s token payload a :
  bearer (authorization req) = Some token → token ≠ "" →
  verifyToken' x token = Some payload →
  fails x QGetUser = false →
  Storage.getUser (payload_userId payload) s = Some a →
  account_active a = true →
  account_role a ≠ "admin" →
  serve (kyc_approve' x req) s
  = (Answered (mkResponse 403 (message_body "Insufficient permissions")), s) ∧
  serve (kyc_reject' x req) s
  = (Answered (mkResponse 403 (message_body "Insufficient permissions")), s).
Proof.
  intros Hb Hne Hv Hf Ha Hact Hrole.
  pose proof (authenticateToken_passes x req s token payload a Hb Hne Hv Hf Ha Hact) as Hpass.
  assert (Hnot : bool_decide (account_role a ∈ ["admin"]) = false).
  { apply bool_decide_eq_false_2. by intros Hin%list_elem_of_singleton. }
  split; unfold kyc_approve, kyc_reject, requireRole, serve, mbind, Route_bind;
    rewrite Hpass; cbv beta iota zeta; cbn [auth_role]; by rewrite Hnot.
Qed.

(** *** Conversations *)

Global Instance earlier_total : Total earlier.
Proof. intros a b. unfold earlier. lia. Qed.

Global Instance later_total : Total later.
Proof.
  intros a b. unfold later.
  destruct (lastMessageAt a), (lastMessageAt b); try tauto. lia.
Qed.

Lemma filter_elem {A} (p : A → bool) (l : list A) a :
  a ∈ List.filter p l ↔ a ∈ l ∧ p a = true.
Proof. rewrite !list_elem_of_In. apply filter_In. Qed.

Lemma find_app_none {A} (p : A → bool) (l k : list A) :
  List.find p l = None → List.find p (l ++ k) = List.find p k.
Proof. induction l as [|a l IH]; [done|]. cbn. by destruct (p a). Qed.

Lemma existsb_false_elem {A} (p : A → bool) (l : list A) a :
  existsb p l = false → a ∈ l → p a = false.
Proof.
  intros H Hin. apply not_true_is_false. intros Hp.
  apply not_true_iff_false in H. apply H, existsb_exists. exists a.
  by split; [apply list_elem_of_In|].
Qed.

Lemma find_none_elem {A} (p : A → bool) (l : list A) a :
  List.find p l = None → a ∈ l → p a = false.
Proof. intros H Hin. apply (find_none p l H). by apply list_elem_of_In. Qed.

(** The lookup finds a row when one matches, and then one that matches,
    whichever the database returns first. *)
Lemma getChatByParticipants_Some n buyer seller listing s chat :
  Storage.getChatByParticipants n buyer (Some seller) (Some listing) s = Some chat →
  chat ∈ Storage.chatsByParticipants buyer seller listing s.
Proof. cbn. intros H. by eapply list_elem_of_lookup_2. Qed.

Lemma getChatByParticipants_None n buyer seller listing s :
  Storage.getChatByParticipants n buyer (Some seller) (Some listing) s = None ↔
  Storage.chatsByParticipants buyer seller listing s = [].
Proof.
  cbn. split; [|by intros ->].
  destruct (Storage.chatsByParticipants buyer seller listing s) as [|row rows] eqn:E;
    [done|].
  intros H. apply lookup_ge_None in H.
  pose proof (Nat.mod_upper_bound n (length (row :: rows))) as Hlt.
  cbn in *. lia.
Qed.

Lemma chatsByParticipants_elem buyer seller listing s row :
  row ∈ Storage.chatsByParticipants buyer seller listing s ↔
  row ∈ chat_rows s ∧ buyerId row = buyer ∧ sellerId row = seller ∧ listingId row = listing.
Proof.
  unfold Storage.chatsByParticipants. rewrite filter_elem.
  rewrite !andb_true_iff, !bool_decide_eq_true.
  split; [intros (Hin & (Hb & Hs) & Hl)|intros (Hin & Hb & Hs & Hl)];
    (split; [exact Hin|]); [split; [exact Hb|]; split; [exact Hs|exact Hl]|].
  split; [split; [exact Hb|exact Hs]|exact Hl].
Qed.

(** What [POST /api/chats] can do to the tables: nothing; or what the
    requests served in between did; or, on top of that, one row added
    for a buyer, seller and listing that had none at the lookup. *)
Lemma post_chats_rows x req s :
  let s' := (serve (post_chats' x req) s).2 in
  s' = s ∨ s' = meanwhile x s ∨
  ∃ row, s' = set_chat_rows (λ rows, rows ++ [row]) (meanwhile x s) ∧
         ∀ old, old ∈ chat_rows s →
                ¬ (buyerId old = buyerId row ∧ sellerId old = sellerId row ∧
                   listingId old = listingId row).
Proof.
  cbn zeta. unfold post_chats, createChat. unfold_route.
  destruct (authenticateToken_Reply x req s) as [[user ->]|[[text ->]| ->]];
    [|by left..].
  destruct (req_body req) as [v|]; [|by left].
  destruct (field v "sellerId") as [seller|]; [|by left]. cbn.
  destruct (field v "listingId") as [listing|]; [|by left]. cbn.
  destruct (fails x QGetChatByParticipants); [by left|]. cbn.
  destruct (Storage.getChatByParticipants _ _ _ _ s) as [chat|] eqn:Hfound; [by left|].
  cbn. destruct (fails x QCreateChat); [by right; left|]. cbn.
  destruct (sql_param (moment x) seller) as [sl|]; [|by right; left].
  destruct (sql_param (moment x) listing) as [l|]; [|by right; left].
  destruct (existsb _ (chat_rows (meanwhile x s))); [by right; left|]. cbn.
  right. right. eexists. split; [reflexivity|]. cbn. intros old Hold (Hb & Hs & Hl).
  apply getChatByParticipants_None in Hfound.
  assert (Hin : old ∈ Storage.chatsByParticipants (auth_id user) sl l s).
  { apply chatsByParticipants_elem. split; [exact Hold|].
    split; [exact Hb|]. split; [exact Hs|exact Hl]. }
  rewrite Hfound in Hin. exact (proj1 (elem_of_nil old) Hin).
Qed.

Lemma one_chat_per_triple_snoc rows row :
  one_chat_per_triple rows →
  (∀ old, old ∈ rows →
          ¬ (buyerId old = buyerId row ∧ sellerId old = sellerId row ∧
             listingId old = listingId row)) →
  one_chat_per_triple (rows ++ [row]).
Proof.
  intros Hs Hnew i j a b Hi Hj Hb Hsl Hl.
  destruct (decide (i < length rows)%nat) as [Hil|Hil],
           (decide (j < length rows)%nat) as [Hjl|Hjl].
  - rewrite lookup_app_l in Hi, Hj by done. by eapply Hs.
  - rewrite lookup_app_l in Hi by done. rewrite lookup_app_r in Hj by lia.
    destruct (j - length rows)%nat; [|done]. cbn in Hj. simplify_eq.
    destruct (Hnew a); [by eapply list_elem_of_lookup_2|done].
  - rewrite lookup_app_l in Hj by done. rewrite lookup_app_r in Hi by lia.
    destruct (i - length rows)%nat; [|done]. cbn in Hi. simplify_eq.
    destruct (Hnew b); [by eapply list_elem_of_lookup_2|done].
  - rewrite lookup_app_r in Hi, Hj by lia.
    destruct (i - length rows)%nat eqn:Ei; [|done].
    destruct (j - length rows)%nat eqn:Ej; [|done]. lia.
Qed.

(** The answer to a caller who names a seller and a listing, with the
    storage calls resolving. *)
Lemma post_chats_found x req s user fields seller listing chat :
  authenticateToken' x req s = (Next user, s) →
  req_body req = Some (JObj fields) →
  obj_lookup fields "sellerId" = Some (JStr seller) →
  obj_lookup fields "listingId" = Some (JStr listing) →
  fails x QGetChatByParticipants = false →
  Storage.getChatByParticipants (pick x) (auth_id user) (Some seller) (Some listing) s
  = Some chat →
  serve (post_chats' x req) s = (Answered (mkResponse 200 (chat_body chat)), s).
Proof.
  intros Hg Hbody Hseller Hlisting Hq Hchat. unfold post_chats. unfold_route.
  rewrite Hg, Hbody. cbn [field]. rewrite Hseller, Hlisting, Hq. cbn [sql_param].
  by rewrite Hchat.
Qed.

Lemma post_chats_created x req s user fields seller listing :
  authenticateToken' x req s = (Next user, s) →
  req_body req = Some (JObj fields) →
  obj_lookup fields "sellerId" = Some (JStr seller) →
  obj_lookup fields "listingId" = Some (JStr listing) →
  fails x QGetChatByParticipants = false →
  fails x QCreateChat = false →
  Storage.chatsByParticipants (auth_id user) seller listing s = [] →
  (∀ row, row ∈ chat_rows (meanwhile x s) → chat_id row ≠ uuid x 0) →
  let row := mkChat (uuid x 0) (auth_id user) seller listing None (database_clock x) in
  serve (post_chats' x req) s
  = (Answered (mkResponse 201 (chat_body row)),
     set_chat_rows (λ rows, rows ++ [row]) (meanwhile x s)).
Proof.
  intros Hgate Hbody Hseller Hlisting Hf Hc Hnone Hfresh row.
  unfold post_chats, createChat. unfold_route.
  rewrite Hgate, Hbody. cbn [field]. rewrite Hseller, Hlisting, Hf. cbn [sql_param].
  rewrite (proj2 (getChatByParticipants_None _ _ _ _ _) Hnone). cbn.
  rewrite Hc. cbn [sql_param].
  replace (existsb _ (chat_rows (meanwhile x s))) with false; [done|].
  symmetry. apply not_true_is_false. intros (old & Hin & Hid)%existsb_exists.
  apply bool_decide_eq_true in Hid. by apply (Hfresh old); [apply list_elem_of_In|].
Qed.

(** X7.  [POST /api/chats] looks up before it creates, in two statements
    that nothing ties together.  When no request served in between
    writes a conversation, a table that holds at most one conversation
    for each buyer, seller and listing still does after the request.
    When a second request of the same caller for the same seller and
    listing is served in between, each finds no conversation, each is
    answered 201 with a row of its own, and the table holds both rows for
    the one buyer, seller and listing. *)
Theorem post_chats_keeps_one_chat_per_triple x req s :
  (chat_rows (meanwhile x s) = chat_rows s →
   one_chat_per_triple (chat_rows s) →
   one_chat_per_triple (chat_rows (serve (post_chats' x req) s).2)) ∧
  (∀ x2 user fields seller listing,
     authenticateToken' x req s = (Next user, s) →
     authenticateToken' x2 req s = (Next user, s) →
     req_body req = Some (JObj fields) →
     obj_lookup fields "sellerId" = Some (JStr seller) →
     obj_lookup fields "listingId" = Some (JStr listing) →
     fails x QGetChatByParticipants = false → fails x QCreateChat = false →
     fails x2 QGetChatByParticipants = false → fails x2 QCreateChat = false →
     Storage.chatsByParticipants (auth_id user) seller listing s = [] →
     (∀ row, row ∈ chat_rows s → chat_id row ≠ uuid x 0 ∧ chat_id row ≠ uuid x2 0) →
     uuid x 0 ≠ uuid x2 0 →
     meanwhile x2 s = s →
     meanwhile x s = (serve (post_chats' x2 req) s).2 →
     let row2 := mkChat (uuid x2 0) (auth_id user) seller listing None (database_clock x2) in
     let row := mkChat (uuid x 0) (auth_id user) seller listing None (database_clock x) in
     serve (post_chats' x2 req) s
     = (Answered (mkResponse 201 (chat_body row2)),
        set_chat_rows (λ rows, rows ++ [row2]) s) ∧
     serve (post_chats' x req) s
     = (Answered (mkResponse 201 (chat_body row)),
        set_chat_rows (λ rows, (rows ++ [row2]) ++ [row]) s) ∧
     ¬ one_chat_per_triple (chat_rows (serve (post_chats' x req) s).2)).
Proof.
  split.
  - intros Hquiet Hs.
    destruct (post_chats_rows x req s) as [->|[->|(row & -> & Hnew)]]; [done|by rewrite Hquiet|].
    cbn. rewrite Hquiet. by apply one_chat_per_triple_snoc.
  - intros x2 user fields seller listing Hg Hg2 Hbody Hseller Hlisting Hf Hc Hf2 Hc2
           Hnone Hfresh Hne Hm2 Hm row2 row.
    assert (E2 : serve (post_chats' x2 req) s
                 = (Answered (mkResponse 201 (chat_body row2)),
                    set_chat_rows (λ rows, rows ++ [row2]) s)).
    { rewrite (post_chats_created x2 req s user fields seller listing) by
        (try done; rewrite Hm2; intros old Hold; by apply Hfresh).
      by rewrite Hm2. }
    assert (E1 : serve (post_chats' x req) s
                 = (Answered (mkResponse 201 (chat_body row)),
                    set_chat_rows (λ rows, (rows ++ [row2]) ++ [row]) s)).
    { rewrite (post_chats_created x req s user fields seller listing); try done.
      - by rewrite Hm, E2.
      - rewrite Hm, E2. cbn. intros old Hold.
        apply elem_of_app in Hold as [Hold|Hold]; [by apply Hfresh|].
        apply list_elem_of_singleton in Hold as ->. cbn. congruence. }
    split; [done|]. split; [done|]. rewrite E1. cbn. intros Hone.
    set (n := length (chat_rows s)).
    assert (H2 : ((chat_rows s ++ [row2]) ++ [row]) !! n = Some row2).
    { rewrite lookup_app_l by (rewrite length_app; cbn; lia).
      rewrite lookup_app_r by done. by rewrite Nat.sub_diag. }
    assert (H1 : ((chat_rows s ++ [row2]) ++ [row]) !! S n = Some row).
    { rewrite lookup_app_r by (rewrite length_app; cbn; lia).
      rewrite length_app. cbn [length]. fold n.
      by replace (S n - (n + 1))%nat with 0%nat by lia. }
    pose proof (Hone n (S n) row2 row H2 H1 eq_refl eq_refl eq_refl). lia.
Qed.

(** X8.  [POST /api/chats] finds or creates.  For an authenticated caller
    who names a seller and a listing, with the storage calls resolving:
    when the table holds conversations of the caller as buyer with that
    seller on that listing, one of them, whichever the database returns
    first, is returned with 200 and nothing is written; when it holds
    none at the lookup, one row is appended to what the table is when the
    insert runs, whose buyer is the caller, without any message time, and
    it is returned with 201; and the same request, made at any later
    moment at which that row is still in the table, gets a conversation
    of that buyer, seller and listing back with 200 and writes
    nothing. *)
Theorem post_chats_finds_or_creates x req s user fields seller listing :
  authenticateToken' x req s = (Next user, s) →
  req_body req = Some (JObj fields) →
  obj_lookup fields "sellerId" = Some (JStr seller) →
  obj_lookup fields "listingId" = Some (JStr listing) →
  fails x QGetChatByParticipants = false →
  fails x QCreateChat = false →
  (∀ row, row ∈ chat_rows (meanwhile x s) → chat_id row ≠ uuid x 0) →
  match Storage.chatsByParticipants (auth_id user) seller listing s with
  | first :: rest =>
      ∃ chat, (first :: rest) !! (pick x mod length (first :: rest))%nat = Some chat ∧
              serve (post_chats' x req) s
              = (Answered (mkResponse 200 (chat_body chat)), s)
  | [] =>
      let row := mkChat (uuid x 0) (auth_id user) seller listing None (database_clock x) in
      let s' := set_chat_rows (λ rows, rows ++ [row]) (meanwhile x s) in
      serve (post_chats' x req) s = (Answered (mkResponse 201 (chat_body row)), s') ∧
      ∀ x' s'',
        row ∈ chat_rows s'' →
        authenticateToken' x' req s'' = (Next user, s'') →
        fails x' QGetChatByParticipants = false →
        ∃ chat, serve (post_chats' x' req) s''
                = (Answered (mkResponse 200 (chat_body chat)), s'') ∧
                chat ∈ chat_rows s'' ∧ buyerId chat = auth_id user ∧
                sellerId chat = seller ∧ listingId chat = listing
  end.
Proof.
  intros Hgate Hbody Hseller Hlisting Hf Hc Hfresh.
  destruct (Storage.chatsByParticipants (auth_id user) seller listing s)
    as [|first rest] eqn:Hrows.
  - cbn zeta. split; [by apply (post_chats_created x req s user fields seller listing)|].
    intros x' s'' Hin Hg Hq.
    set (row := mkChat (uuid x 0) (auth_id user) seller listing None (database_clock x)) in *.
    destruct (Storage.getChatByParticipants (pick x') (auth_id user) (Some seller)
                (Some listing) s'') as [chat|] eqn:Hchat.
    + exists chat. split; [by eapply post_chats_found|].
      by apply chatsByParticipants_elem, (getChatByParticipants_Some (pick x')).
    + apply getChatByParticipants_None in Hchat.
      assert (Hrow : row ∈ Storage.chatsByParticipants (auth_id user) seller listing s'')
        by by apply chatsByParticipants_elem.
      rewrite Hchat in Hrow. by apply elem_of_nil in Hrow.
  - destruct (lookup_lt_is_Some_2 (first :: rest) (pick x mod length (first :: rest))%nat)
      as [chat Hchat].
    { apply Nat.mod_upper_bound. cbn. lia. }
    exists chat. split; [done|].
    apply (post_chats_found x req s user fields seller listing); try done.
    cbn. by rewrite Hrows.
Qed.

(** *** Reading conversations and their history *)

(** X9.  [GET /api/chats/:id/messages] only reads, and only for a
    participant: whatever the request, the tables are left as they are; and
    whenever a list of messages is sent, the status is 200, the caller
    passed [authenticateToken], the conversation named in the path exists
    and the caller is its buyer or its seller, and the list holds exactly
    the rows of that conversation, oldest first. *)
Theorem history_is_read_only_and_for_participants x req s :
  (serve (get_chat_messages' x req) s).2 = s ∧
  ∀ code rows,
    (serve (get_chat_messages' x req) s).1 = Answered (mkResponse code (messages_body rows)) →
    code = 200%nat ∧
    ∃ user chat,
      authenticateToken' x req s = (Next user, s) ∧
      Storage.getChat (Some (param req)) s = Some chat ∧
      (buyerId chat = auth_id user ∨ sellerId chat = auth_id user) ∧
      rows ≡ₚ List.filter (λ m, bool_decide (chatId m = param req)) (message_rows s) ∧
      Sorted earlier rows.
Proof.
  unfold get_chat_messages. unfold_route.
  destruct (authenticateToken_Reply x req s) as [[user Hgate]|[[text ->]| ->]];
    [|by split..].
  rewrite Hgate.
  destruct (fails x QGetChat); [by split|]. cbv beta iota.
  destruct (Storage.getChat _ s) as [chat|] eqn:Hchat; [|by split].
  destruct (negb _ && negb _) eqn:Hpart; [by split|].
  destruct (fails x QGetChatMessages); [by split|]. cbv beta iota.
  split; [done|]. intros code rows [= <- <-]. split; [done|].
  exists user, chat. repeat split; try done.
  - apply andb_false_iff in Hpart as [H|H]; apply negb_false_iff, bool_decide_eq_true in H;
      [by left|by right].
  - apply merge_sort_Permutation.
  - apply (Sorted_merge_sort earlier).
Qed.

(** X10.  [GET /api/chats] only reads, and lists the caller's own
    conversations: whatever the request, the tables are left as they are;
    and whenever a list of conversations is sent, the caller passed
    [authenticateToken], the list holds exactly the rows in which the caller
    is the buyer or the seller, and it is ordered by the time of the last
    message, latest first, conversations without any message leading. *)
Theorem chat_list_is_read_only_and_the_callers_own x req s :
  (serve (get_chats' x req) s).2 = s ∧
  ∀ code rows,
    (serve (get_chats' x req) s).1 = Answered (mkResponse code (chats_body rows)) →
    code = 200%nat ∧
    ∃ user,
      authenticateToken' x req s = (Next user, s) ∧
      (∀ row, row ∈ rows ↔
              row ∈ chat_rows s ∧ (buyerId row = auth_id user ∨ sellerId row = auth_id user)) ∧
      length rows = length (List.filter (λ row, participant row (auth_id user)) (chat_rows s)) ∧
      Sorted later rows.
Proof.
  unfold get_chats. unfold_route.
  destruct (authenticateToken_Reply x req s) as [[user Hgate]|[[text ->]| ->]];
    [|by split..].
  rewrite Hgate.
  destruct (fails x QGetChats); [by split|]. cbv beta iota.
  split; [done|]. intros code rows [= <- <-]. split; [done|].
  exists user. split; [done|]. unfold Storage.getChats. split; [|split].
  - intros row. rewrite merge_sort_Permutation, filter_elem, orb_true_iff.
    by rewrite !bool_decide_eq_true.
  - by rewrite merge_sort_Permutation.
  - apply (Sorted_merge_sort later).
Qed.


(** X12.  [markMessagesAsRead(chatId, userId)] marks the messages that
    the named user SENT in the conversation, not the ones the user
    received: afterwards every row of the conversation with that sender is
    read; every row of another sender, or of another conversation, is left
    as it was, in its place; accounts, conversations and tokens are not
    touched; and marking twice is marking once. *)
Theorem markMessagesAsRead_marks_the_rows_the_user_sent chat user s :
  let s' := Storage.markMessagesAsRead chat user s in
  (∀ m, m ∈ message_rows s' → chatId m = chat → senderId m = user → isRead m = true) ∧
  (∀ i m, message_rows s !! i = Some m → (senderId m ≠ user ∨ chatId m ≠ chat) →
          message_rows s' !! i = Some m) ∧
  length (message_rows s') = length (message_rows s) ∧
  (accounts s', chat_rows s', token_rows s') = (accounts s, chat_rows s, token_rows s) ∧
  Storage.markMessagesAsRead chat user s' = s'.
Proof.
  cbn zeta. unfold Storage.markMessagesAsRead, set_message_rows. cbn.
  split; [|split; [|split; [|split]]].
  - intros m (m0 & -> & _)%list_elem_of_fmap Hc Hs.
    destruct (bool_decide (chatId m0 = chat)) eqn:E1,
             (bool_decide (senderId m0 = user)) eqn:E2; cbn in *; try done;
      apply bool_decide_eq_false in E1 || apply bool_decide_eq_false in E2; done.
  - intros i m Hi Hother. rewrite list_lookup_fmap, Hi. cbn.
    destruct Hother as [H|H]; rewrite (bool_decide_eq_false_2 _ H);
      by rewrite ?andb_false_r.
  - by rewrite length_fmap.
  - done.
  - f_equal. rewrite <- list_fmap_compose. apply list_fmap_ext. intros _ m _. cbn.
    by destruct (bool_decide (chatId m = chat) && bool_decide (senderId m = user)) eqn:E;
      cbn; rewrite E.
Qed.

(** *** Sessions: login, registration, refresh and logout *)

(** [generateTokens] stores the row of the refresh token and returns the
    pair, or rejects without writing. *)
Lemma generateTokens_cases x user role s :
  generateTokens' x user role s = (Raise QueryError, s) ∨
  generateTokens' x user role s
  = (Next (issued_accessToken' x user role, issued_refreshToken' x user role),
     set_token_rows (λ rows, rows ++ [issued_row' x user role]) s) ∧
  fails x QCreateAuthToken = false ∧
  ∀ row, row ∈ token_rows s →
         token_id row ≠ uuid x 1 ∧ refreshToken row ≠ issued_refreshToken' x user role.
Proof.
  unfold generateTokens, createAuthToken. unfold_route.
  destruct (fails x QCreateAuthToken); [by left|]. cbv beta iota.
  destruct (existsb _ (token_rows s)) eqn:Hdup; [by left|].
  right. split; [done|]. split; [done|]. intros row Hin.
  pose proof (existsb_false_elem _ _ row Hdup Hin) as Hno. cbv beta in Hno.
  apply orb_false_iff in Hno as [H1 H2].
  by apply bool_decide_eq_false in H1, H2.
Qed.

Ltac turned_away :=
  left; unfold_route; cbn [fst snd];
  split; [reflexivity|];
  do 2 eexists; (split; [reflexivity|]); first [by left | by right].

(** X13.  [POST /api/auth/login] issues tokens only for an account it has
    checked.  Either the tables are left as they are and the answer is a
    400 or a 401; or the body passed [loginSchema], the account is the one
    whose e-mail is the identifier, or, when no e-mail matches, the one
    whose phone is, it is active and [bcrypt.compare] accepted the
    password, and then the answer is 200 with that account's summary and
    a fresh pair of tokens, and one row, for that account and with the
    refresh token that is sent, has been added to the token table. *)
Theorem login_issues_tokens_only_for_a_checked_account x req s :
  ((serve (login' x req) s).2 = s ∧
   ∃ code b, (serve (login' x req) s).1 = Answered (mkResponse code b) ∧
             (code = 400 ∨ code = 401)%nat)
  ∨
  ∃ identifier pw a,
    parse_login' (req_body req) = Some (identifier, pw) ∧
    (Storage.getUserByEmail identifier s = Some a ∨
     Storage.getUserByEmail identifier s = None ∧
     Storage.getUserByPhone identifier s = Some a) ∧
    account_active a = true ∧
    bcrypt_compare pw (password a) = true ∧
    serve (login' x req) s
    = (Answered (mkResponse 200
         (session_body "Login successful" (summary a)
            (issued_accessToken' x (account_id a) (account_role a))
            (issued_refreshToken' x (account_id a) (account_role a)))),
       set_token_rows (λ rows, rows ++ [issued_row' x (account_id a) (account_role a)]) s).
Proof.
  unfold login. unfold_route.
  destruct (parse_login' (req_body req)) as [[identifier pw]|]; [|turned_away].
  cbn [fst snd].
  destruct (fails x QGetUserByEmail); [turned_away|]. cbv beta iota.
  destruct (Storage.getUserByEmail identifier s) as [a|] eqn:Hmail.
  2: destruct (fails x QGetUserByPhone); [turned_away|]; cbv beta iota.
  2: destruct (Storage.getUserByPhone identifier s) as [a|] eqn:Hphone; [|turned_away].
  all: destruct (account_active a) eqn:Hact; cbn [negb]; [|turned_away].
  all: destruct (bcrypt_compare pw (password a)) eqn:Hpw; cbn [negb]; [|turned_away].
  all: destruct (generateTokens_cases x (account_id a) (account_role a) s)
         as [->|(-> & _ & _)]; [turned_away|].
  all: right; exists identifier, pw, a; cbn [fst snd]; repeat split; auto.
Qed.

Lemma parse_role_cases v r : parse_role v = Some r → r = "seller" ∨ r = "buyer".
Proof.
  unfold parse_role. destruct v as [[]|]; try done; [|intros [= <-]; by right].
  destruct (bool_decide (s = "seller")) eqn:E1; cbn.
  - apply bool_decide_eq_true in E1. intros [= <-]. by left.
  - destruct (bool_decide (s = "buyer")) eqn:E2; [|done].
    apply bool_decide_eq_true in E2. intros [= <-]. by right.
Qed.

Lemma parse_register_role b data :
  parse_register' b = Some data → reg_role data = "seller" ∨ reg_role data = "buyer".
Proof.
  unfold parse_register. destruct b as [[]|]; try done.
  repeat match goal with
         | |- context [match z_string ?v with _ => _ end] => destruct (z_string v); [|done]
         end.
  destruct (parse_role _) as [r|] eqn:Hr; [|done].
  destruct (_ && _); [|done]. intros [= <-]. cbn. by eapply parse_role_cases.
Qed.

Lemma find_none_all {A} (p : A → bool) (l : list A) :
  List.find p l = None → ∀ a, a ∈ l → p a = false.
Proof. intros H a Hin. by eapply find_none_elem. Qed.

(** X14.  [POST /api/auth/register] creates nothing but an active buyer
    or seller whose verification is pending.  Either the tables are left
    as they are and the answer is a 400; or the body passed
    [registerSchema], no account had the e-mail or the phone, and one
    account has been added: with the role of the body, which is [seller] or
    [buyer] and never [admin], active, [kycStatus] pending and without KYC
    data, and with the hash in place of the password.  Then either the
    answer is 201 with a pair of tokens whose row has been stored too, or
    storing that row was rejected and the answer is a 400 although the
    account stays. *)
Theorem register_creates_only_pending_buyers_and_sellers x req s :
  ((serve (register' x req) s).2 = s ∧
   ∃ b, (serve (register' x req) s).1 = Answered (mkResponse 400 b))
  ∨
  ∃ data,
    parse_register' (req_body req) = Some data ∧
    (reg_role data = "seller" ∨ reg_role data = "buyer") ∧
    (∀ old, old ∈ accounts s →
            email old ≠ reg_email data ∧ phone old ≠ Some (reg_phone data) ∧
            account_id old ≠ uuid x 0) ∧
    let a := mkAccount (mkUser (uuid x 0) (reg_role data) true)
                       (reg_email data) (Some (reg_phone data))
                       (bcrypt_hash (reg_password data) (salt x))
                       (reg_firstName data) (reg_lastName data)
                       kyc_pending None None (database_clock x) (database_clock x) in
    let s1 := set_accounts (λ rows, rows ++ [a]) s in
    serve (register' x req) s
    = (Answered (mkResponse 201
         (session_body "User registered successfully" (summary a)
            (issued_accessToken' x (uuid x 0) (reg_role data))
            (issued_refreshToken' x (uuid x 0) (reg_role data)))),
       set_token_rows (λ rows, rows ++ [issued_row' x (uuid x 0) (reg_role data)]) s1)
    ∨
    serve (register' x req) s
    = (Answered (mkResponse 400 (caught_body QueryError "Registration failed")), s1).
Proof.
  unfold register, createUser. unfold_route.
  destruct (parse_register' (req_body req)) as [data|] eqn:Hparse;
    [|left; split; [done|eauto]].
  destruct (fails x QGetUserByEmail); [left; split; [done|eauto]|]. cbv beta iota.
  destruct (Storage.getUserByEmail _ s) eqn:Hmail; [left; split; [done|eauto]|].
  destruct (fails x QGetUserByPhone); [left; split; [done|eauto]|]. cbv beta iota.
  destruct (Storage.getUserByPhone _ s) eqn:Hphone; [left; split; [done|eauto]|].
  destruct (fails x QCreateUser); [left; split; [done|eauto]|]. cbv beta iota.
  destruct (existsb _ (accounts s)) eqn:Hdup; [left; split; [done|eauto]|].
  right. exists data. split; [done|]. split; [by eapply parse_register_role|].
  split.
  { intros old Hin.
    pose proof (find_none_all _ _ Hmail old Hin) as H1.
    pose proof (find_none_all _ _ Hphone old Hin) as H2.
    pose proof (existsb_false_elem _ _ old Hdup Hin) as H3. cbv beta in *.
    apply bool_decide_eq_false in H1, H2.
    apply orb_false_iff in H3 as [[H3 _]%orb_false_iff _].
    by apply bool_decide_eq_false in H3. }
  cbv zeta. cbn [account_id account_role account_user user_id user_role].
  match goal with
  | |- context [generateTokens' x ?u ?r ?s1] =>
      destruct (generateTokens_cases x u r s1) as [->|(-> & _ & _)]
  end; [by right|by left].
Qed.

(** X15.  Registration is not undone when it fails half way.  When the
    body is valid, the e-mail and the phone are free and the account row
    is stored, but storing the row of the refresh token is rejected, the
    answer is a 400, no token is stored, and the account stays; the same
    registration sent again is then turned away with "User already exists
    with this email". *)
Theorem register_keeps_the_account_when_the_token_row_is_rejected x req s data :
  parse_register' (req_body req) = Some data →
  Storage.getUserByEmail (reg_email data) s = None →
  Storage.getUserByPhone (reg_phone data) s = None →
  (∀ old, old ∈ accounts s → account_id old ≠ uuid x 0) →
  fails x QGetUserByEmail = false → fails x QGetUserByPhone = false →
  fails x QCreateUser = false →
  fails x QCreateAuthToken = true →
  ∃ s1,
    serve (register' x req) s
    = (Answered (mkResponse 400 (caught_body QueryError "Registration failed")), s1) ∧
    token_rows s1 = token_rows s ∧
    (∃ a, Storage.getUserByEmail (reg_email data) s1 = Some a ∧
          account_id a = uuid x 0 ∧ account_active a = true) ∧
    ∀ x', fails x' QGetUserByEmail = false →
          serve (register' x' req) s1
          = (Answered (mkResponse 400 (message_body "User already exists with this email")),
             s1).
Proof.
  intros Hparse Hmail Hphone Hfresh Hf1 Hf2 Hf3 Hf4.
  eexists. split; [|split; [|split]].
  - unfold register, createUser, generateTokens, createAuthToken. unfold_route.
    rewrite Hparse, Hf1. cbv beta iota. rewrite Hmail, Hf2. cbv beta iota.
    rewrite Hphone, Hf3. cbv beta iota.
    replace (existsb _ (accounts s)) with false; [by rewrite Hf4|].
    symmetry. apply not_true_is_false. intros (old & Hin%list_elem_of_In & Hold)%existsb_exists.
    pose proof (find_none_all _ _ Hmail old Hin) as H1.
    pose proof (find_none_all _ _ Hphone old Hin) as H2. cbv beta in *.
    rewrite H1, H2, !orb_false_r in Hold. apply bool_decide_eq_true in Hold.
    by apply (Hfresh old).
  - done.
  - eexists. unfold Storage.getUserByEmail in *. cbn [accounts set_accounts].
    rewrite find_app_none by done. cbn. rewrite bool_decide_eq_true_2 by done. done.
  - intros x' Hq. unfold register. unfold_route.
    rewrite Hparse, Hq. cbv beta iota.
    unfold Storage.getUserByEmail in *. cbn [accounts set_accounts].
    rewrite find_app_none by done. cbn. by rewrite bool_decide_eq_true_2.
Qed.

(** Refresh tokens that are not in the token table are turned away. *)
Lemma refresh_needs_a_stored_token x req s :
  (∀ t, parse_refresh' (req_body req) = Some t → Storage.getAuthToken t s = None) →
  ∃ code b, (serve (refresh' x req) s).1 = Answered (mkResponse code b) ∧
            (code = 400 ∨ code = 401)%nat.
Proof.
  intros Hgone. unfold refresh. unfold_route.
  destruct (parse_refresh' (req_body req)) as [t|]; [|eauto 6].
  destruct (verifyRefreshToken _ _ _ _); [|eauto 6].
  destruct (fails x QGetAuthToken); [eauto 6|]. cbv beta iota.
  rewrite (Hgone t eq_refl).
  destruct (fails x QDeleteAuthToken); eauto 6.
Qed.

Lemma getAuthToken_deleted t s :
  Storage.getAuthToken t (Storage.deleteAuthToken (Some t) s) = None.
Proof.
  unfold Storage.getAuthToken, Storage.deleteAuthToken. cbn.
  destruct (List.find _ _) as [row|] eqn:Hfind; [|done].
  apply find_some in Hfind as [Hin%filter_In Hrow].
  apply bool_decide_eq_true in Hrow. destruct Hin as [_ Hin].
  apply negb_true_iff, bool_decide_eq_false in Hin. by rewrite Hrow in Hin.
Qed.

(** The store after a refresh that was answered with 200. *)
Lemma refresh_success_store x req s s' b :
  serve (refresh' x req) s = (Answered (mkResponse 200 b), s') →
  ∃ t user role,
    parse_refresh' (req_body req) = Some t ∧
    b = tokens_body (issued_accessToken' x user role) (issued_refreshToken' x user role) ∧
    s' = set_token_rows (λ rows, rows ++ [issued_row' x user role])
                        (Storage.deleteAuthToken (Some t) s).
Proof.
  unfold refresh. unfold_route.
  destruct (parse_refresh' (req_body req)) as [t|]; [|done].
  destruct (verifyRefreshToken _ _ _ _) as [payload|]; [|done].
  destruct (fails x QGetAuthToken); [done|]. cbv beta iota.
  destruct (Storage.getAuthToken t s) as [row|]; cycle 1.
  { by destruct (fails x QDeleteAuthToken). }
  destruct (bool_decide (expiresAt row < check_time x)).
  { by destruct (fails x QDeleteAuthToken). }
  destruct (fails x QGetUser); [done|]. cbv beta iota.
  destruct (Storage.getUser _ s) as [a|]; [|done].
  destruct (account_active a); [|done].
  destruct (fails x QDeleteAuthToken); [done|]. cbv beta iota.
  match goal with
  | |- context [generateTokens' x ?u ?r ?s1] =>
      destruct (generateTokens_cases x u r s1) as [->|(-> & _ & _)]
  end; [done|].
  intros [= <- <-]. by exists t, (account_id a), (account_role a).
Qed.

(** X16.  [POST /api/auth/refresh] rotates: a 200 is answered only for a
    refresh token that passed the schema and [jwt.verify], whose row is in
    the token table and has not expired, and whose user is an active
    account; then that row has been deleted and the row of the new
    refresh token, for the user named in the token, has been added.
    Accounts, conversations and messages are never written. *)
Theorem refresh_rotates_a_stored_unexpired_token x req s :
  let out := serve (refresh' x req) s in
  (accounts out.2, chat_rows out.2, message_rows out.2)
  = (accounts s, chat_rows s, message_rows s) ∧
  ∀ b, out.1 = Answered (mkResponse 200 b) →
    ∃ t payload row a,
      parse_refresh' (req_body req) = Some t ∧
      jwt_verify t (JWT_REFRESH_SECRET JWT_REFRESH_SECRET_env) (verify_time x) = Some payload ∧
      Storage.getAuthToken t s = Some row ∧
      check_time x ≤ expiresAt row ∧
      Storage.getUser (payload_userId payload) s = Some a ∧
      account_active a = true ∧
      b = tokens_body (issued_accessToken' x (account_id a) (account_role a))
                      (issued_refreshToken' x (account_id a) (account_role a)) ∧
      out.2 = set_token_rows (λ rows, rows ++ [issued_row' x (account_id a) (account_role a)])
                             (Storage.deleteAuthToken (Some t) s).
Proof.
  cbn zeta. unfold refresh. unfold_route.
  destruct (parse_refresh' (req_body req)) as [t|]; [|by split].
  unfold verifyRefreshToken. cbn [moment now].
  destruct (jwt_verify t _ _) as [payload|] eqn:Hv; [|by split].
  destruct (fails x QGetAuthToken); [by split|]. cbv beta iota.
  destruct (Storage.getAuthToken t s) as [row|] eqn:Hrow; cycle 1.
  { destruct (fails x QDeleteAuthToken); by split. }
  destruct (bool_decide (expiresAt row < check_time x)) eqn:Hexp.
  { destruct (fails x QDeleteAuthToken); by split. }
  apply bool_decide_eq_false in Hexp.
  destruct (fails x QGetUser); [by split|]. cbv beta iota.
  destruct (Storage.getUser _ s) as [a|] eqn:Ha; [|by split].
  destruct (account_active a) eqn:Hact; [|by split].
  destruct (fails x QDeleteAuthToken); [by split|]. cbv beta iota.
  match goal with
  | |- context [generateTokens' x ?u ?r ?s1] =>
      destruct (generateTokens_cases x u r s1) as [->|(-> & _ & _)]
  end; [by split|].
  split; [done|]. intros b [= <-]. exists t, payload, row, a.
  repeat split; try done. lia.
Qed.

(** X17.  A refresh token is good for one refresh.  After a refresh that
    was answered with 200 and a new refresh token different from the one
    presented, the same request is turned away with a 401 or a 400,
    whenever it is sent again. *)
Theorem refresh_token_is_good_for_one_refresh x req s s' t access renewed :
  parse_refresh' (req_body req) = Some t →
  serve (refresh' x req) s = (Answered (mkResponse 200 (tokens_body access renewed)), s') →
  renewed ≠ t →
  ∀ x', ∃ code b,
    (serve (refresh' x' req) s').1 = Answered (mkResponse code b) ∧
    (code = 400 ∨ code = 401)%nat.
Proof.
  intros Hparse Hrun Hne x'.
  destruct (refresh_success_store x req s s' _ Hrun) as (t0 & user & role & Ht & Hb & ->).
  simplify_eq.
  apply refresh_needs_a_stored_token. intros t1 Ht1. simplify_eq.
  unfold Storage.getAuthToken. cbn [token_rows set_token_rows].
  rewrite find_app_none by apply getAuthToken_deleted.
  cbn. rewrite bool_decide_eq_false_2; [done|]. unfold issued_row. cbn. done.
Qed.

(** X18.  [POST /api/auth/logout] revokes.  For a caller who passed
    [authenticateToken], with the deletes resolving: when the body names a
    refresh token, the row of that token is deleted, whoever it belongs
    to, and a refresh with it is turned away from then on; when the body
    names none, exactly the rows of the caller are deleted, and a refresh
    with any token of the caller is turned away from then on. *)
Theorem logout_revokes_refresh_tokens x req s user fields :
  authenticateToken' x req s = (Next user, s) →
  req_body req = Some (JObj fields) →
  fails x QDeleteAuthToken = false →
  fails x QDeleteUserTokens = false →
  (∀ t, obj_lookup fields "refreshToken" = Some (JStr t) → t ≠ "" →
     serve (logout' x req) s
     = (Answered (mkResponse 200 (message_body "Logged out successfully")),
        Storage.deleteAuthToken (Some t) s) ∧
     ∀ x' req', parse_refresh' (req_body req') = Some t →
       ∃ code b,
         (serve (refresh' x' req') (Storage.deleteAuthToken (Some t) s)).1
         = Answered (mkResponse code b) ∧ (code = 400 ∨ code = 401)%nat) ∧
  (js_truthy (obj_lookup fields "refreshToken") = false →
     serve (logout' x req) s
     = (Answered (mkResponse 200 (message_body "Logged out successfully")),
        Storage.deleteUserTokens (auth_id user) s) ∧
     (∀ row, row ∈ token_rows (Storage.deleteUserTokens (auth_id user) s) ↔
             row ∈ token_rows s ∧ token_userId row ≠ auth_id user) ∧
     ∀ x' req',
       (∀ t row, parse_refresh' (req_body req') = Some t → row ∈ token_rows s →
                 refreshToken row = t → token_userId row = auth_id user) →
       ∃ code b,
         (serve (refresh' x' req') (Storage.deleteUserTokens (auth_id user) s)).1
         = Answered (mkResponse code b) ∧ (code = 400 ∨ code = 401)%nat).
Proof.
  intros Hgate Hbody Hf1 Hf2. split.
  - intros t Ht Hne. split.
    + unfold logout. unfold_route. rewrite Hgate, Hbody. cbn [field]. rewrite Ht.
      cbn [js_truthy sql_param]. rewrite (bool_decide_eq_false_2 _ Hne). cbn [negb].
      by rewrite Hf1.
    + intros x' req' Hparse. apply refresh_needs_a_stored_token.
      intros t' Ht'. simplify_eq. apply getAuthToken_deleted.
  - intros Hfalsy.
    assert (Hrows : ∀ row, row ∈ token_rows (Storage.deleteUserTokens (auth_id user) s) ↔
                           row ∈ token_rows s ∧ token_userId row ≠ auth_id user).
    { intros row. unfold Storage.deleteUserTokens. cbn [token_rows set_token_rows].
      by rewrite filter_elem, negb_true_iff, bool_decide_eq_false. }
    split; [|split; [done|]].
    + unfold logout. unfold_route. rewrite Hgate, Hbody. cbn [field]. rewrite Hfalsy.
      by rewrite Hf2.
    + intros x' req' Hown. apply refresh_needs_a_stored_token. intros t Ht.
      unfold Storage.getAuthToken.
      destruct (List.find _ _) as [row|] eqn:Hfind; [|done].
      apply find_some in Hfind as [Hin%list_elem_of_In Hrow].
      apply bool_decide_eq_true in Hrow. apply Hrows in Hin as [Hin Hother].
      destruct Hother. by eapply Hown.
Qed.

(** *** From a login to an authenticated connection and request *)

(** What a login that was answered with 200 has checked and stored. *)
Lemma login_success x req s s' b :
  serve (login' x req) s = (Answered (mkResponse 200 b), s') →
  ∃ a, a ∈ accounts s ∧ account_active a = true ∧
       b = session_body "Login successful" (summary a)
             (issued_accessToken' x (account_id a) (account_role a))
             (issued_refreshToken' x (account_id a) (account_role a)) ∧
       s' = set_token_rows (λ rows, rows ++ [issued_row' x (account_id a) (account_role a)]) s.
Proof.
  unfold login. unfold_route.
  destruct (parse_login' (req_body req)) as [[identifier pw]|]; [|done].
  cbn [fst snd].
  destruct (fails x QGetUserByEmail); [done|]. cbv beta iota.
  destruct (Storage.getUserByEmail identifier s) as [a|] eqn:Hfound.
  2: clear Hfound; destruct (fails x QGetUserByPhone); [done|]; cbv beta iota.
  2: destruct (Storage.getUserByPhone identifier s) as [a|] eqn:Hfound; [|done].
  all: destruct (account_active a) eqn:Hact; cbn [negb]; [|done].
  all: destruct (bcrypt_compare pw (password a)) eqn:Hpw; cbn [negb]; [|done].
  all: destruct (generateTokens_cases x (account_id a) (account_role a) s)
         as [->|(-> & _ & _)]; [done|].
  all: intros [= <- <-]; exists a; (split; [|done]).
  all: apply find_some in Hfound as [Hin _]; by apply list_elem_of_In.
Qed.

Lemma find_unique {A} (f : A → string) (l : list A) a :
  NoDup (f <$> l) → a ∈ l → List.find (λ b, bool_decide (f b = f a)) l = Some a.
Proof.
  induction l as [|b l IH]; [by intros _ ?%elem_of_nil|].
  rewrite fmap_cons, NoDup_cons. intros [Hb Hl] Hin. cbn.
  destruct (bool_decide (f b = f a)) eqn:E.
  - apply bool_decide_eq_true in E. apply elem_of_cons in Hin as [->|Hin]; [done|].
    destruct Hb. rewrite E. by apply list_elem_of_fmap_2.
  - apply bool_decide_eq_false in E. apply elem_of_cons in Hin as [->|Hin]; [done|].
    by apply IH.
Qed.

(** X19.  The refresh token of a login opens the WebSocket for the
    account that logged in.  After a login that was answered with 200,
    provided the token signed for the user of the response verifies at the
    time of the frame, an [auth] frame with the refresh token of the
    response binds the connection to the id of that user and registers it
    under that id; and that user is an active account whose row for this
    refresh token, expiring seven days after the login, is in the token
    table. *)
Theorem login_refresh_token_opens_the_websocket
    x req s s' text u access renewed w c e fields sock :
  serve (login' x req) s
  = (Answered (mkResponse 200 (session_body text u access renewed)), s') →
  (let p := mkJWTPayload (summary_id u) (summary_role u) in
   let secret := JWT_REFRESH_SECRET JWT_REFRESH_SECRET_env in
   jwt_verify (jwt_sign p secret "7d" (refresh_time x)) secret (now e) = Some p) →
  obj_lookup fields "type" = Some (JStr "auth") →
  obj_lookup fields "token" = Some (JStr renewed) →
  sockets w !! c = Some sock →
  let w' := exec (on_message jwt_verify JWT_REFRESH_SECRET_env c e (Some (JObj fields))) w in
  identity w' c = Some (summary_id u) ∧
  connections w' !! summary_id u = Some (mkChatConnection (summary_id u) c) ∧
  (∃ a, a ∈ accounts s ∧ account_id a = summary_id u ∧ account_active a = true) ∧
  mkAuthToken (uuid x 1) (summary_id u) renewed (expiry_base x + 604800000) ∈ token_rows s'.
Proof.
  intros Hlogin Hverify Hty Htoken Hsock w'.
  destruct (login_success x req s s' _ Hlogin) as (a & Hin & Hact & Hb & ->).
  injection Hb as -> -> -> ->. cbn [summary summary_id summary_role] in *.
  assert (Hw : w' = bound c (account_id a) w).
  { unfold w'. rewrite (auth_world jwt_verify JWT_REFRESH_SECRET_env w c e fields Hty), Htoken.
    unfold verifyRefreshToken, issued_refreshToken. by rewrite Hverify. }
  clearbody w'. subst w'. repeat split.
  - rewrite identity_bound. rewrite decide_True by done. by rewrite Hsock.
  - unfold bound, pushed. cbn. by rewrite lookup_insert_eq.
  - by exists a.
  - cbn [token_rows set_token_rows]. apply elem_of_app. right.
    by apply list_elem_of_singleton.
Qed.

(** X20.  The access token of a login opens the protected routes for the
    account that logged in.  After a login that was answered with 200,
    with account ids being unique, a request that carries the access
    token of the response as the second word of its Authorization header
    passes [authenticateToken] with the id and the role of the user of the
    response as [req.user], provided the token signed for that user
    verifies at the time of the request and the lookup resolves. *)
Theorem login_access_token_opens_the_protected_routes
    x req s s' text u access renewed x' req' :
  serve (login' x req) s
  = (Answered (mkResponse 200 (session_body text u access renewed)), s') →
  NoDup (account_id <$> accounts s) →
  (let p := mkJWTPayload (summary_id u) (summary_role u) in
   jwt_verify (jwt_sign p (JWT_SECRET JWT_SECRET_env) "15m" (access_time x))
              (JWT_SECRET JWT_SECRET_env) (verify_time x') = Some p) →
  bearer (authorization req') = Some access → access ≠ "" →
  fails x' QGetUser = false →
  authenticateToken' x' req' s'
  = (Next (mkAuthUser (summary_id u) (summary_email u) (summary_role u)), s').
Proof.
  intros Hlogin Hids Hverify Hb Hne Hf.
  destruct (login_success x req s s' _ Hlogin) as (a & Hin & Hact & Hbody & ->).
  injection Hbody as -> -> -> ->. cbn [summary summary_id summary_role summary_email] in *.
  unfold authenticateToken. unfold_route. rewrite Hb. cbn [truthy default from_option id].
  rewrite (bool_decide_eq_false_2 _ Hne). cbn [negb].
  unfold verifyToken, issued_accessToken in *. rewrite Hverify, Hf. cbv beta iota.
  unfold Storage.getUser. cbn [accounts set_token_rows payload_userId].
  rewrite (find_unique account_id _ a Hids Hin). by rewrite Hact.
Qed.

(** *** KYC *)

Lemma getUser_updateUser id u st data t s :
  Storage.getUser id
    (set_accounts (fmap (λ a, if bool_decide (account_id a = u)
                              then set_kyc st data t a else a)) s)
  = (λ a, if bool_decide (account_id a = u) then set_kyc st data t a else a)
    <$> Storage.getUser id s.
Proof.
  unfold Storage.getUser. cbn [accounts set_accounts].
  induction (accounts s) as [|a rows IH]; [done|]. cbn.
  assert (Hid : account_id (if bool_decide (account_id a = u)
                            then set_kyc st data t a else a) = account_id a).
  { by destruct (bool_decide _). }
  rewrite Hid. by destruct (bool_decide (account_id a = id)).
Qed.

Lemma updateUser_absent u st data t s :
  Storage.getUser u s = None →
  set_accounts (fmap (λ a, if bool_decide (account_id a = u)
                           then set_kyc st data t a else a)) s = s.
Proof.
  intros Hnone. destruct s as [rows chats msgs toks]. unfold set_accounts. cbn. f_equal.
  unfold Storage.getUser in Hnone. cbn in Hnone.
  induction rows as [|a rows IH]; [done|]. cbn in *.
  destruct (bool_decide (account_id a = u)); [done|]. by rewrite IH.
Qed.

Lemma gate_account x req s user :
  authenticateToken' x req s = (Next user, s) →
  ∃ a, Storage.getUser (auth_id user) s = Some a ∧ account_role a = auth_role user ∧
       account_active a = true ∧ fails x QGetUser = false.
Proof.
  intros (_ & token & payload & a & _ & _ & _ & Hf & Ha & Hact & ->)%authenticateToken_Next.
  exists a. cbn. by rewrite (Storage_getUser_id _ _ _ Ha).
Qed.

(** X21.  A KYC submission is verified at once.  For a caller who passed
    [authenticateToken], with the update resolving: when the body passes
    [kycDataSchema], the answer is 200 with status [verified], and the
    caller's account has [kycStatus] verified and the submitted data as
    [kycData], whatever its status was before, a rejection by an admin
    included; every other account, and every other table, is as it was.
    When the body does not pass the schema, the answer is a 400 and
    nothing is written. *)
Theorem kyc_submission_is_verified_at_once x req s user :
  authenticateToken' x req s = (Next user, s) →
  fails x QUpdateUser = false →
  match parse_kyc' (req_body req) with
  | Some data =>
      ∃ s',
        serve (kyc_submit' x req) s
        = (Answered (mkResponse 200 (kyc_body kyc_verified "KYC verification successful")),
           s') ∧
        (∃ a a', Storage.getUser (auth_id user) s = Some a ∧
                 Storage.getUser (auth_id user) s' = Some a' ∧
                 kycStatus a' = kyc_verified ∧ kycData a' = Some data ∧
                 updatedAt a' = update_time x ∧
                 (account_user a', email a', phone a', password a')
                 = (account_user a, email a, phone a, password a)) ∧
        (∀ id, id ≠ auth_id user → Storage.getUser id s' = Storage.getUser id s) ∧
        (chat_rows s', message_rows s', token_rows s')
        = (chat_rows s, message_rows s, token_rows s)
  | None =>
      serve (kyc_submit' x req) s
      = (Answered (mkResponse 400 (caught_body ZodError "KYC submission failed")), s)
  end.
Proof.
  intros Hgate Hf.
  destruct (parse_kyc' (req_body req)) as [data|] eqn:Hparse.
  - eexists. split; [|split; [|split]].
    + unfold kyc_submit, submitKycVerification, updateUser. unfold_route.
      rewrite Hgate, Hparse. cbn [simulateDigiLockerVerification]. by rewrite Hf.
    + destruct (gate_account x req s user Hgate) as (a & Ha & _).
      exists a. eexists. split; [done|]. split.
      * rewrite getUser_updateUser, Ha. cbn [fmap option_fmap option_map].
        by rewrite bool_decide_eq_true_2 by by eapply Storage_getUser_id.
      * done.
    + intros id Hid. rewrite getUser_updateUser.
      destruct (Storage.getUser id s) as [a|] eqn:Ha; [|done]. cbn.
      rewrite bool_decide_eq_false_2; [done|].
      by rewrite (Storage_getUser_id _ _ _ Ha).
    + done.
  - unfold kyc_submit, submitKycVerification. unfold_route. by rewrite Hgate, Hparse.
Qed.

(** X22.  What an admin's decision changes.  For a caller who passed
    [authenticateToken] with the role [admin], with the storage calls
    resolving: approving sets the [kycStatus] of the account named in the
    path to verified, and rejecting, with a body that is an object, sets
    it to rejected; either way the KYC data of the account and every other
    table stay as they were, and the reason of a rejection is sent back
    but stored nowhere.  When no account has the id in the path, the
    answer is the same 200 and nothing is written. *)
Theorem admin_decision_sets_the_status_only x req s user :
  authenticateToken' x req s = (Next user, s) →
  auth_role user = "admin" →
  fails x QUpdateUser = false →
  let decided st s' :=
    (∀ a, Storage.getUser (param req) s = Some a →
          Storage.getUser (param req) s' = Some (set_kyc st None (update_time x) a)) ∧
    (Storage.getUser (param req) s = None → s' = s) ∧
    (∀ id, id ≠ param req → Storage.getUser id s' = Storage.getUser id s) ∧
    (chat_rows s', message_rows s', token_rows s')
    = (chat_rows s, message_rows s, token_rows s) in
  (∃ s', serve (kyc_approve' x req) s
         = (Answered (mkResponse 200 (kyc_body kyc_verified "KYC approved by admin")), s') ∧
         decided kyc_verified s') ∧
  (∀ fields, req_body req = Some (JObj fields) →
     ∃ s', serve (kyc_reject' x req) s
           = (Answered (mkResponse 200
                (kyc_reason_body kyc_rejected (obj_lookup fields "reason"))), s') ∧
           decided kyc_rejected s').
Proof.
  intros Hgate Hrole Hf. cbn zeta.
  destruct (gate_account x req s user Hgate) as (admin & Hadmin & Hr & _ & Hq).
  assert (Hdecided : ∀ st,
    let s' := set_accounts (fmap (λ a, if bool_decide (account_id a = param req)
                                       then set_kyc st None (update_time x) a else a)) s in
    (∀ a, Storage.getUser (param req) s = Some a →
          Storage.getUser (param req) s' = Some (set_kyc st None (update_time x) a)) ∧
    (Storage.getUser (param req) s = None → s' = s) ∧
    (∀ id, id ≠ param req → Storage.getUser id s' = Storage.getUser id s) ∧
    (chat_rows s', message_rows s', token_rows s')
    = (chat_rows s, message_rows s, token_rows s)).
  { intros st. cbn zeta. split; [|split; [|split]].
    - intros a Ha. rewrite getUser_updateUser, Ha. cbn.
      by rewrite bool_decide_eq_true_2 by by eapply Storage_getUser_id.
    - apply updateUser_absent.
    - intros id Hid. rewrite getUser_updateUser.
      destruct (Storage.getUser id s) as [a|] eqn:Ha; [|done]. cbn.
      rewrite bool_decide_eq_false_2; [done|]. by rewrite (Storage_getUser_id _ _ _ Ha).
    - done. }
  assert (Hin : bool_decide (auth_role user ∈ ["admin"]) = true).
  { apply bool_decide_eq_true_2. rewrite Hrole. by apply list_elem_of_singleton. }
  split.
  - eexists. split; [|apply (Hdecided kyc_verified)].
    unfold kyc_approve, approveKycManually, require_admin, requireRole, updateUser.
    unfold_route. rewrite Hgate. cbv beta iota zeta. rewrite Hin, Hq. cbv beta iota.
    rewrite Hadmin, Hr, Hrole. cbn [bool_decide]. rewrite bool_decide_eq_true_2 by done.
    by rewrite Hf.
  - intros fields Hbody. eexists. split; [|apply (Hdecided kyc_rejected)].
    unfold kyc_reject, rejectKycManually, require_admin, requireRole, updateUser.
    unfold_route. rewrite Hgate. cbv beta iota zeta. rewrite Hin, Hbody. cbn [field].
    rewrite Hq. cbv beta iota.
    rewrite Hadmin, Hr, Hrole. rewrite bool_decide_eq_true_2 by done.
    by rewrite Hf.
Qed.

(** X29.  Logging out does not close the WebSocket door.  After a logout
    that names a refresh token, the row of the token is gone from the
    tables the WebSocket server sees, and yet an [auth] frame with that
    token, as long as [jwt.verify] accepts it, binds the connection to the
    user of the token: the handler never looks the token up. *)
Theorem logout_does_not_revoke_websocket_access
    x req s user fields t w c e frame sock payload :
  authenticateToken' x req s = (Next user, s) →
  req_body req = Some (JObj fields) →
  obj_lookup fields "refreshToken" = Some (JStr t) → t ≠ "" →
  fails x QDeleteAuthToken = false →
  db w = database_of (serve (logout' x req) s).2 →
  jwt_verify t (JWT_REFRESH_SECRET JWT_REFRESH_SECRET_env) (now e) = Some payload →
  obj_lookup frame "type" = Some (JStr "auth") →
  obj_lookup frame "token" = Some (JStr t) →
  sockets w !! c = Some sock →
  (∀ row, row ∈ authTokens (db w) → refreshToken row ≠ t) ∧
  identity (exec (on_message jwt_verify JWT_REFRESH_SECRET_env c e (Some (JObj frame))) w) c
  = Some (payload_userId payload).
Proof.
  intros Hgate Hbody Ht Hne Hf Hdb Hv Hty Htok Hsock. split.
  - rewrite Hdb. unfold logout. unfold_route. rewrite Hgate, Hbody. cbn [field]. rewrite Ht.
    cbn [js_truthy sql_param]. rewrite (bool_decide_eq_false_2 _ Hne). cbn [negb].
    rewrite Hf. cbn. intros row [_ Hrow]%filter_elem Heq.
    apply negb_true_iff, bool_decide_eq_false in Hrow. by rewrite Heq in Hrow.
  - rewrite (auth_world jwt_verify JWT_REFRESH_SECRET_env w c e frame Hty), Htok.
    unfold verifyRefreshToken. rewrite Hv.
    rewrite identity_bound, decide_True by done. by rewrite Hsock.
Qed.

(** What a registration that was answered with 201 has stored. *)
Lemma register_success x req s s' b :
  serve (register' x req) s = (Answered (mkResponse 201 b), s') →
  ∃ data,
    parse_register' (req_body req) = Some data ∧
    Storage.getUserByEmail (reg_email data) s = None ∧
    let a := mkAccount (mkUser (uuid x 0) (reg_role data) true)
                       (reg_email data) (Some (reg_phone data))
                       (bcrypt_hash (reg_password data) (salt x))
                       (reg_firstName data) (reg_lastName data)
                       kyc_pending None None (database_clock x) (database_clock x) in
    s' = set_token_rows (λ rows, rows ++ [issued_row' x (uuid x 0) (reg_role data)])
                        (set_accounts (λ rows, rows ++ [a]) s).
Proof.
  unfold register, createUser. unfold_route.
  destruct (parse_register' (req_body req)) as [data|] eqn:Hparse; [|done].
  destruct (fails x QGetUserByEmail); [done|]. cbv beta iota.
  destruct (Storage.getUserByEmail _ s) eqn:Hmail; [done|].
  destruct (fails x QGetUserByPhone); [done|]. cbv beta iota.
  destruct (Storage.getUserByPhone _ s) eqn:Hphone; [done|].
  destruct (fails x QCreateUser); [done|]. cbv beta iota.
  destruct (existsb _ (accounts s)) eqn:Hdup; [done|].
  cbv zeta. cbn [account_id account_role account_user user_id user_role].
  match goal with
  | |- context [generateTokens' x ?u ?r ?s1] =>
      destruct (generateTokens_cases x u r s1) as [->|(-> & _ & _)]
  end; [done|].
  intros [= <- <-]. by exists data.
Qed.

(** X30.  Who has registered can log in.  After a registration that was
    answered with 201, a login with the e-mail and the password of the
    registration is answered with 200 for the new account, a buyer or
    seller whose verification is pending, provided [bcrypt.compare]
    accepts the password against the hash [bcrypt.hash] made of it, the
    storage calls resolve, and the row of the new refresh token is not
    already in the table. *)
Theorem registered_user_can_log_in x req s s' b data x' req' :
  serve (register' x req) s = (Answered (mkResponse 201 b), s') →
  parse_register' (req_body req) = Some data →
  parse_login' (req_body req') = Some (reg_email data, reg_password data) →
  bcrypt_compare (reg_password data) (bcrypt_hash (reg_password data) (salt x)) = true →
  (∀ q, fails x' q = false) →
  (∀ row, row ∈ token_rows s' →
          token_id row ≠ uuid x' 1 ∧
          refreshToken row ≠ issued_refreshToken' x' (uuid x 0) (reg_role data)) →
  ∃ u s'',
    serve (login' x' req') s'
    = (Answered (mkResponse 200
         (session_body "Login successful" u
            (issued_accessToken' x' (uuid x 0) (reg_role data))
            (issued_refreshToken' x' (uuid x 0) (reg_role data)))), s'') ∧
    summary_id u = uuid x 0 ∧ summary_email u = reg_email data ∧
    summary_role u = reg_role data ∧ summary_kycStatus u = kyc_pending.
Proof.
  intros Hreg Hparse Hlogin Hpw Hf Hfresh.
  destruct (register_success x req s s' b Hreg) as (data' & Hparse' & Hmail & Hs').
  assert (data' = data) as -> by congruence. cbv zeta in Hs'.
  eexists _, _. split; cycle 1.
  2: { unfold login, generateTokens, createAuthToken. unfold_route.
       rewrite Hlogin, !Hf. cbn [fst snd]. cbv beta iota.
       assert (Hfound : Storage.getUserByEmail (reg_email data) s'
                        = Some (mkAccount (mkUser (uuid x 0) (reg_role data) true)
                                  (reg_email data) (Some (reg_phone data))
                                  (bcrypt_hash (reg_password data) (salt x))
                                  (reg_firstName data) (reg_lastName data)
                                  kyc_pending None None (database_clock x)
                                  (database_clock x))).
       { rewrite Hs'. unfold Storage.getUserByEmail in *.
         cbn [accounts set_token_rows set_accounts].
         rewrite find_app_none by done. cbn. by rewrite bool_decide_eq_true_2. }
       rewrite Hfound. cbn [account_active account_user isActive negb password].
       rewrite Hpw. cbn [negb account_id account_role account_user user_id user_role].
       replace (existsb _ (token_rows s')) with false; [reflexivity|].
       symmetry. apply not_true_is_false.
       intros (row & Hin%list_elem_of_In & Hrow)%existsb_exists.
       destruct (Hfresh row Hin) as [H1 H2].
       apply orb_true_iff in Hrow as [Hrow|Hrow]; by apply bool_decide_eq_true in Hrow. }
  done.
Qed.

End RouteProperties.

(** ** The client's requests and its tokens *)

Section ClientProperties.

Import Client.

Variable network : nat → Fetch → option Response.
Variable text_of : json → string.

Abbreviation apiRequest' := (apiRequest network text_of).
Abbreviation getQueryFn' := (getQueryFn network).
Abbreviation refresh_and_retry' := (refresh_and_retry network text_of).
Abbreviation js_String' := (js_String text_of).

Lemma includes_app needle p s : includes needle s = true → includes needle (p +:+ s) = true.
Proof.
  intros H. induction p as [|c p IH]; [done|].
  change (String c p +:+ s) with (String c (p +:+ s)).
  change (includes needle (String c (p +:+ s)))
    with (starts_with needle (String c (p +:+ s)) || includes needle (p +:+ s)).
  rewrite IH. apply orb_true_r.
Qed.

Lemma pretty_401 : pretty 401%nat = "401".
Proof. by vm_compute. Qed.

Lemma unauthorized_401 text : isUnauthorizedError (pretty 401%nat +:+ ": " +:+ text) = true.
Proof. rewrite pretty_401. reflexivity. Qed.

(** X23.  The error that [throwIfResNotOk] throws for a 401 is one that
    [isUnauthorizedError] recognises, whatever the body; and so is the
    error for any other failed response whose body mentions
    [Unauthorized].  Responses with a status from 200 to 299 throw
    nothing. *)
Theorem thrown_401_is_recognised_as_unauthorized res :
  (ok res = true → throwIfResNotOk res = Resolved tt) ∧
  (res_status res = 401%nat →
   ∃ m, throwIfResNotOk res = Rejected (HttpError m) ∧ isUnauthorizedError m = true) ∧
  (ok res = false → includes "Unauthorized" (res_text res) = true →
   ∃ m, throwIfResNotOk res = Rejected (HttpError m) ∧ isUnauthorizedError m = true).
Proof.
  unfold throwIfResNotOk. split; [|split].
  - by intros ->.
  - intros Hs. unfold ok. rewrite Hs. cbn [Nat.leb andb]. eexists. split; [done|].
    apply unauthorized_401.
  - intros -> Hin. eexists. split; [done|].
    rewrite bool_decide_eq_false_2 by (intros Heq; by rewrite Heq in Hin).
    unfold isUnauthorizedError. apply orb_true_iff. right.
    by do 2 apply includes_app.
Qed.

(** The [try] block either leaves [localStorage] alone and falls
    through, or sets both tokens and returns what the retry gives. *)
Lemma refresh_and_retry_cases method url data rt b :
  let rq1 := mkFetch "/api/auth/refresh" "POST" [("Content-Type", "application/json")]
                     (Some (JObj [("refreshToken", JStr rt)])) in
  (∃ b', refresh_and_retry' method url data rt b = (None, b') ∧
         localStorage b' = localStorage b ∧ sent b' = sent b ++ [rq1] ∧
         ∀ refreshRes fields, network 1 rq1 = Some refreshRes → ok refreshRes = true →
                              res_json refreshRes ≠ Some (JObj fields)) ∨
  (∃ refreshRes tokens access refreshing b',
     network 1 rq1 = Some refreshRes ∧ ok refreshRes = true ∧
     res_json refreshRes = Some tokens ∧
     field tokens "accessToken" = Ok access ∧ field tokens "refreshToken" = Ok refreshing ∧
     let retry := mkFetch url method
                          (content_type data ++
                           [("Authorization", "Bearer " +:+ js_String' access)])
                          (body_of data) in
     refresh_and_retry' method url data rt b
     = (Some (match network 2 retry with
              | Some res => Resolved res
              | None => Rejected FetchRejected
              end), b') ∧
     localStorage b'
     = localStorage (setAuthTokens (js_String' access) (js_String' refreshing) b) ∧
     sent b' = sent b ++ [rq1; retry]).
Proof.
  cbn zeta. unfold refresh_and_retry.
  set (rq1 := mkFetch "/api/auth/refresh" _ _ _).
  destruct (network 1 rq1) as [refreshRes|] eqn:Hres; [|left; by eexists].
  destruct (ok refreshRes) eqn:Hok.
  2: { left. eexists. repeat split; try done. intros ? ? [= <-] ?. congruence. }
  destruct (res_json refreshRes) as [tokens|] eqn:Hjson.
  2: { left. eexists. repeat split; try done. intros ? ? [= <-] ?. congruence. }
  destruct (field tokens "accessToken") as [access|] eqn:Ha.
  - destruct (field tokens "refreshToken") as [refreshing|] eqn:Hr.
    + right. exists refreshRes, tokens, access, refreshing. eexists.
      repeat split; try done. cbn. by rewrite <- app_assoc.
    + destruct tokens; done.
  - left. eexists. repeat split; try done. intros ? ? [= <-] ? Hj.
    rewrite Hj in Hjson. by simplify_eq.
Qed.

(** X24.  [apiRequest] never leaves the tokens half updated.  Whatever
    the network answers, the call sends the caller's request first and at
    most two more; afterwards [localStorage] is as it was, or both tokens
    have been removed, or both have been set; and when the first response
    is not a 401, nothing else is sent and [localStorage] is as it was. *)
Theorem apiRequest_never_half_updates_the_tokens method url data b :
  let out := apiRequest' method url data b in
  let rq := mkFetch url method
                    (content_type data ++ authorization_of (getItem "accessToken" b))
                    (body_of data) in
  (∃ more, sent out.2 = sent b ++ rq :: more ∧ (length more ≤ 2)%nat) ∧
  (localStorage out.2 = localStorage b ∨
   localStorage out.2 = localStorage (clearAuthTokens b) ∨
   ∃ access refreshing, localStorage out.2 = localStorage (setAuthTokens access refreshing b)) ∧
  (∀ res, network 0 rq = Some res → res_status res ≠ 401%nat →
          localStorage out.2 = localStorage b ∧ sent out.2 = sent b ++ [rq]).
Proof.
  cbn zeta. unfold apiRequest.
  set (rq := mkFetch url method _ _).
  destruct (network 0 rq) as [res|] eqn:Hres.
  2: { cbn. split; [exists []; split; [done|cbn; lia]|]. split; [by left|done]. }
  destruct (bool_decide (res_status res = 401%nat)) eqn:Hs; cbn [andb]; cycle 1.
  { apply bool_decide_eq_false in Hs.
    destruct (throwIfResNotOk res); cbn;
      (split; [exists []; split; [done|cbn; lia]|]); (split; [by left|]); by intros ? [= <-]. }
  apply bool_decide_eq_true in Hs.
  destruct (truthy (getItem "accessToken" b)).
  2: { destruct (throwIfResNotOk res); cbn;
         (split; [exists []; split; [done|cbn; lia]|]); (split; [by left|]);
         by intros ? [= <-]. }
  destruct (truthy (getItem "refreshToken" (send rq b))).
  2: { destruct (throwIfResNotOk res); cbn;
         (split; [exists []; split; [done|cbn; lia]|]); (split; [right; by left|]);
         by intros ? [= <-]. }
  destruct (refresh_and_retry_cases method url data
              (default "" (getItem "refreshToken" (send rq b))) (send rq b))
    as [(b' & -> & Hl & Hsent & _)|
        (refreshRes & tokens & access & refreshing & b' & _ & _ & _ & _ & _ & -> & Hl & Hsent)].
  - destruct (throwIfResNotOk res); cbn; rewrite Hsent, Hl; cbn;
      (split; [eexists [_]; split; [by rewrite <- app_assoc|cbn; lia]|]);
      (split; [right; by left|]); by intros ? [= <-].
  - cbn. rewrite Hsent, Hl. cbn. split; [|split].
    + eexists [_; _]. split; [by rewrite <- !app_assoc|cbn; lia].
    + right. right. by eexists _, _.
    + by intros ? [= <-].
Qed.

Lemma cleared_tokens b :
  getAuthHeaders (clearAuthTokens b) = [] ∧ getRefreshToken (clearAuthTokens b) = None.
Proof.
  unfold getAuthHeaders, getRefreshToken, clearAuthTokens, getItem, removeItem.
  cbn [localStorage]. rewrite lookup_delete_eq.
  rewrite lookup_delete_ne by done. by rewrite lookup_delete_eq.
Qed.

(** X25.  A refresh that fails logs the client out.  When the first
    response is a 401 and an access token was stored, and there is no
    refresh token, or the refresh request is rejected, is answered with a
    status outside 200 to 299, or with a body that is not JSON or is
    [null], then both tokens are removed from [localStorage], so the next
    request carries no Authorization header, and the call rejects with an
    error that [isUnauthorizedError] recognises. *)
Theorem failed_refresh_logs_the_client_out method url data b res :
  let rq := mkFetch url method
                    (content_type data ++ authorization_of (getItem "accessToken" b))
                    (body_of data) in
  let rq1 := mkFetch "/api/auth/refresh" "POST" [("Content-Type", "application/json")]
                     (Some (JObj [("refreshToken", JStr (default "" (getRefreshToken b)))])) in
  network 0 rq = Some res →
  res_status res = 401%nat →
  truthy (getItem "accessToken" b) = true →
  (truthy (getRefreshToken b) = false ∨
   ∀ refreshRes, network 1 rq1 = Some refreshRes →
                 ok refreshRes = false ∨ res_json refreshRes = None ∨
                 res_json refreshRes = Some JNull) →
  let out := apiRequest' method url data b in
  (∃ m, out.1 = Rejected (HttpError m) ∧ isUnauthorizedError m = true) ∧
  getAuthHeaders out.2 = [] ∧ getRefreshToken out.2 = None ∧
  localStorage out.2 = localStorage (clearAuthTokens b).
Proof.
  cbn zeta. intros Hres Hs Htoken Hfail. unfold apiRequest.
  rewrite Hres, Htoken, (bool_decide_eq_true_2 _ Hs). cbn [andb].
  set (rq := mkFetch url method _ _) in *.
  assert (Hout : ∀ b', localStorage b' = localStorage b →
    let out := (match throwIfResNotOk res with
                | Resolved _ => (Resolved res, clearAuthTokens b')
                | Rejected e => (Rejected e, clearAuthTokens b')
                end) in
    (∃ m, out.1 = Rejected (HttpError m) ∧ isUnauthorizedError m = true) ∧
    getAuthHeaders out.2 = [] ∧ getRefreshToken out.2 = None ∧
    localStorage out.2 = localStorage (clearAuthTokens b)).
  { intros b' Hl. cbn zeta. unfold throwIfResNotOk, ok. rewrite Hs. cbn [Nat.leb andb fst snd].
    split; [eexists; split; [done|apply unauthorized_401]|].
    destruct (cleared_tokens b') as [H1 H2]. repeat split; try done.
    unfold clearAuthTokens, removeItem. cbn. by rewrite Hl. }
  change (getItem "refreshToken" (send rq b)) with (getRefreshToken b).
  destruct (truthy (getRefreshToken b)) eqn:Hrt.
  2: { by apply (Hout (send rq b)). }
  destruct Hfail as [?|Hfail]; [done|].
  destruct (refresh_and_retry_cases method url data (default "" (getRefreshToken b)) (send rq b))
    as [(b' & -> & Hl & _)|
        (refreshRes & tokens & access & refreshing & b' & Hn & Hok & Hj & Ha & _)].
  - by apply (Hout b').
  - destruct (Hfail refreshRes Hn) as [?|[?|?]]; [congruence..|].
    assert (tokens = JNull) as -> by congruence. done.
Qed.

(** X26.  After a refresh that succeeds, the response of the retry is
    returned as it is.  When the first response is a 401, both tokens were
    stored, and the refresh is answered in the 200s with an object, then
    both tokens of that object are stored, the request is sent once more
    with the new access token, and the call settles as that last [fetch]
    does: it resolves with the response whatever its status, without
    [throwIfResNotOk], and no further refresh is tried. *)
Theorem retried_response_is_returned_unchecked
    method url data b res token rt refreshRes fields access renewed :
  let rq := mkFetch url method (content_type data ++ authorization_of (Some token))
                    (body_of data) in
  let rq1 := mkFetch "/api/auth/refresh" "POST" [("Content-Type", "application/json")]
                     (Some (JObj [("refreshToken", JStr rt)])) in
  let retry := mkFetch url method
                       (content_type data ++ [("Authorization", "Bearer " +:+ access)])
                       (body_of data) in
  getItem "accessToken" b = Some token → token ≠ "" →
  getRefreshToken b = Some rt → rt ≠ "" →
  network 0 rq = Some res → res_status res = 401%nat →
  network 1 rq1 = Some refreshRes → ok refreshRes = true →
  res_json refreshRes = Some (JObj fields) →
  obj_lookup fields "accessToken" = Some (JStr access) →
  obj_lookup fields "refreshToken" = Some (JStr renewed) →
  let out := apiRequest' method url data b in
  out.1 = match network 2 retry with
          | Some again => Resolved again
          | None => Rejected FetchRejected
          end ∧
  sent out.2 = sent b ++ [rq; rq1; retry] ∧
  getItem "accessToken" out.2 = Some access ∧
  getRefreshToken out.2 = Some renewed.
Proof.
  cbn zeta. intros Htoken Hne Hrt Hrne Hres Hs Hn Hok Hj Ha Hr.
  unfold apiRequest, refresh_and_retry. rewrite Htoken, Hres, (bool_decide_eq_true_2 _ Hs).
  change (getItem "refreshToken" (send ?r b)) with (getRefreshToken b). rewrite Hrt.
  cbn [truthy default from_option id andb].
  rewrite (bool_decide_eq_false_2 _ Hne), (bool_decide_eq_false_2 _ Hrne). cbn [negb].
  rewrite Hn, Hok, Hj. cbn [field]. rewrite Ha, Hr. cbn [js_String fst snd].
  split; [done|]. split; [cbn; by rewrite <- !app_assoc|].
  unfold getRefreshToken, getItem, setItem, send. cbn [localStorage].
  rewrite lookup_insert_ne by done. by rewrite !lookup_insert_eq.
Qed.

(** X27.  The access token the client stores is the token the server's
    middleware reads.  After [setAuthTokens], for an access token that is
    not empty and holds no space, [getAuthHeaders] gives one Authorization
    header, and [authenticateToken]'s reading of that header is the
    access token; [getRefreshToken] gives the refresh token; and after
    [clearAuthTokens] there is neither a header nor a refresh token. *)
Theorem stored_access_token_is_the_one_the_middleware_reads access renewed b :
  access ≠ "" → contains_char " " access = false →
  (∃ h, getAuthHeaders (setAuthTokens access renewed b) = [("Authorization", h)] ∧
        bearer (Some h) = Some access) ∧
  getRefreshToken (setAuthTokens access renewed b) = Some renewed ∧
  getAuthHeaders (clearAuthTokens (setAuthTokens access renewed b)) = [] ∧
  getRefreshToken (clearAuthTokens (setAuthTokens access renewed b)) = None.
Proof.
  intros Hne Hsp. split; [|split; [|apply cleared_tokens]].
  - eexists. split.
    + unfold getAuthHeaders, setAuthTokens, getItem, setItem, authorization_of.
      cbn [localStorage]. rewrite lookup_insert_ne by done. rewrite lookup_insert_eq.
      cbn [truthy default from_option id]. by rewrite (bool_decide_eq_false_2 _ Hne).
    + unfold bearer. rewrite bool_decide_eq_false_2 by done.
      change ("Bearer " +:+ access) with ("Bearer" +:+ String " " access).
      by rewrite split_on_first, (split_on_plain _ access).
  - unfold getRefreshToken, setAuthTokens, getItem, setItem. cbn [localStorage].
    by rewrite lookup_insert_eq.
Qed.

(** X28.  [getQueryFn] sends one request and never refreshes: whatever
    the network answers, [localStorage] is as it was and exactly one
    request has been sent, with the stored access token; on a 401 the
    query resolves to [null] under [returnNull], and rejects with an error
    that [isUnauthorizedError] recognises under [throw]. *)
Theorem getQueryFn_sends_one_request_and_never_refreshes on401 queryKey b :
  let out := getQueryFn' on401 queryKey b in
  let rq := mkFetch (String.concat "/" queryKey) "GET" (getAuthHeaders b) None in
  localStorage out.2 = localStorage b ∧
  sent out.2 = sent b ++ [rq] ∧
  ∀ res, network 0 rq = Some res → res_status res = 401%nat →
         match on401 with
         | returnNull => out.1 = Resolved JNull
         | throw => ∃ m, out.1 = Rejected (HttpError m) ∧ isUnauthorizedError m = true
         end.
Proof.
  cbn zeta. unfold getQueryFn, getAuthHeaders.
  set (rq := mkFetch _ "GET" _ _).
  destruct (network 0 rq) as [res|] eqn:Hres; [|done].
  assert (H401 : res_status res = 401%nat → throwIfResNotOk res
            = Rejected (HttpError (pretty 401%nat +:+ ": " +:+
                (if bool_decide (res_text res = "") then res_statusText res
                 else res_text res)))).
  { intros Hs. unfold throwIfResNotOk, ok. by rewrite Hs. }
  destruct on401.
  - destruct (bool_decide (res_status res = 401%nat)) eqn:Hs.
    + repeat split; try done.
    + apply bool_decide_eq_false in Hs.
      destruct (throwIfResNotOk res); [destruct (res_json res)|];
        (repeat split; try done); by intros ? [= <-].
  - destruct (throwIfResNotOk res) eqn:Hthrow; [destruct (res_json res)|];
      (repeat split; try done); intros ? [= <-] Hs; pose proof (H401 Hs) as H';
      simplify_eq.
    eexists. split; [done|apply unauthorized_401].
Qed.

End ClientProperties.

(** ** The extra properties at the sample data *)

Lemma every_message_is_from_a_participant_witness :
  posted_by_participants sample_db ∧
  posted_by_participants
    (db (sample_run ([Connection 1; Frame 1 sample_env (auth_frame "token-alice");
                      Frame 1 sample_env (chat_frame "chat-1" "hello")]
                     ++ settles 0 sample_env))).
Proof.
  assert (H : posted_by_participants (db (boot sample_db))).
  { intros m Hm. by apply elem_of_nil in Hm. }
  assert (Hv : vetted (boot sample_db)).
  { intros k h Hk. by destruct k. }
  split; [exact H|].
  exact (proj1 (every_message_is_from_a_participant sample_verify None (boot sample_db)
                  _ Hv H)).
Defined.

Lemma no_post_without_a_verified_token_witness :
  connections
    (sample_run ([Connection 1; Frame 1 sample_env (auth_frame "token-alice");
                  Frame 1 sample_env (chat_frame "chat-1" "hello")]
                 ++ settles 0 sample_env)) !! "mallory" = None.
Proof.
  refine (proj1 (proj2 (no_post_without_a_verified_token sample_verify None sample_db
                          _ "mallory" _))).
  intros ev Hev.
  repeat (apply elem_of_cons in Hev as [->|Hev]); try reflexivity.
  by apply elem_of_nil in Hev.
Defined.

Lemma deactivated_account_is_turned_away_witness :
  serve (demo_get_chats demo_ctx (demo_request "access-dave" "" [])) demo_store
  = (Answered (mkResponse 401 (message_body "User not found or inactive")), demo_store).
Proof.
  apply (deactivated_account_is_turned_away demo_verify None String.length demo_is_url
           (get_chats demo_verify None) demo_ctx (demo_request "access-dave" "" [])
           demo_store "access-dave" (mkJWTPayload "dave" "buyer")).
  - unfold protected_routes. apply list_elem_of_further, list_elem_of_here.
  - reflexivity.
  - done.
  - reflexivity.
  - reflexivity.
  - intros a Ha. vm_compute in Ha. by injection Ha as <-.
Defined.

Lemma admin_routes_require_the_stored_role_witness :
  serve (demo_kyc_approve demo_ctx (demo_request "access-alice" "bob" [])) demo_store
  = (Answered (mkResponse 403 (message_body "Insufficient permissions")), demo_store) ∧
  serve (demo_kyc_reject demo_ctx (demo_request "access-alice" "bob" [])) demo_store
  = (Answered (mkResponse 403 (message_body "Insufficient permissions")), demo_store).
Proof.
  apply (admin_routes_require_the_stored_role demo_verify None demo_ctx
           (demo_request "access-alice" "bob" []) demo_store "access-alice"
           (mkJWTPayload "alice" "buyer")
           (demo_account "alice" "buyer" true kyc_rejected)); try reflexivity; done.
Defined.

(** Alone, alice's request for a new conversation leaves one row for
    each buyer, seller and listing.  With the same request served once
    more while it waits between its lookup and its insert, both are
    answered 201 and the table holds two rows for alice, bob and
    listing-2. *)
Lemma post_chats_keeps_one_chat_per_triple_witness :
  let req := demo_request "access-alice" ""
               [("sellerId", JStr "bob"); ("listingId", JStr "listing-2")] in
  let racing := racing_ctx (λ x, demo_post_chats x req) in
  one_chat_per_triple (chat_rows (serve (demo_post_chats demo_ctx req) demo_store).2) ∧
  serve (demo_post_chats racing req) demo_store
  = (Answered (mkResponse 201 (chat_body (mkChat "new-0" "alice" "bob" "listing-2" None 2000))),
     set_chat_rows
       (λ rows, (rows ++ [mkChat "new-2" "alice" "bob" "listing-2" None 3000])
                ++ [mkChat "new-0" "alice" "bob" "listing-2" None 2000])
       demo_store) ∧
  ¬ one_chat_per_triple (chat_rows (serve (demo_post_chats racing req) demo_store).2).
Proof.
  cbn zeta.
  assert (H : one_chat_per_triple (chat_rows demo_store)).
  { intros [|i] [|j] a b Hi Hj _ _ _; by cbn in *. }
  split.
  - exact (proj1 (post_chats_keeps_one_chat_per_triple demo_verify None demo_ctx _ demo_store)
             eq_refl H).
  - destruct (proj2 (post_chats_keeps_one_chat_per_triple demo_verify None
                       (racing_ctx (λ x, demo_post_chats x
                          (demo_request "access-alice" ""
                             [("sellerId", JStr "bob"); ("listingId", JStr "listing-2")])))
                       (demo_request "access-alice" ""
                          [("sellerId", JStr "bob"); ("listingId", JStr "listing-2")])
                       demo_store)
                later_ctx (mkAuthUser "alice" "alice@example.com" "buyer")
                [("sellerId", JStr "bob"); ("listingId", JStr "listing-2")]
                "bob" "listing-2") as (_ & Hrace & Htwo); try reflexivity.
    + intros row Hrow. apply list_elem_of_singleton in Hrow as ->. done.
    + done.
    + split; [exact Hrace|exact Htwo].
Defined.

Lemma post_chats_finds_or_creates_witness :
  let req := demo_request "access-alice" ""
               [("sellerId", JStr "bob"); ("listingId", JStr "listing-2")] in
  let row := mkChat "new-0" "alice" "bob" "listing-2" None 2000 in
  let s' := set_chat_rows (λ rows, rows ++ [row]) demo_store in
  serve (demo_post_chats demo_ctx req) demo_store
  = (Answered (mkResponse 201 (chat_body row)), s') ∧
  ∃ chat,
    serve (demo_post_chats later_ctx req) s' = (Answered (mkResponse 200 (chat_body chat)), s') ∧
    chat ∈ chat_rows s' ∧ buyerId chat = "alice" ∧ sellerId chat = "bob" ∧
    listingId chat = "listing-2".
Proof.
  cbn zeta.
  destruct (post_chats_finds_or_creates demo_verify None demo_ctx
              (demo_request "access-alice" ""
                 [("sellerId", JStr "bob"); ("listingId", JStr "listing-2")])
              demo_store (mkAuthUser "alice" "alice@example.com" "buyer")
              [("sellerId", JStr "bob"); ("listingId", JStr "listing-2")]
              "bob" "listing-2") as [Hcreate Hfind].
  - reflexivity.
  - reflexivity.
  - reflexivity.
  - reflexivity.
  - reflexivity.
  - reflexivity.
  - intros row Hrow. apply list_elem_of_singleton in Hrow as ->. done.
  - split; [exact Hcreate|]. apply (Hfind later_ctx); [|reflexivity..].
    apply elem_of_app. right. by apply list_elem_of_singleton.
Defined.

(** Two rows for one buyer, seller and listing: which of them the lookup
    returns is the database's choice. *)
Example unordered_lookup_returns_either_row :
  let a := mkChat "dup-a" "alice" "bob" "listing-1" None 10 in
  let b := mkChat "dup-b" "alice" "bob" "listing-1" (Some 20) 11 in
  let s := set_chat_rows (λ _, [a; b]) demo_store in
  let req := demo_request "access-alice" ""
               [("sellerId", JStr "bob"); ("listingId", JStr "listing-1")] in
  serve (demo_post_chats demo_ctx req) s = (Answered (mkResponse 200 (chat_body a)), s) ∧
  serve (demo_post_chats second_row_ctx req) s = (Answered (mkResponse 200 (chat_body b)), s).
Proof. split; reflexivity. Qed.


Lemma register_keeps_the_account_when_the_token_row_is_rejected_witness :
  ∃ s1,
    serve (demo_register token_failing_ctx (mkRequest None "" (Some (JObj demo_registration))))
          demo_store
    = (Answered (mkResponse 400 (caught_body QueryError "Registration failed")), s1) ∧
    token_rows s1 = token_rows demo_store ∧
    (∃ a, Storage.getUserByEmail "erin@example.com" s1 = Some a ∧
          account_id a = "new-0" ∧ account_active a = true) ∧
    serve (demo_register later_ctx (mkRequest None "" (Some (JObj demo_registration)))) s1
    = (Answered (mkResponse 400 (message_body "User already exists with this email")), s1).
Proof.
  destruct (register_keeps_the_account_when_the_token_row_is_rejected
              demo_sign None None demo_hash String.length demo_is_email
              token_failing_ctx (mkRequest None "" (Some (JObj demo_registration)))
              demo_store
              (mkRegisterRequest "erin@example.com" "5550000005" "secret-erin" "Erin" "Doe"
                                 "seller"))
    as (s1 & Hrun & Htokens & Haccount & Hagain).
  - reflexivity.
  - reflexivity.
  - reflexivity.
  - intros old Hold. cbn in Hold.
    repeat (apply elem_of_cons in Hold as [->|Hold]); try done.
    by apply elem_of_nil in Hold.
  - reflexivity.
  - reflexivity.
  - reflexivity.
  - reflexivity.
  - exists s1. split; [exact Hrun|]. split; [exact Htokens|]. split; [exact Haccount|].
    apply (Hagain later_ctx). reflexivity.
Defined.

Lemma refresh_token_is_good_for_one_refresh_witness :
  let req := mkRequest None "" (Some (JObj [("refreshToken", JStr "refresh-alice")])) in
  ∃ s',
    serve (demo_refresh demo_ctx req) demo_store
    = (Answered (mkResponse 200 (tokens_body "access-alice-2" "refresh-alice-2")), s') ∧
    ∃ code b, (serve (demo_refresh later_ctx req) s').1 = Answered (mkResponse code b) ∧
              (code = 400 ∨ code = 401)%nat.
Proof.
  cbn zeta. eexists. split; [reflexivity|].
  apply (refresh_token_is_good_for_one_refresh demo_verify demo_sign None None String.length
           demo_ctx (mkRequest None "" (Some (JObj [("refreshToken", JStr "refresh-alice")])))
           demo_store _ "refresh-alice" "access-alice-2" "refresh-alice-2").
  - reflexivity.
  - reflexivity.
  - done.
Defined.

Lemma logout_revokes_refresh_tokens_witness :
  let req := demo_request "access-alice" "" [("refreshToken", JStr "refresh-alice")] in
  serve (demo_logout demo_ctx req) demo_store
  = (Answered (mkResponse 200 (message_body "Logged out successfully")),
     Storage.deleteAuthToken (Some "refresh-alice") demo_store) ∧
  ∃ code b,
    (serve (demo_refresh later_ctx
              (mkRequest None "" (Some (JObj [("refreshToken", JStr "refresh-alice")]))))
           (Storage.deleteAuthToken (Some "refresh-alice") demo_store)).1
    = Answered (mkResponse code b) ∧ (code = 400 ∨ code = 401)%nat.
Proof.
  cbn zeta.
  destruct (logout_revokes_refresh_tokens demo_verify demo_sign None None String.length
              demo_ctx (demo_request "access-alice" "" [("refreshToken", JStr "refresh-alice")])
              demo_store (mkAuthUser "alice" "alice@example.com" "buyer")
              [("refreshToken", JStr "refresh-alice")]) as [Hnamed _].
  - reflexivity.
  - reflexivity.
  - reflexivity.
  - reflexivity.
  - destruct (Hnamed "refresh-alice") as [Hrun Hthen]; [reflexivity|done|].
    split; [exact Hrun|]. apply (Hthen later_ctx). reflexivity.
Defined.

Lemma login_refresh_token_opens_the_websocket_witness :
  let w := run demo_verify None (boot (database_of demo_store)) [Connection 2] in
  let w' := exec (on_message demo_verify None 2 sample_env
                    (auth_frame "refresh-alice-2")) w in
  identity w' 2 = Some "alice" ∧
  connections w' !! "alice" = Some (mkChatConnection "alice" 2).
Proof.
  cbn zeta.
  destruct (login_refresh_token_opens_the_websocket demo_verify demo_sign None None
              demo_compare String.length demo_ctx
              (mkRequest None ""
                 (Some (JObj [("identifier", JStr "alice@example.com");
                              ("password", JStr "secret-alice")])))
              demo_store
              (set_token_rows
                 (λ rows, rows ++ [mkAuthToken "new-1" "alice" "refresh-alice-2"
                                               (2004 + 604800000)])
                 demo_store)
              "Login successful"
              (mkUserSummary "alice" "alice@example.com" "alice" "Doe" "buyer" kyc_rejected)
              "access-alice-2" "refresh-alice-2"
              (run demo_verify None (boot (database_of demo_store)) [Connection 2])
              2%nat sample_env (auth_fields "refresh-alice-2") (mkSocket None OPEN))
    as (Hid & Hreg & _).
  - reflexivity.
  - reflexivity.
  - reflexivity.
  - reflexivity.
  - reflexivity.
  - split; [exact Hid|exact Hreg].
Defined.

Lemma login_access_token_opens_the_protected_routes_witness :
  demo_authenticateToken later_ctx (demo_request "access-alice-2" "" [])
    (set_token_rows
       (λ rows, rows ++ [mkAuthToken "new-1" "alice" "refresh-alice-2" (2004 + 604800000)])
       demo_store)
  = (Next (mkAuthUser "alice" "alice@example.com" "buyer"),
     set_token_rows
       (λ rows, rows ++ [mkAuthToken "new-1" "alice" "refresh-alice-2" (2004 + 604800000)])
       demo_store).
Proof.
  apply (login_access_token_opens_the_protected_routes demo_verify demo_sign None None
           demo_compare String.length demo_ctx
           (mkRequest None ""
              (Some (JObj [("identifier", JStr "alice@example.com");
                           ("password", JStr "secret-alice")])))
           demo_store _ "Login successful"
           (mkUserSummary "alice" "alice@example.com" "alice" "Doe" "buyer" kyc_rejected)
           "access-alice-2" "refresh-alice-2" later_ctx
           (demo_request "access-alice-2" "" [])).
  - reflexivity.
  - exact (bool_decide_unpack (NoDup (account_id <$> accounts demo_store)) I).
  - reflexivity.
  - reflexivity.
  - done.
  - reflexivity.
Defined.

Lemma kyc_submission_is_verified_at_once_witness :
  ∃ s',
    serve (demo_kyc_submit demo_ctx (demo_request "access-alice" "" demo_kyc)) demo_store
    = (Answered (mkResponse 200 (kyc_body kyc_verified "KYC verification successful")), s') ∧
    kycStatus <$> Storage.getUser "alice" demo_store = Some kyc_rejected ∧
    kycStatus <$> Storage.getUser "alice" s' = Some kyc_verified.
Proof.
  destruct (kyc_submission_is_verified_at_once demo_verify None String.length demo_is_url
              demo_ctx (demo_request "access-alice" "" demo_kyc) demo_store
              (mkAuthUser "alice" "alice@example.com" "buyer") eq_refl eq_refl)
    as (s' & Hrun & (a & a' & _ & Ha' & Hst & _) & _).
  exists s'. split; [exact Hrun|]. split; [reflexivity|].
  change (auth_id (mkAuthUser "alice" "alice@example.com" "buyer")) with "alice" in Ha'.
  rewrite Ha'. cbn. by rewrite Hst.
Defined.

Lemma admin_decision_sets_the_status_only_witness :
  ∃ s',
    serve (demo_kyc_approve demo_ctx (demo_request "access-root" "bob" [])) demo_store
    = (Answered (mkResponse 200 (kyc_body kyc_verified "KYC approved by admin")), s') ∧
    kycStatus <$> Storage.getUser "bob" s' = Some kyc_verified.
Proof.
  destruct (admin_decision_sets_the_status_only demo_verify None
              demo_ctx (demo_request "access-root" "bob" []) demo_store
              (mkAuthUser "root" "root@example.com" "admin") eq_refl eq_refl eq_refl)
    as [(s' & Hrun & Hset & _) _].
  exists s'. split; [exact Hrun|].
  change (param (demo_request "access-root" "bob" [])) with "bob" in Hset.
  by rewrite (Hset (demo_account "bob" "seller" true kyc_pending) eq_refl).
Defined.

Lemma logout_does_not_revoke_websocket_access_witness :
  let s' := (serve (demo_logout demo_ctx
                      (demo_request "access-alice" "" [("refreshToken", JStr "refresh-alice")]))
                   demo_store).2 in
  let w := run demo_verify None (boot (database_of s')) [Connection 2] in
  token_rows s' = [] ∧
  identity (exec (on_message demo_verify None 2 sample_env (auth_frame "refresh-alice")) w) 2
  = Some "alice".
Proof.
  cbn zeta. split; [reflexivity|].
  refine (proj2 (logout_does_not_revoke_websocket_access demo_verify None None
                   demo_ctx
                   (demo_request "access-alice" "" [("refreshToken", JStr "refresh-alice")])
                   demo_store (mkAuthUser "alice" "alice@example.com" "buyer")
                   [("refreshToken", JStr "refresh-alice")] "refresh-alice"
                   _ 2%nat sample_env (auth_fields "refresh-alice") (mkSocket None OPEN)
                   (mkJWTPayload "alice" "buyer") _ _ _ _ _ _ _ _ _ _));
    try reflexivity; done.
Defined.

Lemma failed_refresh_logs_the_client_out_witness :
  let out := Client.apiRequest refusing_network demo_text_of "GET" "/api/chats" None
                               demo_browser in
  (∃ m, out.1 = Client.Rejected (Client.HttpError m) ∧ Client.isUnauthorizedError m = true) ∧
  Client.getAuthHeaders out.2 = [] ∧ Client.getRefreshToken out.2 = None.
Proof.
  cbn zeta.
  destruct (failed_refresh_logs_the_client_out refusing_network demo_text_of
              "GET" "/api/chats" None demo_browser (demo_response 401 None))
    as (Hrejected & Hheaders & Hrefresh & _).
  - reflexivity.
  - reflexivity.
  - reflexivity.
  - right. intros refreshRes [= <-]. by left.
  - split; [exact Hrejected|]. split; [exact Hheaders|exact Hrefresh].
Defined.

Lemma retried_response_is_returned_unchecked_witness :
  let out := Client.apiRequest renewing_network demo_text_of "GET" "/api/chats" None
                               demo_browser in
  out.1 = Client.Resolved (demo_response 403 None) ∧
  Client.getItem "accessToken" out.2 = Some "access-2" ∧
  Client.getRefreshToken out.2 = Some "refresh-2".
Proof.
  cbn zeta.
  destruct (retried_response_is_returned_unchecked renewing_network demo_text_of
              "GET" "/api/chats" None demo_browser (demo_response 401 None)
              "access-alice" "refresh-alice"
              (demo_response 200 (Some (JObj [("accessToken", JStr "access-2");
                                             ("refreshToken", JStr "refresh-2")])))
              [("accessToken", JStr "access-2"); ("refreshToken", JStr "refresh-2")]
              "access-2" "refresh-2")
    as (Hout & _ & Haccess & Hrefresh); try reflexivity; try done.
Defined.

Lemma stored_access_token_is_the_one_the_middleware_reads_witness :
  (∃ h, Client.getAuthHeaders (Client.setAuthTokens "access-alice" "refresh-alice"
                                  (Client.mkBrowser ∅ [] []))
        = [("Authorization", h)] ∧
        bearer (Some h) = Some "access-alice") ∧
  Client.getRefreshToken (Client.setAuthTokens "access-alice" "refresh-alice"
                             (Client.mkBrowser ∅ [] []))
  = Some "refresh-alice".
Proof.
  destruct (stored_access_token_is_the_one_the_middleware_reads
              "access-alice" "refresh-alice" (Client.mkBrowser ∅ [] []))
    as (Hheader & Hrefresh & _); [done|reflexivity|].
  split; [exact Hheader|exact Hrefresh].
Defined.

Lemma registered_user_can_log_in_witness :
  ∃ u s'',
    serve (demo_register demo_ctx (mkRequest None "" (Some (JObj demo_registration))))
          demo_store
    = (Answered (mkResponse 201
         (session_body "User registered successfully"
            (mkUserSummary "new-0" "erin@example.com" "Erin" "Doe" "seller" kyc_pending)
            "access-new-0-2" "refresh-new-0-2")), erin_registered) ∧
    serve (demo_login later_ctx
             (mkRequest None ""
                (Some (JObj [("identifier", JStr "erin@example.com");
                             ("password", JStr "secret-erin")])))) erin_registered
    = (Answered (mkResponse 200
         (session_body "Login successful" u "access-new-0-3" "refresh-new-0-3")), s'') ∧
    summary_id u = "new-0" ∧ summary_role u = "seller".
Proof.
  destruct (registered_user_can_log_in demo_sign None None demo_hash demo_compare
              String.length demo_is_email demo_ctx
              (mkRequest None "" (Some (JObj demo_registration))) demo_store
              erin_registered
              (session_body "User registered successfully"
                 (mkUserSummary "new-0" "erin@example.com" "Erin" "Doe" "seller" kyc_pending)
                 "access-new-0-2" "refresh-new-0-2")
              (mkRegisterRequest "erin@example.com" "5550000005" "secret-erin" "Erin" "Doe"
                                 "seller")
              later_ctx
              (mkRequest None ""
                 (Some (JObj [("identifier", JStr "erin@example.com");
                              ("password", JStr "secret-erin")]))))
    as (u & s'' & Hlogin & Hid & _ & Hrole & _).
  - reflexivity.
  - reflexivity.
  - reflexivity.
  - reflexivity.
  - reflexivity.
  - intros row Hrow. vm_compute in Hrow.
    repeat (apply elem_of_cons in Hrow as [->|Hrow]); try (split; by vm_compute).
    by apply elem_of_nil in Hrow.
  - exists u, s''. split; [reflexivity|]. split; [exact Hlogin|]. split; [exact Hid|exact Hrole].
Defined.
